(** * A shallow embedding of [ai.py], the feed-forward network engine

    The Python module is embedded function by function.  Numeric arrays live
    in an explicit object store, because the source shares and mutates them
    in place ([np.clip(..., out=...)], [-=], [*=], the gradient buffers that
    [backprop] hands out).  Methods run in a state-and-exception monad: a
    raised exception keeps the store as it was at the point of the raise.

    Floating-point arithmetic is an interface ([Scalar]) without any law, so
    every general statement holds for IEEE doubles as well as for any other
    interpretation; [Float64] instantiates it with the kernel's binary64
    numbers for the concrete evaluations at the end of the file. *)

From Stdlib Require Import ZArith List String Ascii Bool Lia.
From Stdlib Require Import DecimalString DecimalPos DecimalN.
From Stdlib Require Import Uint63 PrimFloat SpecFloat FloatOps.
From stdpp Require Import base list strings gmap.

Set Warnings "-inexact-float".
Local Open Scope string_scope.
Local Open Scope nat_scope.

(** ** Exceptions and results *)

Inductive exn :=
| ValueError (msg : string)
| AxisError (msg : string)
| AttributeError (msg : string)
| TypeError (msg : string)
| IndexError (msg : string)
| ZeroDivisionError (msg : string)
| OverflowError (msg : string)
| OSError (msg : string).

Inductive result (A : Type) :=
| Ok (a : A)
| Raise (e : exn).
Arguments Ok {A} a.
Arguments Raise {A} e.

Definition is_ok {A} (r : result A) : bool :=
  match r with Ok _ => true | Raise _ => false end.

Definition is_ValueError {A} (r : result A) : bool :=
  match r with Raise (ValueError _) => true | _ => false end.

Definition rbind {A B} (r : result A) (k : A -> result B) : result B :=
  match r with Ok a => k a | Raise e => Raise e end.

(** ** Scalars

    [flit m e] is the literal [m * 10^e]; [ffma x y z] is [x * y + z]
    rounded once (the fused multiply-add); [ftrunc] is Python's [int(x)] and
    [fround] its [round(x)], both of which raise on NaN and on infinities. *)

Class Scalar (F : Type) := {
  flit : Z -> Z -> F;
  fadd : F -> F -> F;
  fsub : F -> F -> F;
  fmul : F -> F -> F;
  ffma : F -> F -> F -> F;
  fdiv : F -> F -> F;
  fneg : F -> F;
  fabs : F -> F;
  fsqrt : F -> F;
  fexp : F -> F;
  flog : F -> F;
  fpow : F -> nat -> F;
  fltb : F -> F -> bool;
  fleb : F -> F -> bool;
  feqb : F -> F -> bool;
  ftrunc : F -> result Z;
  fround : F -> result Z
}.

(** The two random generators the module draws from: [np.random.normal]
    (one sample of scale [s]) and the [randbelow] underlying
    [random.shuffle]. *)

Class Random (F : Type) := {
  rng : Type;
  normal : rng -> F -> F * rng;
  randbelow : rng -> nat -> nat * rng
}.

(** [str(x)] and [float(s)] on floats. *)

Class FloatText (F : Type) := {
  str_of_float : F -> string;
  float_of_str : string -> option F
}.

(** What the operating system answers when a path is opened for writing:
    [open_w_error p] is the exception that [open(p, "w")] raises, if it
    raises (an empty path, a directory, a missing parent directory, a lack
    of permission), and [None] when the file is created or truncated.  The
    answer is fixed: the module creates no directory and changes no
    permission. *)

Class FileSystem := {
  open_w_error : string -> option exn
}.

Section Numpy.
Context {F : Type} {SF : Scalar F}.

Definition fzero : F := flit 0 0.
Definition fone : F := flit 1 0.
Definition f_of_nat (n : nat) : F := flit (Z.of_nat n) 0.

(** ** One-dimensional arrays *)

Local Abbreviation vec := (list F) (only parsing).

Definition broadcast_error {A} : result A :=
  Raise (ValueError "operands could not be broadcast together").

(** [a op b] on two 1-D arrays, with numpy's broadcasting. *)
Definition vbroadcast2 (op : F -> F -> F) (a b : vec) : result vec :=
  if length a =? length b then Ok (zip_with op a b)
  else match b, a with
       | [y], _ => Ok (map (fun x => op x y) a)
       | _, [x] => Ok (map (fun y => op x y) b)
       | _, _ => broadcast_error
       end.

(** [a op= b]: the result must have the shape of [a]. *)
Definition vinplace (op : F -> F -> F) (a b : vec) : result vec :=
  if length a =? length b then Ok (zip_with op a b)
  else match b with
       | [y] => Ok (map (fun x => op x y) a)
       | _ => Raise (ValueError "non-broadcastable output operand")
       end.

(** [np.clip(x, lo, hi)] for bounds [lo <= hi] that are not NaN: NaN passes
    through, as in numpy. *)
Definition clip_scalar (lo hi x : F) : F :=
  if fltb x lo then lo else if fltb hi x then hi else x.

Definition np_clip (v : vec) (lo hi : F) : vec := map (clip_scalar lo hi) v.

(** [np.sum] of a 1-D array: numpy adds to the identity [0.0] the pairwise
    sum of the elements.  Fewer than eight elements are added one after the
    other.  Up to 128 elements go to eight accumulators, element [i] to
    accumulator [i mod 8], which are then added as a tree, and the elements
    left over after the last full group of eight are added to that.  A
    longer array is split in two parts, the first of a length that is a
    multiple of eight, and the sums of the parts are added. *)
Definition sum8 (r : vec) : F :=
  match r with
  | [r0; r1; r2; r3; r4; r5; r6; r7] =>
      fadd (fadd (fadd r0 r1) (fadd r2 r3)) (fadd (fadd r4 r5) (fadd r6 r7))
  | _ => fzero
  end.

Fixpoint accumulate8 (groups : nat) (r a : vec) : vec * vec :=
  match groups with
  | O => (r, a)
  | S k => accumulate8 k (zip_with fadd r (take 8 a)) (drop 8 a)
  end.

Definition block_sum (a : vec) : F :=
  let '(r, rest) := accumulate8 (length a / 8 - 1) (take 8 a) (drop 8 a) in
  fold_left fadd rest (sum8 r).

Fixpoint pairwise_sum (depth : nat) (a : vec) : F :=
  let n := length a in
  if n <? 8 then fold_left fadd a fzero
  else if n <=? 128 then block_sum a
  else match depth with
       | O => block_sum a
       | S depth' =>
           let n2 := n / 2 - (n / 2) mod 8 in
           fadd (pairwise_sum depth' (take n2 a)) (pairwise_sum depth' (drop n2 a))
       end.

Definition fsum (v : vec) : F := fadd fzero (pairwise_sum (length v) v).

(** [np.mean] of a 1-D array (NaN on the empty array, through [0/0]). *)
Definition np_mean (v : vec) : F := fdiv (fsum v) (f_of_nat (length v)).

(** The inner product of two 1-D arrays of one length.  numpy hands the
    product of a matrix and a vector to the BLAS library, whose kernels
    multiply and add in one fused step and do not fix the order in which
    the terms are taken; here the terms are accumulated in the order of the
    index, each with one fused multiply-add. *)
Definition dot (a b : vec) : F :=
  fold_left (fun acc p => ffma (fst p) (snd p) acc) (zip a b) fzero.

(** ** Two-dimensional arrays: rows and the column count, which numpy keeps
    even when there is no row. *)

Record matrix := mkMatrix { mrows : list vec; mcols : nat }.

Definition nrows (M : matrix) : nat := length (mrows M).
Definition shape (M : matrix) : nat * nat := (nrows M, mcols M).

Definition rectangular (M : matrix) : bool :=
  forallb (fun r => length r =? mcols M) (mrows M).

(** Broadcasting of one axis: the common extent, and the index used in an
    operand of extent [n]. *)
Definition bdim (a b : nat) : option nat :=
  if a =? b then Some a
  else if a =? 1 then Some b
  else if b =? 1 then Some a
  else None.

Definition bidx (n i : nat) : nat := if n =? 1 then 0 else i.

Definition mget (M : matrix) (i j : nat) : F :=
  nth (bidx (mcols M) j) (nth (bidx (nrows M) i) (mrows M) []) fzero.

Definition mbuild (r c : nat) (f : nat -> nat -> F) : matrix :=
  {| mrows := map (fun i => map (fun j => f i j) (seq 0 c)) (seq 0 r);
     mcols := c |}.

Definition mbroadcast2 (op : F -> F -> F) (A B : matrix) : result matrix :=
  match bdim (nrows A) (nrows B), bdim (mcols A) (mcols B) with
  | Some r, Some c => Ok (mbuild r c (fun i j => op (mget A i j) (mget B i j)))
  | _, _ => broadcast_error
  end.

Definition minplace (op : F -> F -> F) (A B : matrix) : result matrix :=
  match bdim (nrows A) (nrows B), bdim (mcols A) (mcols B) with
  | Some r, Some c =>
      if (r =? nrows A) && (c =? mcols A)
      then Ok (mbuild r c (fun i j => op (mget A i j) (mget B i j)))
      else Raise (ValueError "non-broadcastable output operand")
  | _, _ => broadcast_error
  end.

Definition mmap (f : F -> F) (M : matrix) : matrix :=
  {| mrows := map (map f) (mrows M); mcols := mcols M |}.

Definition mzeros (r c : nat) : matrix := mbuild r c (fun _ _ => fzero).

(** [M.T] *)
Definition transpose (M : matrix) : matrix :=
  mbuild (mcols M) (nrows M) (fun j i => nth j (nth i (mrows M) []) fzero).

(** [M.dot(v)] for a 2-D [M] and a 1-D [v]. *)
Definition mat_vec (M : matrix) (v : vec) : result vec :=
  if mcols M =? length v then Ok (map (fun r => dot r v) (mrows M))
  else Raise (ValueError "shapes not aligned").

(** [np.outer(a, b)] *)
Definition np_outer (a b : vec) : matrix :=
  {| mrows := map (fun x => map (fmul x) b) a; mcols := length b |}.

End Numpy.

Arguments matrix F : clear implicits.

(** ** Activation functions ([class ActivationFunction] and its subclasses) *)

Inductive ActivationFunction := Sigmoid | ReLU | LeakyReLU.

Inductive LossFunction :=
| MeanSquareError | MeanAbsoluteError | BinaryCrossEntropy | CategoricalCrossEntropy.

(** An array of one or of two dimensions, for the operations that look at
    the number of dimensions. *)
Inductive ndarray {F : Type} := Arr1 (v : list F) | Arr2 (M : matrix F).
Arguments ndarray F : clear implicits.

Section Strategies.
Context {F : Type} {SF : Scalar F} {RF : Random F}.
Local Abbreviation vec := (list F) (only parsing).
Local Abbreviation matrix := (matrix F) (only parsing).

Definition act_class_name (a : ActivationFunction) : string :=
  match a with Sigmoid => "Sigmoid" | ReLU => "ReLU" | LeakyReLU => "LeakyReLU" end.

(** [LeakyReLU.leak] *)
Definition leak : F := flit 1 (-1).

Definition Sigmoid_call (x : vec) : vec :=
  let x := np_clip x (flit (-709) 0) (flit 709 0) in
  map (fun xi => fdiv fone (fadd fone (fexp (fneg xi)))) x.

Definition Sigmoid_derivative (x : vec) : vec :=
  let sigmoid_x := Sigmoid_call x in
  map (fun s => fmul s (fsub fone s)) sigmoid_x.

(** [np.maximum(0.0, x)]: [0.0] where [x] is below it, and [x] itself
    elsewhere, also when [x] is NaN or the negative zero. *)
Definition maximum0 (x : F) : F :=
  if fltb x fzero then fzero else x.

Definition ReLU_call (x : vec) : vec := map maximum0 x.

Definition ReLU_derivative (x : vec) : vec :=
  map (fun xi => if fltb fzero xi then fone else fzero) x.

Definition LeakyReLU_call (x : vec) : vec :=
  map (fun xi => if fltb fzero xi then xi else fmul xi leak) x.

Definition LeakyReLU_derivative (x : vec) : vec :=
  map (fun xi => if fltb fzero xi then fone else leak) x.

Definition act_call (a : ActivationFunction) (x : vec) : vec :=
  match a with
  | Sigmoid => Sigmoid_call x
  | ReLU => ReLU_call x
  | LeakyReLU => LeakyReLU_call x
  end.

Definition act_derivative (a : ActivationFunction) (x : vec) : vec :=
  match a with
  | Sigmoid => Sigmoid_derivative x
  | ReLU => ReLU_derivative x
  | LeakyReLU => LeakyReLU_derivative x
  end.

(** [np.random.normal(loc=0.0, scale=s, size=(r, c))]: [r*c] samples in
    row-major order. *)
Fixpoint normal_row (c : nat) (s : F) (g : rng) : vec * rng :=
  match c with
  | O => ([], g)
  | S c' => let '(x, g1) := normal g s in
            let '(xs, g2) := normal_row c' s g1 in (x :: xs, g2)
  end.

Fixpoint normal_rows (r c : nat) (s : F) (g : rng) : list vec * rng :=
  match r with
  | O => ([], g)
  | S r' => let '(x, g1) := normal_row c s g in
            let '(xs, g2) := normal_rows r' c s g1 in (x :: xs, g2)
  end.

Definition np_random_normal (s : F) (r c : nat) (g : rng) : matrix * rng :=
  let '(rows, g') := normal_rows r c s g in ({| mrows := rows; mcols := c |}, g').

(** [init_weights(input_size, output_size)].  [2.0 / input_size] divides a
    Python float by a Python int and raises on zero; [1.0 / np.sqrt(0)] is a
    numpy division and yields infinity. *)
Definition init_weights (a : ActivationFunction) (input_size output_size : nat)
    (g : rng) : result (matrix * rng) :=
  match a with
  | Sigmoid =>
      let stddev := fdiv fone (fsqrt (f_of_nat input_size)) in
      Ok (np_random_normal stddev input_size output_size g)
  | ReLU =>
      if input_size =? 0 then Raise (ZeroDivisionError "float division by zero")
      else
        let stddev := fsqrt (fdiv (flit 2 0) (f_of_nat input_size)) in
        let '(M, g') := np_random_normal stddev input_size output_size g in
        Ok (mmap fabs M, g')
  | LeakyReLU =>
      if input_size =? 0 then Raise (ZeroDivisionError "float division by zero")
      else
        let stddev := fsqrt (fdiv (flit 2 0) (f_of_nat input_size)) in
        Ok (np_random_normal stddev input_size output_size g)
  end.

(** ** Loss functions ([class LossFunction] and its subclasses), on the 1-D
    arrays the network passes them *)

Definition loss_class_name (l : LossFunction) : string :=
  match l with
  | MeanSquareError => "MeanSquareError"
  | MeanAbsoluteError => "MeanAbsoluteError"
  | BinaryCrossEntropy => "BinaryCrossEntropy"
  | CategoricalCrossEntropy => "CategoricalCrossEntropy"
  end.

(** [np.sum(a, axis=1)] *)
Definition np_sum_axis1 (a : ndarray F) : result (ndarray F) :=
  match a with
  | Arr1 _ => Raise (AxisError "axis 1 is out of bounds for array of dimension 1")
  | Arr2 M => Ok (Arr1 (map fsum (mrows M)))
  end.

Definition nd_neg (a : ndarray F) : ndarray F :=
  match a with Arr1 v => Arr1 (map fneg v) | Arr2 M => Arr2 (mmap fneg M) end.

(** [np.mean(a)] over all the elements *)
Definition nd_mean (a : ndarray F) : F :=
  match a with
  | Arr1 v => np_mean v
  | Arr2 M => fdiv (fsum (concat (mrows M))) (f_of_nat (nrows M * mcols M))
  end.

Definition clip_eps (predictions : vec) : vec :=
  np_clip predictions (flit 1 (-15)) (fsub fone (flit 1 (-15))).

Definition loss_call (l : LossFunction) (predictions targets : vec) : result (ndarray F) :=
  match l with
  | MeanSquareError =>
      rbind (vbroadcast2 fsub predictions targets) (fun d =>
      Ok (Arr1 (map (fun x => fpow x 2) d)))
  | MeanAbsoluteError =>
      rbind (vbroadcast2 fsub predictions targets) (fun d =>
      Ok (Arr1 (map fabs d)))
  | BinaryCrossEntropy =>
      let predictions := clip_eps predictions in
      rbind (vbroadcast2 fmul targets (map flog predictions)) (fun a =>
      rbind (vbroadcast2 fmul (map (fsub fone) targets)
                         (map (fun p => flog (fsub fone p)) predictions)) (fun b =>
      rbind (vbroadcast2 fadd a b) (fun s =>
      Ok (Arr1 (map fneg s)))))
  | CategoricalCrossEntropy =>
      let predictions := clip_eps predictions in
      rbind (vbroadcast2 fmul targets (map flog predictions)) (fun a =>
      rbind (np_sum_axis1 (Arr1 a)) (fun s =>
      Ok (nd_neg s)))
  end.

Definition loss_derivative (l : LossFunction) (predictions targets : vec) : result vec :=
  match l with
  | MeanSquareError =>
      rbind (vbroadcast2 fsub predictions targets) (fun d =>
      Ok (map (fmul (flit 2 0)) d))
  | MeanAbsoluteError =>
      vbroadcast2 (fun p t => if fltb t p then flit 1 0 else flit (-1) 0)
                  predictions targets
  | BinaryCrossEntropy =>
      let predictions := clip_eps predictions in
      rbind (vbroadcast2 fsub predictions targets) (fun n =>
      vbroadcast2 fdiv n (map (fun p => fmul p (fsub fone p)) predictions))
  | CategoricalCrossEntropy =>
      let predictions := clip_eps predictions in
      vbroadcast2 fdiv (map fneg targets) predictions
  end.

Definition loss_cost (l : LossFunction) (predictions targets : vec) : result F :=
  rbind (loss_call l predictions targets) (fun e => Ok (nd_mean e)).

End Strategies.

(** ** Objects

    What [get_class_by_name] can hand to the constructor: an instance of one
    of the module's classes, or [None]. *)

Inductive pyobj :=
| ObjNone
| ObjActivation (a : ActivationFunction)
| ObjLoss (l : LossFunction)
| ObjABC.

(** The names bound at module level in [ai.py] that are classes. *)
Inductive pyclass :=
| C_ABC | C_ActivationFunction | C_Sigmoid | C_ReLU | C_LeakyReLU
| C_LossFunction | C_MeanSquareError | C_MeanAbsoluteError
| C_BinaryCrossEntropy | C_CategoricalCrossEntropy
| C_NeuralNetwork | C_Layer | C_Neuron.

Inductive global :=
| GClass (c : pyclass)
| GOther.

(** [globals()] of the module: the classes it imports and defines; the
    modules ([os], [random], [np]), the decorator [abstractmethod] and the
    typing forms ([Optional], [Iterable], [Union], [NDArray]) are bound but
    are no instance of [type]. *)
Definition globals (name : string) : option global :=
  if String.eqb name "ABC" then Some (GClass C_ABC)
  else if String.eqb name "ActivationFunction" then Some (GClass C_ActivationFunction)
  else if String.eqb name "Sigmoid" then Some (GClass C_Sigmoid)
  else if String.eqb name "ReLU" then Some (GClass C_ReLU)
  else if String.eqb name "LeakyReLU" then Some (GClass C_LeakyReLU)
  else if String.eqb name "LossFunction" then Some (GClass C_LossFunction)
  else if String.eqb name "MeanSquareError" then Some (GClass C_MeanSquareError)
  else if String.eqb name "MeanAbsoluteError" then Some (GClass C_MeanAbsoluteError)
  else if String.eqb name "BinaryCrossEntropy" then Some (GClass C_BinaryCrossEntropy)
  else if String.eqb name "CategoricalCrossEntropy" then Some (GClass C_CategoricalCrossEntropy)
  else if String.eqb name "NeuralNetwork" then Some (GClass C_NeuralNetwork)
  else if String.eqb name "Layer" then Some (GClass C_Layer)
  else if String.eqb name "Neuron" then Some (GClass C_Neuron)
  else if existsb (String.eqb name)
            ["os"; "random"; "np"; "abstractmethod"; "Optional"; "Iterable";
             "Union"; "NDArray"]
  then Some GOther
  else None.

(** [cls()] with no argument. *)
Definition instantiate (c : pyclass) : result pyobj :=
  match c with
  | C_ABC => Ok ObjABC
  | C_ActivationFunction | C_LossFunction =>
      Raise (TypeError "Can't instantiate abstract class")
  | C_Sigmoid => Ok (ObjActivation Sigmoid)
  | C_ReLU => Ok (ObjActivation ReLU)
  | C_LeakyReLU => Ok (ObjActivation LeakyReLU)
  | C_MeanSquareError => Ok (ObjLoss MeanSquareError)
  | C_MeanAbsoluteError => Ok (ObjLoss MeanAbsoluteError)
  | C_BinaryCrossEntropy => Ok (ObjLoss BinaryCrossEntropy)
  | C_CategoricalCrossEntropy => Ok (ObjLoss CategoricalCrossEntropy)
  | C_NeuralNetwork | C_Layer | C_Neuron =>
      Raise (TypeError "missing required positional arguments")
  end.

Definition get_class_by_name (class_name : string) : result pyobj :=
  match globals class_name with
  | Some (GClass c) => instantiate c
  | _ => Ok ObjNone
  end.

(** [obj.__class__.__name__] *)
Definition class_name (o : pyobj) : string :=
  match o with
  | ObjNone => "NoneType"
  | ObjActivation a => act_class_name a
  | ObjLoss l => loss_class_name l
  | ObjABC => "ABC"
  end.

(** ** Iterables

    A Python iterable: a sequence (list, tuple), whose truth value is its
    being non-empty, or any other iterable object (an iterator, a
    generator), which is always true. *)
Inductive iterable (A : Type) :=
| PySequence (items : list A)
| PyIterator (items : list A).
Arguments PySequence {A} items.
Arguments PyIterator {A} items.

Definition truthy {A} (d : iterable A) : bool :=
  match d with
  | PySequence [] => false
  | _ => true
  end.

(** [list(d)] *)
Definition to_list {A} (d : iterable A) : list A :=
  match d with PySequence l => l | PyIterator l => l end.

(** ** Layers, networks and the store *)

(** A layer; array-valued attributes are references into the store, and
    [previous_layer] is the position of the preceding layer in the network's
    list. *)
Record Layer := mkLayer {
  neuron_count : nat;
  previous_layer : option nat;
  activation_func : pyobj;
  weights : option nat;
  biases : option nat;
  z : nat;
  activations : nat;
  a_grad : option nat;
  z_grad : option nat;
  w_grad : option nat
}.

Definition set_biases (b : option nat) (l : Layer) : Layer :=
  mkLayer (neuron_count l) (previous_layer l) (activation_func l) (weights l) b
          (z l) (activations l) (a_grad l) (z_grad l) (w_grad l).
Definition set_z (r : nat) (l : Layer) : Layer :=
  mkLayer (neuron_count l) (previous_layer l) (activation_func l) (weights l) (biases l)
          r (activations l) (a_grad l) (z_grad l) (w_grad l).
Definition set_activations (r : nat) (l : Layer) : Layer :=
  mkLayer (neuron_count l) (previous_layer l) (activation_func l) (weights l) (biases l)
          (z l) r (a_grad l) (z_grad l) (w_grad l).
Definition set_a_grad (r : option nat) (l : Layer) : Layer :=
  mkLayer (neuron_count l) (previous_layer l) (activation_func l) (weights l) (biases l)
          (z l) (activations l) r (z_grad l) (w_grad l).
Definition set_z_grad (r : option nat) (l : Layer) : Layer :=
  mkLayer (neuron_count l) (previous_layer l) (activation_func l) (weights l) (biases l)
          (z l) (activations l) (a_grad l) r (w_grad l).
Definition set_w_grad (r : option nat) (l : Layer) : Layer :=
  mkLayer (neuron_count l) (previous_layer l) (activation_func l) (weights l) (biases l)
          (z l) (activations l) (a_grad l) (z_grad l) r.

Section Engine.
Context {F : Type} {SF : Scalar F} {RF : Random F} {TF : FloatText F} {FS : FileSystem}.
Local Abbreviation vec := (list F) (only parsing).
Local Abbreviation matrix := (matrix F) (only parsing).

Record NeuralNetwork := mkNetwork {
  loss_func : pyobj;
  layers : list Layer;
  cost : F
}.

(** The world a method runs in: the network it is called on ([self]), the
    store of 1-D and of 2-D arrays, numpy's and Python's random generators,
    and the files: the text of every regular file that exists, under the
    path that names it.  A file has one name here: a path argument stands
    for the file it resolves to, so that two spellings of one file are one
    key. *)
Record state := mkState {
  self : NeuralNetwork;
  vecs : list vec;
  mats : list matrix;
  np_random : rng;
  py_random : rng;
  files : gmap string string
}.

Definition with_self (n : NeuralNetwork) (s : state) : state :=
  mkState n (vecs s) (mats s) (np_random s) (py_random s) (files s).
Definition with_vecs (v : list vec) (s : state) : state :=
  mkState (self s) v (mats s) (np_random s) (py_random s) (files s).
Definition with_mats (m : list matrix) (s : state) : state :=
  mkState (self s) (vecs s) m (np_random s) (py_random s) (files s).
Definition with_np_random (g : rng) (s : state) : state :=
  mkState (self s) (vecs s) (mats s) g (py_random s) (files s).
Definition with_py_random (g : rng) (s : state) : state :=
  mkState (self s) (vecs s) (mats s) (np_random s) g (files s).
Definition with_files (f : gmap string string) (s : state) : state :=
  mkState (self s) (vecs s) (mats s) (np_random s) (py_random s) f.

Definition with_layers (ls : list Layer) (n : NeuralNetwork) : NeuralNetwork :=
  mkNetwork (loss_func n) ls (cost n).
Definition with_cost (c : F) (n : NeuralNetwork) : NeuralNetwork :=
  mkNetwork (loss_func n) (layers n) c.

(** *** The monad *)

Definition M (A : Type) : Type := state -> result A * state.

Definition ret {A} (a : A) : M A := fun s => (Ok a, s).
Definition raise {A} (e : exn) : M A := fun s => (Raise e, s).
Definition bind {A B} (m : M A) (k : A -> M B) : M B :=
  fun s => match m s with
           | (Ok a, s') => k a s'
           | (Raise e, s') => (Raise e, s')
           end.
Definition lift {A} (r : result A) : M A := fun s => (r, s).
Definition gets {A} (f : state -> A) : M A := fun s => (Ok (f s), s).
Definition modify (f : state -> state) : M unit := fun s => (Ok tt, f s).

#[global] Instance M_ret : MRet M := @ret.
#[global] Instance M_bind : MBind M := fun A B k m => bind m k.

(** *** The store *)

Definition alloc_vec (v : vec) : M nat :=
  fun s => (Ok (length (vecs s)), with_vecs (vecs s ++ [v]) s).
Definition alloc_mat (m : matrix) : M nat :=
  fun s => (Ok (length (mats s)), with_mats (mats s ++ [m]) s).
Definition read_vec (r : nat) : M vec :=
  gets (fun s => default [] (vecs s !! r)).
Definition read_mat (r : nat) : M matrix :=
  gets (fun s => default (mkMatrix [] 0) (mats s !! r)).
Definition write_vec (r : nat) (v : vec) : M unit :=
  modify (fun s => with_vecs (<[r := v]> (vecs s)) s).
Definition write_mat (r : nat) (m : matrix) : M unit :=
  modify (fun s => with_mats (<[r := m]> (mats s)) s).

(** An in-place operation on the array at [r]: [f] computes the new
    contents from the current ones, or raises. *)
Definition inplace_vec (r : nat) (f : vec -> result vec) : M unit :=
  v ← read_vec r;
  v' ← lift (f v);
  write_vec r v'.
Definition inplace_mat (r : nat) (f : matrix -> result matrix) : M unit :=
  m ← read_mat r;
  m' ← lift (f m);
  write_mat r m'.

(** [self.layers[i]] and the assignment of one of its attributes *)
Definition get_layer (i : nat) : M Layer :=
  s ← gets self;
  match layers s !! i with
  | Some l => ret l
  | None => raise (IndexError "list index out of range")
  end.
Definition upd_layer (i : nat) (f : Layer -> Layer) : M unit :=
  modify (fun s => with_self (with_layers (alter f i (layers (self s))) (self s)) s).

(** [self.layers[-1]], with its position *)
Definition last_layer : M (nat * Layer) :=
  s ← gets self;
  match last (layers s) with
  | Some l => ret (length (layers s) - 1, l)
  | None => raise (IndexError "list index out of range")
  end.

Fixpoint for_each {A} (xs : list A) (body : A -> M unit) : M unit :=
  match xs with
  | [] => ret tt
  | x :: xs' => body x;; for_each xs' body
  end.

(** *** [class Layer] *)

Definition none_attr {A} (attr : string) : M A :=
  raise (AttributeError ("'NoneType' object has no attribute '" ++ attr ++ "'")).

Definition none_operand {A} (op : string) : M A :=
  raise (TypeError ("unsupported operand type(s) for " ++ op ++ ": 'NoneType'")).

Definition some_ref {A} (o : option A) (op : string) : M A :=
  match o with Some r => ret r | None => none_operand op end.

(** [self.activation_func(x)] and [self.activation_func.derivative(x)] *)
Definition act_call_obj (o : pyobj) (x : vec) : M vec :=
  match o with
  | ObjActivation a => ret (act_call a x)
  | ObjLoss _ => raise (TypeError "__call__() missing 1 required positional argument")
  | _ => raise (TypeError "object is not callable")
  end.

Definition act_derivative_obj (o : pyobj) (x : vec) : M vec :=
  match o with
  | ObjActivation a => ret (act_derivative a x)
  | ObjLoss _ => raise (TypeError "derivative() missing 1 required positional argument")
  | ObjNone => none_attr "derivative"
  | ObjABC => raise (AttributeError "object has no attribute 'derivative'")
  end.

(** [Layer.forward], on the layer at position [i] *)
Definition forward (i : nat) : M unit :=
  layer ← get_layer i;
  match previous_layer layer with
  | Some p =>
      W ← match weights layer with Some r => read_mat r | None => none_attr "dot" end;
      prev ← get_layer p;
      a_prev ← read_vec (activations prev);
      Wa ← lift (mat_vec W a_prev);
      b ← match biases layer with Some r => read_vec r | None => none_operand "+" end;
      zv ← lift (vbroadcast2 fadd Wa b);
      zr ← alloc_vec zv;
      upd_layer i (set_z zr);;
      a ← act_call_obj (activation_func layer) zv;
      ar ← alloc_vec a;
      upd_layer i (set_activations ar)
  | None => ret tt
  end.

(** [Layer.backward]: [z_grad] is a fresh array, multiplied in place by
    [a_grad]. *)
Definition backward (i : nat) : M unit :=
  layer ← get_layer i;
  match previous_layer layer with
  | Some p =>
      zv ← read_vec (z layer);
      dz ← act_derivative_obj (activation_func layer) zv;
      zg ← alloc_vec dz;
      upd_layer i (set_z_grad (Some zg));;
      ag ← match a_grad layer with Some r => read_vec r | None => none_operand "*=" end;
      inplace_vec zg (fun d => vinplace fmul d ag);;
      z_grad ← read_vec zg;
      prev ← get_layer p;
      a_prev ← read_vec (activations prev);
      wg ← alloc_mat (np_outer z_grad a_prev);
      upd_layer i (set_w_grad (Some wg));;
      W ← match weights layer with Some r => read_mat r | None => none_attr "T" end;
      pa ← lift (mat_vec (transpose W) z_grad);
      par ← alloc_vec pa;
      upd_layer p (set_a_grad (Some par))
  | None => ret tt
  end.

(** *** [class NeuralNetwork] *)

Definition shape_error_inputs : exn :=
  ValueError "The length of input_activations must be the same as the number of Neurons in the input Layer!".
Definition shape_error_targets : exn :=
  ValueError "The length of targets must be the same as count of the Neurons in the output Layer!".

Fixpoint predict_loop (idxs : list nat) (is_input_layer : bool) (inputs : vec) : M unit :=
  match idxs with
  | [] => ret tt
  | i :: rest =>
      if is_input_layer then
        layer ← get_layer i;
        a ← read_vec (activations layer);
        if negb (length a =? length inputs) then raise shape_error_inputs
        else
          r ← alloc_vec inputs;
          upd_layer i (set_activations r);;
          predict_loop rest false inputs
      else
        forward i;;
        predict_loop rest false inputs
  end.

(** [predict]: returns the output layer's activation array itself. *)
Definition predict (inputs : vec) : M nat :=
  n ← gets (fun s => length (layers (self s)));
  predict_loop (seq 0 n) true inputs;;
  '(_, output_layer) ← last_layer;
  ret (activations output_layer).

Definition loss_cost_obj (o : pyobj) (predictions targets : vec) : M F :=
  match o with
  | ObjLoss l => lift (loss_cost l predictions targets)
  | ObjNone => none_attr "cost"
  | _ => raise (AttributeError "object has no attribute 'cost'")
  end.

Definition loss_derivative_obj (o : pyobj) (predictions targets : vec) : M vec :=
  match o with
  | ObjLoss l => lift (loss_derivative l predictions targets)
  | ObjActivation _ =>
      raise (TypeError "derivative() takes 2 positional arguments but 3 were given")
  | ObjNone => none_attr "derivative"
  | ObjABC => raise (AttributeError "object has no attribute 'derivative'")
  end.

Definition current_cost (targets : vec) : M F :=
  '(_, output_layer) ← last_layer;
  predictions ← read_vec (activations output_layer);
  if negb (length predictions =? length targets) then raise shape_error_targets
  else
    lf ← gets (fun s => loss_func (self s));
    loss_cost_obj lf predictions targets.

(** The list [backprop] returns: per layer with a predecessor, its
    [w_grad] and [z_grad] attributes (the arrays themselves, not copies). *)
Definition gradient := list (option nat * option nat).

Definition collect_gradient (ls : list Layer) : gradient :=
  omap (fun layer => match previous_layer layer with
                     | Some _ => Some (w_grad layer, z_grad layer)
                     | None => None
                     end) ls.

Definition backprop (targets : vec) : M gradient :=
  '(o, output_layer) ← last_layer;
  predictions ← read_vec (activations output_layer);
  lf ← gets (fun s => loss_func (self s));
  d ← loss_derivative_obj lf predictions targets;
  dr ← alloc_vec d;
  upd_layer o (set_a_grad (Some dr));;
  n ← gets (fun s => length (layers (self s)));
  for_each (rev (seq 0 n)) backward;;
  ls ← gets (fun s => layers (self s));
  ret (collect_gradient ls).

Definition clip1 : F -> F := clip_scalar (flit (-1) 0) (flit 1 0).

Fixpoint update_loop (idxs : list nat) (idx : nat) (g : gradient) (learning_rate : F) : M unit :=
  match idxs with
  | [] => ret tt
  | i :: rest =>
      layer ← get_layer i;
      match previous_layer layer with
      | Some _ =>
          match g !! idx with
          | None => raise (IndexError "list index out of range")
          | Some (weights_grad, biases_grad) =>
              wg ← some_ref weights_grad ">=";
              inplace_mat wg (fun G => Ok (mmap clip1 G));;
              bg ← some_ref biases_grad ">=";
              inplace_vec bg (fun B => Ok (map clip1 B));;
              wr ← some_ref (weights layer) "-=";
              G ← read_mat wg;
              inplace_mat wr (fun W => minplace fsub W (mmap (fun x => fmul x learning_rate) G));;
              br ← some_ref (biases layer) "-=";
              B ← read_vec bg;
              inplace_vec br (fun b => vinplace fsub b (map (fun x => fmul x learning_rate) B));;
              update_loop rest (S idx) g learning_rate
          end
      | None => update_loop rest idx g learning_rate
      end
  end.

Definition update_weights (g : gradient) (learning_rate : F) : M unit :=
  n ← gets (fun s => length (layers (self s)));
  update_loop (seq 0 n) 0 g learning_rate.

(** *** Construction *)

Definition np_zeros (n : nat) : vec := replicate n fzero.

(** [Layer.__init__] for the layer that will stand at position [i];
    [previous] is the preceding layer, if any. *)
Definition Layer_init (count : Z) (previous : option (nat * Layer))
    (activation_func : pyobj) : M Layer :=
  match previous with
  | Some (p, prev) =>
      match activation_func with
      | ObjActivation a =>
          if (count <? 0)%Z then raise (ValueError "negative dimensions are not allowed")
          else
            let n := Z.to_nat count in
            g ← gets np_random;
            '(W, g') ← lift (init_weights a n (neuron_count prev) g);
            modify (with_np_random g');;
            wr ← alloc_mat W;
            br ← alloc_vec (np_zeros n);
            zr ← alloc_vec (np_zeros n);
            ar ← alloc_vec (np_zeros n);
            ret (mkLayer n (Some p) activation_func (Some wr) (Some br) zr ar None None None)
      | ObjNone => none_attr "init_weights"
      | _ => raise (AttributeError "object has no attribute 'init_weights'")
      end
  | None =>
      if (count <? 0)%Z then raise (ValueError "negative dimensions are not allowed")
      else
        let n := Z.to_nat count in
        zr ← alloc_vec (np_zeros n);
        ar ← alloc_vec (np_zeros n);
        ret (mkLayer n None activation_func None None zr ar None None None)
  end.

(** The [activation_func] argument of the constructor: one strategy, or a
    list of objects. *)
Inductive act_arg :=
| OneActivation (a : ActivationFunction)
| ActivationList (l : list pyobj).

(** [ActivationFunction.default] and [LossFunction.default] *)
Definition ActivationFunction_default : pyobj := ObjActivation Sigmoid.
Definition LossFunction_default : pyobj := ObjLoss MeanSquareError.

Fixpoint build_layers (counts : list Z) (i : nat) (previous_layer : option (nat * Layer))
    (activation_func : list pyobj) (acc : list Layer) : M (list Layer) :=
  match counts with
  | [] => ret acc
  | neuron_count :: rest =>
      layer ← Layer_init neuron_count previous_layer
                (match previous_layer with
                 | None => ActivationFunction_default
                 | Some _ => default ObjNone (activation_func !! (i - 1))
                 end);
      build_layers rest (S i) (Some (i, layer)) activation_func (acc ++ [layer])
  end.

(** [NeuralNetwork.__init__]; the new network is returned. *)
Definition NeuralNetwork_init (layer_neuron_counts : list Z) (activation_func : act_arg)
    (loss_func : pyobj) : M NeuralNetwork :=
  if length layer_neuron_counts <? 2 then
    raise (ValueError "The number of layers is less than 2, there must be at least 1 input and 1 output layer.")
  else
    let activation_func :=
      match activation_func with
      | OneActivation a => replicate (length layer_neuron_counts - 1) (ObjActivation a)
      | ActivationList l => l
      end in
    if negb (length activation_func =? length layer_neuron_counts - 1) then
      raise (ValueError "The len(activation_func) must be equal to the number of layers - 1 (input layer doesn't have activation function).")
    else
      ls ← build_layers layer_neuron_counts 0 None activation_func [];
      ret (mkNetwork loss_func ls (flit (-1) 0)).

(** *** Training *)

Definition swap {A} (i j : nat) (l : list A) : list A :=
  match l !! i, l !! j with
  | Some x, Some y => <[j := x]> (<[i := y]> l)
  | _, _ => l
  end.

(** [random.shuffle]: for [i] from [len-1] down to [1], exchange [x[i]] with
    [x[randbelow(i+1)]]. *)
Fixpoint shuffle_from {A} (i : nat) (l : list A) (g : rng) : list A * rng :=
  match i with
  | O => (l, g)
  | S i' => let '(j, g') := randbelow g (S i) in shuffle_from i' (swap i j l) g'
  end.

Definition random_shuffle {A} (l : list A) : M (list A) :=
  g ← gets py_random;
  let '(l', g') := shuffle_from (length l - 1) l g in
  modify (with_py_random g');;
  ret l'.

(** [l[:k]] and [l[k:]] for a Python integer [k] *)
Definition slice_index {A} (l : list A) (k : Z) : nat :=
  if (k <? 0)%Z then Z.to_nat (Z.of_nat (length l) + k) else Z.to_nat k.
Definition slice_to {A} (l : list A) (k : Z) : list A := take (slice_index l k) l.
Definition slice_from {A} (l : list A) (k : Z) : list A := drop (slice_index l k) l.

(** [range(0, n, step)] for [step > 0] *)
Definition range_step (n step : nat) : list nat :=
  map (fun k => k * step) (seq 0 ((n + step - 1) / step)).

Definition beta1 : F := flit 9 (-1).
Definition beta2 : F := flit 999 (-3).
Definition epsilon : F := flit 1 (-8).

(** One Adam accumulator per parameter array; [None] stands for
    [np.zeros_like(None)]. *)
Definition moments := list (option matrix * option vec).

Definition zeros_like_mat (r : option nat) : M (option matrix) :=
  match r with
  | Some r => W ← read_mat r; ret (Some (mzeros (nrows W) (mcols W)))
  | None => ret None
  end.
Definition zeros_like_vec (r : option nat) : M (option vec) :=
  match r with
  | Some r => b ← read_vec r; ret (Some (np_zeros (length b)))
  | None => ret None
  end.

Fixpoint init_moments (ls : list Layer) : M moments :=
  match ls with
  | [] => ret []
  | layer :: rest =>
      match previous_layer layer with
      | Some _ =>
          mw ← zeros_like_mat (weights layer);
          mb ← zeros_like_vec (biases layer);
          ms ← init_moments rest;
          ret ((mw, mb) :: ms)
      | None => init_moments rest
      end
  end.

(** [gradient_sum[i][0] += gradient[i][0]] and the same for [[1]], for
    every [i] in [range(len(gradient))] *)
Definition accumulate (gradient_sum g : gradient) : M unit :=
  for_each (seq 0 (length g)) (fun i =>
    match gradient_sum !! i, g !! i with
    | Some (sw, sb), Some (gw, gb) =>
        swr ← some_ref sw "+="; gwr ← some_ref gw "+=";
        G ← read_mat gwr;
        inplace_mat swr (fun S => minplace fadd S G);;
        sbr ← some_ref sb "+="; gbr ← some_ref gb "+=";
        G ← read_vec gbr;
        inplace_vec sbr (fun S => vinplace fadd S G)
    | _, _ => raise (IndexError "list index out of range")
    end).

(** [gradient_sum[i][0] /= len(batch)] and the same for [[1]] *)
Definition average (gradient_sum : gradient) (n : nat) : M unit :=
  for_each gradient_sum (fun '(sw, sb) =>
    swr ← some_ref sw "/=";
    inplace_mat swr (fun S => Ok (mmap (fun x => fdiv x (f_of_nat n)) S));;
    sbr ← some_ref sb "/=";
    inplace_vec sbr (fun S => Ok (map (fun x => fdiv x (f_of_nat n)) S))).

(** The pieces of one Adam step, on 2-D and on 1-D arrays *)
Definition moment1_mat (m g : matrix) : result matrix :=
  mbroadcast2 fadd (mmap (fmul beta1) m) (mmap (fmul (fsub fone beta1)) g).
Definition moment2_mat (v g : matrix) : result matrix :=
  mbroadcast2 fadd (mmap (fmul beta2) v)
              (mmap (fmul (fsub fone beta2)) (mmap (fun x => fpow x 2) g)).
Definition corrected_mat (b : F) (t : nat) (m : matrix) : matrix :=
  mmap (fun x => fdiv x (fsub fone (fpow b t))) m.
Definition adam_update_mat (learning_rate : F) (m_hat v_hat : matrix) : result matrix :=
  mbroadcast2 fdiv (mmap (fmul learning_rate) m_hat)
              (mmap (fun x => fadd (fsqrt x) epsilon) v_hat).

Definition moment1_vec (m g : vec) : result vec :=
  vbroadcast2 fadd (map (fmul beta1) m) (map (fmul (fsub fone beta1)) g).
Definition moment2_vec (v g : vec) : result vec :=
  vbroadcast2 fadd (map (fmul beta2) v)
              (map (fmul (fsub fone beta2)) (map (fun x => fpow x 2) g)).
Definition corrected_vec (b : F) (t : nat) (m : vec) : vec :=
  map (fun x => fdiv x (fsub fone (fpow b t))) m.
Definition adam_update_vec (learning_rate : F) (m_hat v_hat : vec) : result vec :=
  vbroadcast2 fdiv (map (fmul learning_rate) m_hat)
              (map (fun x => fadd (fsqrt x) epsilon) v_hat).

(** The Adam step over [range(len(gradient_sum))], from position [i] on;
    returns the new moments. *)
Fixpoint adam_loop (gs : gradient) (i : nat) (gradient_sum : gradient) (learning_rate : F)
    (t : nat) (m_t v_t : moments) : M (moments * moments) :=
  match gs with
  | [] => ret (m_t, v_t)
  | _ :: gs' =>
      match gradient_sum !! i, m_t !! i, v_t !! i with
      | Some (g_w, g_b), Some (m_w, m_b), Some (v_w, v_b) =>
          m_w ← some_ref m_w "*"; gwr ← some_ref g_w "*";
          Gw ← read_mat gwr;
          m_w ← lift (moment1_mat m_w Gw);
          m_b ← some_ref m_b "*"; gbr ← some_ref g_b "*";
          Gb ← read_vec gbr;
          m_b ← lift (moment1_vec m_b Gb);
          v_w ← some_ref v_w "*";
          v_w ← lift (moment2_mat v_w Gw);
          v_b ← some_ref v_b "*";
          v_b ← lift (moment2_vec v_b Gb);
          weight_update ← lift (adam_update_mat learning_rate
                                  (corrected_mat beta1 t m_w) (corrected_mat beta2 t v_w));
          bias_update ← lift (adam_update_vec learning_rate
                                (corrected_vec beta1 t m_b) (corrected_vec beta2 t v_b));
          layer ← get_layer (i + 1);
          wr ← some_ref (weights layer) "-=";
          inplace_mat wr (fun W => minplace fsub W weight_update);;
          br ← some_ref (biases layer) "-=";
          inplace_vec br (fun b => vinplace fsub b bias_update);;
          adam_loop gs' (S i) gradient_sum learning_rate t
                    (<[i := (Some m_w, Some m_b)]> m_t) (<[i := (Some v_w, Some v_b)]> v_t)
      | _, _, _ => raise (IndexError "list index out of range")
      end
  end.

Definition example := (vec * vec)%type.

(** The loop over the examples of one batch. *)
Fixpoint batch_loop (batch : list example) (gradient_sum : option gradient)
    (cost_sum : F) (count : nat) : M (option gradient * F * nat) :=
  match batch with
  | [] => ret (gradient_sum, cost_sum, count)
  | (inputs, targets) :: rest =>
      predict inputs;;
      c ← current_cost targets;
      let cost_sum := fadd cost_sum c in
      g ← backprop targets;
      gradient_sum ←
        match gradient_sum with
        | Some (e :: gs) => accumulate (e :: gs) g;; ret (Some (e :: gs))
        | _ => ret (Some g)
        end;
      batch_loop rest gradient_sum cost_sum (S count)
  end.

(** The loop over the mini-batches of one epoch. *)
Fixpoint batches_loop (starts : list nat) (training_data : list example) (batch_size : nat)
    (learning_rate : F) (t : nat) (m_t v_t : moments) (cost_sum : F) (count : nat)
    : M (nat * moments * moments * F * nat) :=
  match starts with
  | [] => ret (t, m_t, v_t, cost_sum, count)
  | batch_start :: rest =>
      let batch := take batch_size (drop batch_start training_data) in
      '(gradient_sum, cost_sum, count) ← batch_loop batch None cost_sum count;
      match gradient_sum with
      | None => batches_loop rest training_data batch_size learning_rate t m_t v_t cost_sum count
      | Some gradient_sum =>
          average gradient_sum (length batch);;
          let t := S t in
          '(m_t, v_t) ← adam_loop gradient_sum 0 gradient_sum learning_rate t m_t v_t;
          batches_loop rest training_data batch_size learning_rate t m_t v_t cost_sum count
      end
  end.

(** [round(total / count * 1e6) / 1e6]; [total] is still the Python integer
    [0] when [count] is. *)
Definition rounded_mean (total : F) (count : nat) : M F :=
  if count =? 0 then raise (ZeroDivisionError "division by zero")
  else
    r ← lift (fround (fmul (fdiv total (f_of_nat count)) (flit 1 6)));
    ret (fdiv (flit r 0) (flit 1 6)).

Fixpoint validation_loop (validation_data : list example) (val_cost_sum : F) (val_count : nat)
    : M (F * nat) :=
  match validation_data with
  | [] => ret (val_cost_sum, val_count)
  | (inputs, targets) :: rest =>
      predict inputs;;
      c ← current_cost targets;
      validation_loop rest (fadd val_cost_sum c) (S val_count)
  end.

Fixpoint epochs_loop (epochs : nat) (training_data validation_data : list example)
    (batch_size : nat) (learning_rate validation_split : F) (t : nat) (m_t v_t : moments)
    : M unit :=
  match epochs with
  | O => ret tt
  | S epochs' =>
      training_data ← random_shuffle training_data;
      if batch_size =? 0 then raise (ValueError "range() arg 3 must not be zero")
      else
        '(t, m_t, v_t, cost_sum, count) ←
          batches_loop (range_step (length training_data) batch_size) training_data
                       batch_size learning_rate t m_t v_t fzero 0;
        cost_avg ← rounded_mean cost_sum count;
        modify (fun s => with_self (with_cost cost_avg (self s)) s);;
        (if negb (feqb validation_split fzero) then
           '(val_cost_sum, val_count) ← validation_loop validation_data fzero 0;
           rounded_mean val_cost_sum val_count;;
           ret tt
         else ret tt);;
        epochs_loop epochs' training_data validation_data batch_size learning_rate
                    validation_split t m_t v_t
  end.

(** [train]; the log line printed per epoch is not modelled. *)
Definition train (dataset : iterable example) (epochs : Z) (batch_size : Z)
    (learning_rate : F) (validation_split : F) : M unit :=
  if negb (truthy dataset) then raise (ValueError "Training dataset is empty.")
  else if negb (fleb fzero validation_split && fltb validation_split fone) then
    raise (ValueError "Validation split must be between 0 and 1.")
  else
    ls ← gets (fun s => layers (self s));
    m_t ← init_moments ls;
    v_t ← init_moments ls;
    let dataset := to_list dataset in
    dataset ← random_shuffle dataset;
    split_index ←
      (if feqb validation_split fzero then ret (Z.of_nat (length dataset))
       else lift (ftrunc (fmul (fsub fone validation_split) (f_of_nat (length dataset)))));
    let training_data := slice_to dataset split_index in
    let validation_data := slice_from dataset split_index in
    let batch_size :=
      if (batch_size <=? 0)%Z then length training_data else Z.to_nat batch_size in
    epochs_loop (Z.to_nat epochs) training_data validation_data batch_size learning_rate
                validation_split 0 m_t v_t.

(** *** Persistence *)

Definition newline_char : ascii := Ascii.ascii_of_nat 10.
Definition comma_char : ascii := Ascii.ascii_of_nat 44.
Definition newline : string := String newline_char EmptyString.
Definition comma : string := String comma_char EmptyString.

(** [sep.join(parts)] *)
Fixpoint join (sep : string) (parts : list string) : string :=
  match parts with
  | [] => EmptyString
  | [p] => p
  | p :: rest => p ++ sep ++ join sep rest
  end.

Definition cons_head (c : ascii) (ws : list string) : list string :=
  match ws with
  | [] => [String c EmptyString]
  | w :: ws' => String c w :: ws'
  end.

(** [s.split(sep)] for a separator of one character *)
Fixpoint split_char (sep : ascii) (s : string) : list string :=
  match s with
  | EmptyString => [EmptyString]
  | String c s' =>
      if Ascii.eqb c sep then EmptyString :: split_char sep s'
      else cons_head c (split_char sep s')
  end.

(** [s.split("\n\n")]: the leftmost blank line first *)
Fixpoint split_blank (s : string) : list string :=
  match s with
  | EmptyString => [EmptyString]
  | String c s' =>
      match s' with
      | String d s'' =>
          if Ascii.eqb c newline_char && Ascii.eqb d newline_char
          then EmptyString :: split_blank s''
          else cons_head c (split_blank s')
      | EmptyString => [String c EmptyString]
      end
  end.

(** [str(n)] of a non-negative integer, and [int(s)] on plain decimal
    numerals with an optional minus sign (the blanks, underscores, plus
    sign and non-ASCII digits that [int] also accepts are treated as
    invalid). *)
Definition str_of_nat (n : nat) : string := NilZero.string_of_uint (N.to_uint (N.of_nat n)).

Definition parse_int (s : string) : result Z :=
  match NilZero.int_of_string s with
  | Some d => Ok (Z.of_int d)
  | None => Raise (ValueError "invalid literal for int() with base 10")
  end.

Definition parse_float (s : string) : result F :=
  match float_of_str s with
  | Some x => Ok x
  | None => Raise (ValueError "could not convert string to float")
  end.

Fixpoint map_result {A B} (f : A -> result B) (xs : list A) : result (list B) :=
  match xs with
  | [] => Ok []
  | x :: xs' => rbind (f x) (fun y => rbind (map_result f xs') (fun ys => Ok (y :: ys)))
  end.

(** [open(filepath, "w")], which raises or leaves the file empty, and
    [f.write(text)] *)
Definition file_open_w (filepath : string) : M unit :=
  match open_w_error filepath with
  | Some e => raise e
  | None => modify (fun s => with_files (<[filepath := EmptyString]> (files s)) s)
  end.
Definition file_write (filepath text : string) : M unit :=
  modify (fun s =>
    with_files (<[filepath := (default EmptyString (files s !! filepath) ++ text)%string]> (files s)) s).

Definition not_iterable {A} : M A := raise (TypeError "'NoneType' object is not iterable").

Definition save (filepath : string) : M unit :=
  ls ← gets (fun s => layers (self s));
  let layer_neuron_counts := map (fun layer => str_of_nat (neuron_count layer)) ls in
  file_open_w filepath;;
  file_write filepath (join comma layer_neuron_counts);;
  file_write filepath newline;;
  file_write filepath (join comma (drop 1 (map (fun layer => class_name (activation_func layer)) ls)));;
  file_write filepath newline;;
  lf ← gets (fun s => loss_func (self s));
  file_write filepath (class_name lf);;
  for_each (drop 1 ls) (fun layer =>
    file_write filepath (newline ++ newline);;
    b ← match biases layer with Some r => read_vec r | None => not_iterable end;
    file_write filepath (join comma (map str_of_float b));;
    W ← match weights layer with Some r => read_mat r | None => not_iterable end;
    for_each (mrows W) (fun ws =>
      file_write filepath newline;;
      file_write filepath (join comma (map str_of_float ws)))).

(** [W[k] = values] *)
Definition assign_row (W : matrix) (k : nat) (values : vec) : result matrix :=
  if nrows W <=? k then Raise (IndexError "index is out of bounds for axis 0")
  else if length values =? mcols W then Ok (mkMatrix (<[k := values]> (mrows W)) (mcols W))
  else match values with
       | [x] => Ok (mkMatrix (<[k := replicate (mcols W) x]> (mrows W)) (mcols W))
       | _ => Raise (ValueError "could not broadcast input array")
       end.

(** The lines of one block after the first: biases, then weight rows. *)
Fixpoint load_lines (lines : list string) (i : nat) (layer_idx : nat)
    (network : NeuralNetwork) : M NeuralNetwork :=
  match lines with
  | [] => ret network
  | line :: rest =>
      values ← lift (map_result parse_float (split_char comma_char line));
      match layers network !! layer_idx with
      | None => raise (IndexError "list index out of range")
      | Some layer =>
          network ←
            (if i =? 0 then
               r ← alloc_vec values;
               ret (with_layers (<[layer_idx := set_biases (Some r) layer]> (layers network))
                                network)
             else
               wr ← match weights layer with
                    | Some r => ret r
                    | None => raise (TypeError "'NoneType' object does not support item assignment")
                    end;
               inplace_mat wr (fun W => assign_row W (i - 1) values);;
               ret network);
          load_lines rest (S i) layer_idx network
      end
  end.

Fixpoint load_blocks (blocks : list string) (first : bool) (layer_idx : nat)
    (network : option NeuralNetwork) : M (option NeuralNetwork) :=
  match blocks with
  | [] => ret network
  | layer :: rest =>
      let lines := split_char newline_char layer in
      if first then
        match lines with
        | [layer_neuron_counts; act_fns; loss_fn] =>
            layer_neuron_counts ← lift (map_result parse_int (split_char comma_char layer_neuron_counts));
            act_fns ← lift (map_result get_class_by_name (split_char comma_char act_fns));
            loss_fn ← lift (get_class_by_name loss_fn);
            network ← NeuralNetwork_init layer_neuron_counts (ActivationList act_fns) loss_fn;
            load_blocks rest false layer_idx (Some network)
        | _ => raise (ValueError "wrong number of values to unpack")
        end
      else
        match network with
        | None => none_attr "layers"
        | Some network =>
            network ← load_lines lines 0 layer_idx network;
            load_blocks rest false (S layer_idx) (Some network)
        end
  end.

(** [NeuralNetwork.load]: [None] when the file does not exist. *)
Definition load (filepath : string) : M (option NeuralNetwork) :=
  fs ← gets files;
  match fs !! filepath with
  | None => ret None
  | Some text => load_blocks (split_blank text) true 1 None
  end.

End Engine.

Arguments NeuralNetwork F : clear implicits.
Arguments state F {RF}.
Arguments M F {RF} A.

(** ** Invariants and specification-level functions *)

Local Open Scope list_scope.

(** *** Text

    Predicates on the text of a save file. *)

(** The character [c] does not occur in [s]. *)
Fixpoint free_of (c : ascii) (s : string) : bool :=
  match s with
  | EmptyString => true
  | String d s' => negb (Ascii.eqb d c) && free_of c s'
  end.

(** From a position that follows a newline ([after_newline]) or not: no
    newline follows a newline, and the text does not end on one. *)
Fixpoint tight_from (after_newline : bool) (s : string) : bool :=
  match s with
  | EmptyString => negb after_newline
  | String c s' =>
      if Ascii.eqb c newline_char then negb after_newline && tight_from true s'
      else tight_from false s'
  end.

(** A non-empty text with no blank line, no newline first or last. *)
Definition tight (s : string) : bool := tight_from true s.

(** A non-empty line: a field of a line when it holds no comma either. *)
Definition is_line (s : string) : bool :=
  negb (String.eqb s EmptyString) && free_of newline_char s.
Definition is_field (s : string) : bool := is_line s && free_of comma_char s.

Section Invariants.
Context {F : Type} {SF : Scalar F} {RF : Random F}.
Local Abbreviation vec := (list F) (only parsing).
Local Abbreviation matrix := (matrix F) (only parsing).

(** The array at [r] exists and has the given extent. *)
Definition has_vec (s : state F) (r n : nat) : bool :=
  match vecs s !! r with
  | Some v => length v =? n
  | None => false
  end.

Definition has_shape (W : matrix) (rows cols : nat) : bool :=
  (nrows W =? rows) && (mcols W =? cols) && rectangular W.

Definition has_mat (s : state F) (r rows cols : nat) : bool :=
  match mats s !! r with
  | Some W => has_shape W rows cols
  | None => false
  end.

Definition counts (ls : list Layer) : list nat := map neuron_count ls.

Fixpoint all_layers (P : nat -> Layer -> bool) (i : nat) (ls : list Layer) : bool :=
  match ls with
  | [] => true
  | l :: ls' => P i l && all_layers P (S i) ls'
  end.

(** The data-model invariant on parameters: the first layer owns neither
    weights nor biases; the layer at position [p+1] owns weights of shape
    (own count, count of layer [p]) and as many biases as it has neurons. *)
Definition owns_params (s : state F) (cs : list nat) (i : nat) (l : Layer) : bool :=
  match i with
  | O => match weights l, biases l with
         | None, None => true
         | _, _ => false
         end
  | S p => match cs !! p, weights l, biases l with
           | Some np, Some w, Some b =>
               has_mat s w (neuron_count l) np && has_vec s b (neuron_count l)
           | _, _, _ => false
           end
  end.

Definition params_ok (s : state F) : bool :=
  all_layers (owns_params s (counts (layers (self s)))) 0 (layers (self s)).

(** What the constructor establishes besides: the chain of predecessors,
    the activation objects (the default one on the input layer), and [z]
    and [activations] buffers of the layer's size. *)
Definition linked (i : nat) (l : Layer) : bool :=
  match i, previous_layer l, activation_func l with
  | O, None, ObjActivation Sigmoid => true
  | S p, Some q, ObjActivation _ => p =? q
  | _, _, _ => false
  end.

Definition buffers_ok (s : state F) (l : Layer) : bool :=
  has_vec s (z l) (neuron_count l) && has_vec s (activations l) (neuron_count l).

Definition layer_ok (s : state F) (cs : list nat) (i : nat) (l : Layer) : bool :=
  owns_params s cs i l && linked i l && buffers_ok s l.

Definition wf (s : state F) : bool :=
  (2 <=? length (layers (self s)))
  && all_layers (layer_ok s (counts (layers (self s)))) 0 (layers (self s)).

Definition input_count (s : state F) : nat :=
  default 0 (neuron_count <$> head (layers (self s))).
Definition output_count (s : state F) : nat :=
  default 0 (neuron_count <$> last (layers (self s))).

(** The parameters of the layers after the first, as values. *)
Definition layer_parameters (s : state F) (l : Layer) : matrix * vec * pyobj :=
  (default (mkMatrix [] 0) (w ← weights l; mats s !! w),
   default [] (b ← biases l; vecs s !! b),
   activation_func l).

Definition parameters (s : state F) : list (matrix * vec * pyobj) :=
  map (layer_parameters s) (drop 1 (layers (self s))).

(** The forward pass as a function of the parameters:
    [z = W.a_prev + b], then [a = activation(z)], layer after layer. *)
Fixpoint feed_forward (ps : list (matrix * vec * pyobj)) (a : vec) : result vec :=
  match ps with
  | [] => Ok a
  | (W, b, f) :: ps' =>
      match f with
      | ObjActivation f =>
          rbind (mat_vec W a) (fun Wa =>
          rbind (vbroadcast2 fadd Wa b) (fun z =>
          feed_forward ps' (act_call f z)))
      | _ => Raise (TypeError "object is not callable")
      end
  end.

(** Element [(i, j)] of a 2-D array. *)
Definition melem (W : matrix) (i j : nat) : F :=
  nth j (nth i (mrows W) []) fzero.

(** All the references in [rs] are distinct. *)
Definition distinct (rs : list nat) : bool := bool_decide (NoDup rs).

Definition weight_refs (ls : list Layer) : list nat := omap weights ls.
Definition bias_refs (ls : list Layer) : list nat := omap biases ls.

(** A gradient list that matches the network: one pair of arrays per layer
    after the first, of the shapes of that layer's weights and biases. *)
Fixpoint gradient_matches (s : state F) (cs : list nat) (i : nat) (ls : list Layer)
    (g : gradient) : bool :=
  match ls, g with
  | [], [] => true
  | l :: ls', (Some wg, Some bg) :: g' =>
      match cs !! i with
      | Some np =>
          has_mat s wg (neuron_count l) np && has_vec s bg (neuron_count l)
          && gradient_matches s cs (S i) ls' g'
      | None => false
      end
  | _, _ => false
  end.

(** The attributes of a layer that no method assigns after construction. *)
Definition static (l : Layer) : nat * option nat * pyobj * option nat * option nat :=
  (neuron_count l, previous_layer l, activation_func l, weights l, biases l).

(** [s'] is [s] with more arrays allocated and other buffers attached to the
    layers: what was in the store is untouched. *)
Record extends (s s' : state F) : Prop := mkExtends {
  ext_vecs : exists more, vecs s' = vecs s ++ more;
  ext_mats : exists more, mats s' = mats s ++ more;
  ext_static : map static (layers (self s')) = map static (layers (self s));
  ext_loss : loss_func (self s') = loss_func (self s);
  ext_cost : cost (self s') = cost (self s);
  ext_np : np_random s' = np_random s;
  ext_py : py_random s' = py_random s;
  ext_files : files s' = files s
}.

(** The contents of an optional reference. *)
Definition vec_at (s : state F) (r : option nat) : option vec := r ≫= fun r => vecs s !! r.
Definition mat_at (s : state F) (r : option nat) : option matrix := r ≫= fun r => mats s !! r.

(** What [backward] leaves behind on a layer [l] with predecessor [lp]:
    [z_grad = activation'(z) * a_grad] elementwise,
    [w_grad = outer(z_grad, a_prev)], and [W^T . z_grad] as the [a_grad] of
    the predecessor. *)
Definition backward_equations (s : state F) (l lp : Layer) : Prop :=
  exists a W zv agv apv,
    activation_func l = ObjActivation a /\
    mat_at s (weights l) = Some W /\
    vecs s !! z l = Some zv /\
    vec_at s (a_grad l) = Some agv /\
    vecs s !! activations lp = Some apv /\
    (let zgv := zip_with fmul (act_derivative a zv) agv in
     vec_at s (z_grad l) = Some zgv /\
     mat_at s (w_grad l) = Some (np_outer zgv apv) /\
     (exists pav, mat_vec (transpose W) zgv = Ok pav /\ vec_at s (a_grad lp) = Some pav)).



(** The class names that [load] resolves to an activation function. *)
Definition known_activation (name : string) : bool :=
  existsb (String.eqb name) ["Sigmoid"; "ReLU"; "LeakyReLU"]%string.

Definition is_activation (o : pyobj) : bool :=
  match o with ObjActivation _ => true | _ => false end.

(** [s'] keeps every array of [s], with its shape, and the static
    attributes of the layers: what in-place updates and allocations
    preserve. *)
Record shape_le (s s' : state F) : Prop := mkShapeLe {
  sl_vecs : forall r v, vecs s !! r = Some v ->
            exists v', vecs s' !! r = Some v' /\ length v' = length v;
  sl_mats : forall r W, mats s !! r = Some W ->
            exists W', mats s' !! r = Some W' /\ nrows W' = nrows W /\ mcols W' = mcols W /\
                       (rectangular W = true -> rectangular W' = true);
  sl_static : map static (layers (self s')) = map static (layers (self s))
}.

(** A computation that keeps the shapes, whatever its outcome. *)
Definition steady {A} (m : M F A) : Prop := forall s, shape_le s (snd (m s)).

(** Entry [k] of a gradient list belongs to the layer at position [k+1]:
    the parameter arrays of that layer and the two gradient arrays. *)
Definition entry (ls : list Layer) (g : gradient) (k : nat) (l : Layer) (w wg b bg : nat) : Prop :=
  ls !! S k = Some l /\ weights l = Some w /\ biases l = Some b /\
  g !! k = Some (Some wg, Some bg).

(** What [update_weights] does with one entry: the gradient arrays are
    clipped in place to [-1, 1], and the parameters are decremented by the
    clipped gradient times the learning rate, element by element. *)
Definition updated (s s' : state F) (learning_rate : F) (w wg b bg : nat) : Prop :=
  forall W G bv Bv,
    mats s !! w = Some W -> mats s !! wg = Some G ->
    vecs s !! b = Some bv -> vecs s !! bg = Some Bv ->
    mats s' !! wg = Some (mmap clip1 G) /\
    vecs s' !! bg = Some (map clip1 Bv) /\
    (exists W', mats s' !! w = Some W' /\ nrows W' = nrows W /\ mcols W' = mcols W /\
                forall i j, i < nrows W -> j < mcols W ->
                  melem W' i j = fsub (melem W i j) (fmul (clip1 (melem G i j)) learning_rate)) /\
    vecs s' !! b = Some (zip_with fsub bv (map (fun x => fmul (clip1 x) learning_rate) Bv)).

(** The arrays of an entry are there and the gradient arrays have the
    shapes of the parameters. *)
Definition ready (s : state F) (w wg b bg : nat) : Prop :=
  exists (W G : matrix) (bv Bv : list F),
    mats s !! w = Some W /\ mats s !! wg = Some G /\
    vecs s !! b = Some bv /\ vecs s !! bg = Some Bv /\
    nrows G = nrows W /\ mcols G = mcols W /\
    rectangular G = true /\ rectangular W = true /\ length Bv = length bv.

(** No array is shared between two entries, or between the parameters and
    the gradient. *)
Definition separate (ls : list Layer) (g : gradient) : Prop :=
  forall k k' l l' w wg b bg w' wg' b' bg',
    entry ls g k l w wg b bg -> entry ls g k' l' w' wg' b' bg' ->
    w <> wg' /\ b <> bg' /\
    (k <> k' -> w <> w' /\ wg <> wg' /\ b <> b' /\ bg <> bg').

Definition gradient_wrefs (g : gradient) : list nat := omap fst g.
Definition gradient_brefs (g : gradient) : list nat := omap snd g.

End Invariants.

(** ** The save file *)

Section Format.
Context {F : Type} {SF : Scalar F} {RF : Random F} {TF : FloatText F}.

(** A number that survives being written and read: its text is a
    non-empty field and [float] of it gives the number back. *)
Definition faithful (x : F) : Prop :=
  float_of_str (str_of_float x) = Some x /\ is_field (str_of_float x) = true.

(** The numbers a save file holds: the biases and weights of the layers
    after the first. *)
Definition stored (s : state F) : list F :=
  concat (map (fun p => snd (fst p) ++ concat (mrows (fst (fst p)))) (parameters s)).

Definition line_of (v : list F) : string := join comma (map str_of_float v).

(** The block of one layer: the line of its biases, then one line per row
    of its weights. *)
Definition block_of (p : matrix F * list F * pyobj) : string :=
  join newline (line_of (snd (fst p)) :: map line_of (mrows (fst (fst p)))).

Definition header_of (n : NeuralNetwork F) : string :=
  join newline
    [join comma (map (fun l => str_of_nat (neuron_count l)) (layers n));
     join comma (drop 1 (map (fun l => class_name (activation_func l)) (layers n)));
     class_name (loss_func n)].

(** The text that [save] writes: the header and the blocks, a blank line
    between them. *)
Definition text_of (s : state F) : string :=
  join (newline ++ newline) (header_of (self s) :: map block_of (parameters s)).

(** The parameters [p] suit the layer at position [q+1] of a network with
    neuron counts [cs] and activation objects [acts]: shapes, activation,
    and numbers that survive the file. *)
Definition fits (cs : list nat) (acts : list pyobj) (q : nat)
    (p : matrix F * list F * pyobj) : Prop :=
  exists n np,
    cs !! S q = Some n /\ cs !! q = Some np /\ 0 < n /\ 0 < np /\
    has_shape (fst (fst p)) n np = true /\ length (snd (fst p)) = n /\
    acts !! S q = Some (snd p) /\
    Forall faithful (snd (fst p)) /\ Forall (Forall faithful) (mrows (fst (fst p))).

(** The world where the file at [filepath] holds [text]. *)
Definition wfile (filepath text : string) (s : state F) : state F :=
  with_files (<[filepath := text]> (files s)) s.

End Format.

(** ** [class Neuron]

    A neuron is a view on its layer: it holds the layer and an index, and
    its properties read and write the row, the bias and the activation at
    that index in the layer's arrays. *)

Section Neurons.
Context {F : Type} {SF : Scalar F} {RF : Random F}.

(** The layer is given by its position in the network's list. *)
Record Neuron := mkNeuron { neuron_layer : nat; neuron_index : nat }.

(** [Layer.neurons], which [Layer.__iter__] iterates: one neuron per index,
    for the layer at position [i]. *)
Definition Layer_neurons (i : nat) (l : Layer) : list Neuron :=
  map (mkNeuron i) (seq 0 (neuron_count l)).

(** What a setter can raise: a built-in exception, or
    [Exception(msg)] itself. *)
Inductive raised :=
| Builtin (e : exn)
| PlainException (msg : string).

Inductive outcome (A : Type) :=
| Returns (a : A)
| Raises (r : raised).
Arguments Returns {A} a.
Arguments Raises {A} r.

Definition run_builtin {A} (m : M F A) (s : state F) : outcome A * state F :=
  match m s with
  | (Ok a, s') => (Returns a, s')
  | (Raise e, s') => (Raises (Builtin e), s')
  end.

Definition out_of_bounds : exn := IndexError "index is out of bounds for axis 0".
Definition not_subscriptable {A} : M F A :=
  raise (TypeError "'NoneType' object is not subscriptable").

(** [a[k]] on a one-dimensional array, and [a[k] = x] *)
Definition subscript (a : list F) (k : nat) : result F :=
  match a !! k with
  | Some x => Ok x
  | None => Raise out_of_bounds
  end.
Definition assign_item (a : list F) (k : nat) (x : F) : result (list F) :=
  if k <? length a then Ok (<[k := x]> a) else Raise out_of_bounds.

(** [W[k]] on a two-dimensional array *)
Definition subscript_row (W : matrix F) (k : nat) : result (list F) :=
  match mrows W !! k with
  | Some row => Ok row
  | None => Raise out_of_bounds
  end.

(** The getter of [weights] *)
Definition Neuron_weights (n : Neuron) : M F (option (list F)) :=
  layer ← get_layer (neuron_layer n);
  match previous_layer layer with
  | Some _ =>
      W ← match weights layer with Some w => read_mat w | None => not_subscriptable end;
      row ← lift (subscript_row W (neuron_index n));
      ret (Some row)
  | None => ret None
  end.

(** The setter of [weights] *)
Definition Neuron_set_weights (n : Neuron) (value : list F) (s : state F)
    : outcome unit * state F :=
  match get_layer (neuron_layer n) s with
  | (Raise e, s') => (Raises (Builtin e), s')
  | (Ok layer, s') =>
      match previous_layer layer with
      | None =>
          (Raises (PlainException
                     "Cannot change weights of the input layer, it does not have any."), s')
      | Some _ =>
          run_builtin
            (W ← match weights layer with Some w => read_mat w | None => not_subscriptable end;
             row ← lift (subscript_row W (neuron_index n));
             if negb (length row =? length value) then
               raise (ValueError "Cannot set weights, array lengths do not match.")
             else
               match weights layer with
               | Some w => inplace_mat w (fun W => assign_row W (neuron_index n) value)
               | None => not_subscriptable
               end) s'
      end
  end.

(** The getter and the setter of [bias] *)
Definition Neuron_bias (n : Neuron) : M F (option F) :=
  layer ← get_layer (neuron_layer n);
  match previous_layer layer with
  | Some _ =>
      b ← match biases layer with Some b => read_vec b | None => not_subscriptable end;
      x ← lift (subscript b (neuron_index n));
      ret (Some x)
  | None => ret None
  end.

Definition Neuron_set_bias (n : Neuron) (value : F) (s : state F) : outcome unit * state F :=
  match get_layer (neuron_layer n) s with
  | (Raise e, s') => (Raises (Builtin e), s')
  | (Ok layer, s') =>
      match previous_layer layer with
      | None =>
          (Raises (PlainException
                     "Cannot change the bias of a Neuron in the input Layer, it does not have any."),
           s')
      | Some _ =>
          run_builtin
            (match biases layer with
             | Some b => inplace_vec b (fun a => assign_item a (neuron_index n) value)
             | None => raise (TypeError "'NoneType' object does not support item assignment")
             end) s'
      end
  end.

(** The getter and the setter of [activation] *)
Definition Neuron_activation (n : Neuron) : M F F :=
  layer ← get_layer (neuron_layer n);
  a ← read_vec (activations layer);
  lift (subscript a (neuron_index n)).

Definition Neuron_set_activation (n : Neuron) (value : F) (s : state F)
    : outcome unit * state F :=
  match get_layer (neuron_layer n) s with
  | (Raise e, s') => (Raises (Builtin e), s')
  | (Ok layer, s') =>
      match previous_layer layer with
      | None =>
          (Raises (PlainException
                     "Cannot change the activation of a Neuron in the input Layer."), s')
      | Some _ =>
          run_builtin
            (inplace_vec (activations layer) (fun a => assign_item a (neuron_index n) value)) s'
      end
  end.

End Neurons.

Arguments Returns {A} a.
Arguments Raises {A} r.

(** ** [lunch-ai.py]: the functions that use the network

    The module reads its data set when it is imported and keeps, as
    globals, the sorted tuple [_letters] of the characters of the lunch
    names, the length [longest_lunch_len] of the longest name and the
    network [model]; the first two are parameters here, and [model] is the
    network of the state.  Characters are the elements of a Python [str]. *)

Section LunchAI.
Context {F : Type} {SF : Scalar F} {RF : Random F}.
Context {char : Type} {char_eq : EqDecision char}.
Variable _letters : list char.
Variable longest_lunch_len : Z.

Definition letters_count : nat := length _letters.

(** The dictionary [letters], as the loop [letters[_letters[i]] = i] over
    [range(letters_count)] builds it. *)
Definition dict_set (d : char -> option nat) (c : char) (i : nat) : char -> option nat :=
  fun c' => if decide (c' = c) then Some i else d c'.

Definition letters : char -> option nat :=
  fold_left (fun d i => match _letters !! i with
                        | Some c => dict_set d c i
                        | None => d
                        end)
            (seq 0 letters_count) (fun _ => None).

(** What these functions can raise: [KeyError] from the dictionary, or an
    exception of numpy or of the network. *)
Inductive lunch_exn :=
| KeyError (key : char)
| Library (e : exn).

Inductive lunch_result (A : Type) :=
| Fine (a : A)
| Failed (e : lunch_exn).
Arguments Fine {A} a.
Arguments Failed {A} e.

(** The loop of [one_hot_encode], from character number [i] on. *)
Fixpoint one_hot_loop (lunch_name : list char) (i : nat) (inputs : list F)
    : lunch_result (list F) :=
  match lunch_name with
  | [] => Fine inputs
  | c :: rest =>
      match letters c with
      | None => Failed (KeyError c)
      | Some j =>
          let k := i * letters_count + j in
          if k <? length inputs then one_hot_loop rest (S i) (<[k := fone]> inputs)
          else Failed (Library (IndexError "index is out of bounds for axis 0"))
      end
  end.

Definition one_hot_encode (lunch_name : list char) : lunch_result (list F) :=
  let size := (longest_lunch_len * Z.of_nat letters_count)%Z in
  if (size <? 0)%Z then Failed (Library (ValueError "negative dimensions are not allowed"))
  else one_hot_loop lunch_name 0 (replicate (Z.to_nat size) fzero).

(** [max(0, min(100, n))] *)
Definition clamp_percent (n : Z) : Z := Z.max 0 (Z.min 100 n).

(** [lunch_taste]: the first output of the network on the encoded name,
    rounded and clamped. *)
Definition lunch_taste (lunch_name : list char) (s : state F) : lunch_result Z * state F :=
  match one_hot_encode lunch_name with
  | Failed e => (Failed e, s)
  | Fine inputs =>
      match predict inputs s with
      | (Raise e, s') => (Failed (Library e), s')
      | (Ok r, s') =>
          match default [] (vecs s' !! r) !! 0 with
          | None => (Failed (Library (IndexError "index 0 is out of bounds for axis 0")), s')
          | Some x =>
              match fround x with
              | Raise e => (Failed (Library e), s')
              | Ok n => (Fine (clamp_percent n), s')
              end
          end
      end
  end.

(** [best_lunch], over the lunches of a menu; [main_dish] is the attribute
    of that name. *)
Fixpoint best_lunch_loop {Lunch : Type} (main_dish : Lunch -> list char) (menu : list Lunch)
    (best_taste : Z) (best : option Lunch) (s : state F)
    : lunch_result (option Lunch) * state F :=
  match menu with
  | [] => (Fine best, s)
  | lunch :: rest =>
      match lunch_taste (main_dish lunch) s with
      | (Failed e, s') => (Failed e, s')
      | (Fine taste, s') =>
          if (taste >? best_taste)%Z
          then best_lunch_loop main_dish rest taste (Some lunch) s'
          else best_lunch_loop main_dish rest best_taste best s'
      end
  end.

Definition best_lunch {Lunch : Type} (main_dish : Lunch -> list char) (menu : list Lunch)
    : state F -> lunch_result (option Lunch) * state F :=
  best_lunch_loop main_dish menu (-1) None.

(** Specification-level: the vector of [n] entries that is [1] at [j] and
    [0] elsewhere, and the encoding of a name as one such block per
    character, padded with zeros up to [longest_lunch_len] characters. *)
Definition one_hot (n j : nat) : list F := <[j := fone]> (replicate n fzero).

Definition encoding (lunch_name : list char) : list F :=
  concat (map (fun c => one_hot letters_count (default 0 (letters c))) lunch_name)
  ++ replicate ((Z.to_nat longest_lunch_len - length lunch_name) * letters_count) fzero.

(** Specification-level: the taste that a network with the parameters [ps]
    gives a name, when the forward pass and the rounding succeed. *)
Definition taste_of (ps : list (matrix F * list F * pyobj)) (lunch_name : list char)
    : option Z :=
  match feed_forward ps (encoding lunch_name) with
  | Ok (x :: _) => match fround x with
                   | Ok n => Some (clamp_percent n)
                   | Raise _ => None
                   end
  | _ => None
  end.

End LunchAI.

Arguments Fine {char A} a.
Arguments Failed {char A} e.

(** ** Binary64 scalars, for the concrete evaluations

    Arithmetic, square root and comparisons are the kernel's IEEE 754
    binary64 operations.  Literals, [str] and [float] are exact: a literal
    and [float] give the double nearest to the numeral, [str] the shortest
    numeral that reads back.  [fpow] is the exact power rounded once, and
    [fexp] and [flog] are the exponential and the logarithm rounded once,
    where the platform's library may be one unit in the last place off. *)

Module Float64.

(** The double nearest to [m * 2^e], ties to even; infinite beyond the
    range of the doubles. *)
Definition nearest (m e : Z) : float := SF2Prim (binary_normalize prec emax m e false).

Definition pow2 (e : Z) : Z := (2 ^ Z.max e 0)%Z.
Definition pow10 (e : Z) : Z := (10 ^ Z.max e 0)%Z.

(** The double nearest to [m * 10^e], which is how Python reads a decimal
    numeral.  Beyond [10^310] the result is infinite and below [10^-324] it
    is zero.  For a negative [e] the quotient by the power of ten is taken
    with at least 66 bits, followed by one more bit that tells whether the
    division left a remainder, and that number is rounded. *)
Definition of_decimal (m e : Z) : float :=
  if (m =? 0)%Z then zero
  else if (310 <? e)%Z then (if (m <? 0)%Z then neg_infinity else infinity)
  else if (Z.log2 (Z.abs m) / 3 + 1 + e <? -324)%Z
  then (if (m <? 0)%Z then neg_zero else zero)
  else if (0 <=? e)%Z then nearest (m * 10 ^ e) 0
  else
    let d := (10 ^ (- e))%Z in
    let k := Z.max 0 (Z.log2 d - Z.log2 (Z.abs m) + 66) in
    let n := (Z.abs m * 2 ^ k)%Z in
    let sticky := if (n mod d =? 0)%Z then 0%Z else 1%Z in
    nearest (Z.sgn m * (2 * (n / d) + sticky)) (- k - 1).

(** A Python integer as a float (the integers that the module converts are
    lengths and rounded floats, which are in range). *)
Definition of_Z (z : Z) : float := nearest z 0.

(** The literal [m * 10^e] *)
Definition lit (m e : Z) : float := of_decimal m e.

Definition signed (s : bool) (z : Z) : Z := if s then (- z)%Z else z.

(** [int(x)]: truncation towards zero *)
Definition trunc (x : float) : result Z :=
  match Prim2SF x with
  | S754_zero _ => Ok 0%Z
  | S754_infinity _ => Raise (OverflowError "cannot convert float infinity to integer")
  | S754_nan => Raise (ValueError "cannot convert float NaN to integer")
  | S754_finite s m e =>
      Ok (signed s (if (0 <=? e)%Z then Z.shiftl (Zpos m) e else Z.shiftr (Zpos m) (- e)))
  end.

(** [round(x)]: to the nearest integer, ties to even *)
Definition round (x : float) : result Z :=
  match Prim2SF x with
  | S754_zero _ => Ok 0%Z
  | S754_infinity _ => Raise (OverflowError "cannot convert float infinity to integer")
  | S754_nan => Raise (ValueError "cannot convert float NaN to integer")
  | S754_finite s m e =>
      if (0 <=? e)%Z then Ok (signed s (Z.shiftl (Zpos m) e))
      else
        let q := Z.shiftr (Zpos m) (- e) in
        let r := (Zpos m - Z.shiftl q (- e))%Z in
        let half := Z.shiftl 1 (- e - 1) in
        Ok (signed s (if (half <? r)%Z || ((half =? r)%Z && Z.odd q) then q + 1 else q)%Z)
  end.

(** [x ** n] for a natural [n]: the power of a finite [x], computed
    exactly and rounded once. *)
Definition pow (x : float) (n : nat) : float :=
  match Prim2SF x with
  | S754_finite s m e =>
      nearest ((if s then Zneg m else Zpos m) ^ Z.of_nat n) (e * Z.of_nat n)
  | _ => Nat.iter n (PrimFloat.mul x) 1%float
  end.

(** [x * y + z] rounded once: on finite numbers the sum is computed exactly
    and rounded; an exact zero is positive unless both terms are negative
    zeros. *)
Definition fma (x y z : float) : float :=
  match Prim2SF x, Prim2SF y, Prim2SF z with
  | S754_finite sx mx ex, S754_finite sy my ey, S754_finite sz mz ez =>
      let e := Z.min (ex + ey) ez in
      let p := (signed (xorb sx sy) (Zpos mx * Zpos my) * 2 ^ (ex + ey - e))%Z in
      let q := (signed sz (Zpos mz) * 2 ^ (ez - e))%Z in
      nearest (p + q) e
  | S754_finite sx mx ex, S754_finite sy my ey, S754_zero _ =>
      nearest (signed (xorb sx sy) (Zpos mx * Zpos my)) (ex + ey)
  | S754_finite _ _ _, S754_finite _ _ _, S754_infinity _ => z
  | _, _, _ => PrimFloat.add (PrimFloat.mul x y) z
  end.

(** *** [exp] and [log]

    Python and numpy take them from the mathematical library of the
    platform, which promises a result within about one unit in the last
    place of the true value.  Here the true value is computed to 256
    binary places, with the series of the exponential and of the inverse
    hyperbolic tangent, and rounded once to the nearest double. *)

Definition places : Z := 256.
Definition one_fixed : Z := (2 ^ places)%Z.

(** [power / k + power * t2 / (k + 2) + ...]: with [power = t] and
    [t2 = t * t] that is [atanh(t) = t + t^3/3 + t^5/5 + ...], for
    [|t| <= 1/3]. *)
Fixpoint atanh_series (terms : nat) (k : Z) (power t2 : Z) : Z :=
  match terms with
  | O => 0%Z
  | S n => (power / k + atanh_series n (k + 2) (power * t2 / one_fixed) t2)%Z
  end.

Definition atanh_fixed (t : Z) : Z := atanh_series 90 1 t (t * t / one_fixed)%Z.

(** [ln 2 = 2 * atanh(1/3)] *)
Definition ln2_fixed : Z := Eval vm_compute in (2 * atanh_fixed (one_fixed / 3))%Z.

(** [term + term * r / n + term * r^2 / (n * (n + 1)) + ...]: with
    [term = 1] and [n = 1] that is [exp(r)], for [|r| <= ln(2) / 2]. *)
Fixpoint exp_series (terms : nat) (n : Z) (term r : Z) : Z :=
  match terms with
  | O => 0%Z
  | S k => (term + exp_series k (n + 1) (term * r / one_fixed / n) r)%Z
  end.

(** [exp(x) = 2^k * exp(x - k * ln 2)] for the integer [k] nearest to
    [x / ln 2]. *)
Definition exp (x : float) : float :=
  match Prim2SF x with
  | S754_nan => nan
  | S754_zero _ => 1%float
  | S754_infinity s => if s then zero else infinity
  | S754_finite s m e =>
      if (11 <? Z.log2 (Zpos m) + e)%Z then (if s then zero else infinity)
      else
        let shift := (e + places)%Z in
        let x_fixed :=
          signed s (if (0 <=? shift)%Z then Zpos m * 2 ^ shift else Zpos m / 2 ^ (- shift))%Z in
        let k := ((2 * x_fixed + ln2_fixed) / (2 * ln2_fixed))%Z in
        let r := (x_fixed - k * ln2_fixed)%Z in
        nearest (2 * exp_series 70 1 one_fixed r + 1) (k - places - 1)
  end.

(** [log(f * 2^g) = g * ln 2 + 2 * atanh((f - 1) / (f + 1))] for [f]
    between 1 and 2. *)
Definition log (x : float) : float :=
  match Prim2SF x with
  | S754_nan => nan
  | S754_zero _ => neg_infinity
  | S754_infinity s => if s then nan else infinity
  | S754_finite true _ _ => nan
  | S754_finite false m e =>
      let b := Z.log2 (Zpos m) in
      let t := ((Zpos m - 2 ^ b) * one_fixed / (Zpos m + 2 ^ b))%Z in
      let l := ((b + e) * ln2_fixed + 2 * atanh_fixed t)%Z in
      if (l =? 0)%Z then zero
      else nearest (Z.sgn l * (2 * Z.abs l + 1)) (- places - 1)
  end.

#[global] Instance scalar : Scalar float := {|
  flit := lit;
  fadd := PrimFloat.add;
  fsub := PrimFloat.sub;
  fmul := PrimFloat.mul;
  ffma := fma;
  fdiv := PrimFloat.div;
  fneg := PrimFloat.opp;
  fabs := PrimFloat.abs;
  fsqrt := PrimFloat.sqrt;
  fexp := exp;
  flog := log;
  fpow := pow;
  fltb := PrimFloat.ltb;
  fleb := PrimFloat.leb;
  feqb := PrimFloat.eqb;
  ftrunc := trunc;
  fround := round
|}.

(** A fixed stream standing for the two generators: the [k]-th normal
    sample is one of four dyadic numbers times the scale, the [k]-th
    [randbelow(n)] is [k mod n]. *)
Definition sample (k : nat) : float :=
  nth (k mod 4) [0.5; -0.25; 0.75; -1]%float 0%float.

#[global] Instance random : Random float := {|
  rng := nat;
  normal := fun g s => (PrimFloat.mul s (sample g), S g);
  randbelow := fun g n => (g mod n, S g)
|}.

(** *** [str(x)]

    The text of a finite double is the shortest decimal numeral that reads
    back as that double and, among the numerals of that length, the one
    nearest to it.  The double is [m * 2^e]; the numerals that read back as
    it lie between the midpoints to its two neighbours, those included when
    [m] is even.  Everything is counted in quarters of [2^e], so that the
    midpoints are whole: the double is [4m], the upper midpoint [4m + 2],
    the lower one [4m - 2], or [4m - 1] where the neighbour below is only
    half as far (at a power of two). *)

(** [10^p <= v * 2^e2] *)
Definition at_least (v e2 p : Z) : bool :=
  (pow2 (- e2) * pow10 p <=? v * pow2 e2 * pow10 (- p))%Z.

(** The position of the decimal point of [v * 2^e2] for [v > 0]: the [p]
    with [10^(p-1) <= v * 2^e2 < 10^p].  The estimate from the binary
    logarithm is at most three too small. *)
Definition decimal_point (v e2 : Z) : Z :=
  let p0 := ((Z.log2 v + e2) * 30103 / 100000)%Z in
  if at_least v e2 (p0 + 2) then (p0 + 3)%Z
  else if at_least v e2 (p0 + 1) then (p0 + 2)%Z
  else if at_least v e2 p0 then (p0 + 1)%Z
  else p0.

(** The numeral [d * 10^(p-n)] of [n] digits that reads back as
    [m * 2^e], if there is one: of the two numerals next to the double, the
    nearer one that lies between the midpoints (the even one, if both are as
    near). *)
Definition shortest_at (m e p n : Z) : option Z :=
  let e2 := (e - 2)%Z in
  let below := if (m =? 2 ^ 52)%Z && (-1074 <? e)%Z then 1%Z else 2%Z in
  let scale := (pow2 e2 * pow10 (n - p))%Z in
  let den := (pow2 (- e2) * pow10 (p - n))%Z in
  let num := (4 * m * scale)%Z in
  let low := ((4 * m - below) * scale)%Z in
  let high := ((4 * m + 2) * scale)%Z in
  let inside (d : Z) :=
    if Z.even m then (low <=? d * den)%Z && (d * den <=? high)%Z
    else (low <? d * den)%Z && (d * den <? high)%Z in
  let d0 := (num / den)%Z in
  let r := (num mod den)%Z in
  let d1 := (d0 + 1)%Z in
  match inside d0, inside d1 with
  | true, true =>
      Some (if (2 * r <? den)%Z || ((2 * r =? den)%Z && Z.even d0) then d0 else d1)
  | true, false => Some d0
  | false, true => Some d1
  | false, false => None
  end.

(** The first length, from [n] on, that has such a numeral (seventeen
    digits always do). *)
Fixpoint shortest_from (tries : nat) (m e p n : Z) : Z * Z :=
  match tries with
  | O => (0%Z, n)
  | S tries' =>
      match shortest_at m e p n with
      | Some d => (d, n)
      | None => shortest_from tries' m e p (n + 1)%Z
      end
  end.

Fixpoint strip_zeros (tries : nat) (d : Z) : Z :=
  match tries with
  | O => d
  | S tries' => if (0 <? d)%Z && (d mod 10 =? 0)%Z then strip_zeros tries' (d / 10)%Z else d
  end.

Definition decimal (d : Z) : string := NilZero.string_of_uint (N.to_uint (Z.to_N d)).

Fixpoint zeros (n : nat) : string :=
  match n with
  | O => EmptyString
  | S n' => String "0" (zeros n')
  end.

(** The digits [ds], read as [0.ds * 10^p], the way [repr] lays them out:
    with an exponent of at least two digits when [p] is below [-3] or above
    [16], and otherwise with a point, [0.] before it and [.0] after it
    where there is no digit. *)
Definition layout (ds : string) (p : Z) : string :=
  let n := Z.of_nat (String.length ds) in
  if (p <=? -4)%Z || (16 <? p)%Z then
    let x := (p - 1)%Z in
    let mantissa :=
      match ds with
      | String c EmptyString => ds
      | String c rest => String c ("." ++ rest)
      | EmptyString => ds
      end in
    let exponent := decimal (Z.abs x) in
    mantissa ++ "e" ++ (if (x <? 0)%Z then "-" else "+")
      ++ (if (Z.abs x <? 10)%Z then "0" else "") ++ exponent
  else if (p <=? 0)%Z then "0." ++ zeros (Z.to_nat (- p)) ++ ds
  else if (n <=? p)%Z then ds ++ zeros (Z.to_nat (p - n)) ++ ".0"
  else String.substring 0 (Z.to_nat p) ds ++ "."
       ++ String.substring (Z.to_nat p) (Z.to_nat (n - p)) ds.

Definition str (x : float) : string :=
  match Prim2SF x with
  | S754_zero s => if s then "-0.0" else "0.0"
  | S754_infinity s => if s then "-inf" else "inf"
  | S754_nan => "nan"
  | S754_finite s m e =>
      let p := decimal_point (4 * Zpos m) (e - 2) in
      let '(d, n) := shortest_from 17 (Zpos m) e p 1 in
      let point := (p - n + Z.of_nat (String.length (decimal d)))%Z in
      (if s then "-" else "") ++ layout (decimal (strip_zeros 17 d)) point
  end.

(** *** [float(s)]

    The characters of the text are taken as code points below 256: the
    blanks are those that Python strips among them, and the digits are the
    ASCII ones (the digits of other scripts, which [float] also reads, do
    not occur). *)

Definition is_space (c : ascii) : bool :=
  let n := nat_of_ascii c in
  ((9 <=? n) && (n <=? 13)) || ((28 <=? n) && (n <=? 32)) || (n =? 133) || (n =? 160).

Definition is_digit (c : ascii) : bool :=
  let n := nat_of_ascii c in (48 <=? n) && (n <=? 57).

Definition digit_value (c : ascii) : Z := Z.of_nat (nat_of_ascii c - 48).

Definition lower (c : ascii) : ascii :=
  let n := nat_of_ascii c in
  if (65 <=? n) && (n <=? 90) then ascii_of_nat (n + 32) else c.

Fixpoint lstrip (l : list ascii) : list ascii :=
  match l with
  | c :: rest => if is_space c then lstrip rest else l
  | [] => []
  end.

Definition strip (l : list ascii) : list ascii := rev (lstrip (rev (lstrip l))).

(** An underscore stands between two digits. *)
Fixpoint underscores_ok (after_digit : bool) (l : list ascii) : bool :=
  match l with
  | [] => true
  | c :: rest =>
      if Ascii.eqb c "_" then
        after_digit
        && match rest with d :: _ => is_digit d | [] => false end
        && underscores_ok false rest
      else underscores_ok (is_digit c) rest
  end.

Definition take_sign (l : list ascii) : bool * list ascii :=
  match l with
  | c :: rest =>
      if Ascii.eqb c "-" then (true, rest)
      else if Ascii.eqb c "+" then (false, rest)
      else (false, l)
  | [] => (false, [])
  end.

(** The digits at the head of [l], appended to the number [acc]; with
    their count and what follows them. *)
Fixpoint take_digits (l : list ascii) (acc : Z) (n : Z) : Z * Z * list ascii :=
  match l with
  | c :: rest =>
      if is_digit c then take_digits rest (acc * 10 + digit_value c)%Z (n + 1)%Z
      else (acc, n, l)
  | [] => (acc, n, [])
  end.

(** Digits, a point, digits, an exponent: at least one digit before the
    exponent and at least one in it; the result is [m] and [e] for
    [m * 10^e]. *)
Definition parse_number (l : list ascii) : option (Z * Z) :=
  let '(ip, n1, r1) := take_digits l 0 0 in
  let '(m, n2, r2) :=
    match r1 with
    | c :: r => if Ascii.eqb c "." then take_digits r ip 0 else (ip, 0%Z, r1)
    | [] => (ip, 0%Z, r1)
    end in
  if (n1 + n2 =? 0)%Z then None
  else
    match r2 with
    | [] => Some (m, (- n2)%Z)
    | c :: r3 =>
        if Ascii.eqb (lower c) "e" then
          let '(neg, r4) := take_sign r3 in
          let '(x, n3, r5) := take_digits r4 0 0 in
          match r5 with
          | [] => if (n3 =? 0)%Z then None else Some (m, (signed neg x - n2)%Z)
          | _ => None
          end
        else None
    end.

Definition parse (s : string) : option float :=
  let l := strip (list_ascii_of_string s) in
  if negb (underscores_ok false l) then None
  else
    let l := filter (fun c => negb (Ascii.eqb c "_")) l in
    let '(neg, body) := take_sign l in
    let name := string_of_list_ascii (map lower body) in
    if String.eqb name "inf" || String.eqb name "infinity"
    then Some (if neg then neg_infinity else infinity)
    else if String.eqb name "nan" then Some nan
    else
      match parse_number body with
      | Some (m, e) => Some (if neg then PrimFloat.opp (of_decimal m e) else of_decimal m e)
      | None => None
      end.

#[global] Instance text : FloatText float := {|
  str_of_float := str;
  float_of_str := parse
|}.

End Float64.

(** ** A small network, for the concrete evaluations *)

Module Demo.

(** A file system in which the empty path names no file and a path that
    ends in a slash names a directory: neither can be opened for writing;
    every other path can. *)
Definition ends_in_slash (p : string) : bool :=
  match rev (list_ascii_of_string p) with
  | c :: _ => Ascii.eqb c "/"
  | [] => false
  end.

#[global] Instance file_system : FileSystem := {|
  open_w_error := fun p =>
    if String.eqb p "" then Some (OSError "[Errno 2] No such file or directory")
    else if ends_in_slash p then Some (OSError "[Errno 21] Is a directory")
    else None
|}.

(** An empty world. *)
Definition blank : state float :=
  mkState (mkNetwork ObjNone [] 0%float) [] [] 0 0 ∅.

(** The world after [m], whatever its outcome. *)
Definition after {A} (m : M float A) (s : state float) : state float := snd (m s).

(** [net = NeuralNetwork(counts, activation, loss)], with [net] as the
    network the following calls are made on. *)
Definition construct (counts : list Z) (activation : act_arg) (loss : pyobj) : M float unit :=
  n ← NeuralNetwork_init counts activation loss; modify (with_self n).

(** [NeuralNetwork([1, 2], ReLU(), MeanSquareError())] *)
Definition built : state float :=
  after (construct [1; 2]%Z (OneActivation ReLU) (ObjLoss MeanSquareError)) blank.

(** ... after [predict([2.0])] *)
Definition predicted : state float := after (predict [2%float]) built.


(** A save file whose activation line names no activation function. *)
Definition unknown_activation_file : string :=
  ("2,1" ++ newline ++ "Tanh" ++ newline ++ "MeanSquareError"
   ++ newline ++ newline ++ "0.0" ++ newline ++ "0.0,0.0")%string.

Definition with_unknown_activation_file : state float :=
  after (file_open_w "model.ai";; file_write "model.ai" unknown_activation_file) blank.

(** A gradient list for [built], as fresh arrays, with entries outside
    [[-1, 1]]. *)
Definition steep_gradient : M float gradient :=
  wg ← alloc_mat (mkMatrix [[5%float]; [(-0.5)%float]] 1);
  bg ← alloc_vec [5%float; (-3)%float];
  ret [(Some wg, Some bg)].

Definition steep : state float := after steep_gradient built.

(** A path that has just been opened for writing: an empty file. *)
Definition with_empty_file : state float := after (file_open_w "model.ai") blank.

(** Names of up to two letters over a three-letter alphabet, and
    [NeuralNetwork([longest_lunch_len * letters_count, 2, 1], ReLU(),
    MeanAbsoluteError())] as their model. *)
Definition lunch_letters : list ascii := ["a"; "b"; "c"]%char.

Definition lunch_model : state float :=
  after (construct [6; 2; 1]%Z (OneActivation ReLU) (ObjLoss MeanAbsoluteError)) blank.

(** The empty world, but for the file that [save] writes for
    [lunch_model]. *)
Definition with_lunch_model_file : state float :=
  after (file_open_w "model.ai";; file_write "model.ai" (text_of lunch_model)) blank.

End Demo.

(** * Proofs *)

Section Proofs.
Context {F : Type} {SF : Scalar F} {RF : Random F} {TF : FloatText F} {FS : FileSystem}.
Local Abbreviation vec := (list F) (only parsing).
Local Abbreviation matrix := (matrix F) (only parsing).
Local Abbreviation state := (state F) (only parsing).
Local Abbreviation M := (M F) (only parsing).

(** ** The monad *)

Lemma bind_ok {A B} (m : M A) (k : A -> M B) s a s' :
  m s = (Ok a, s') -> (m ≫= k) s = k a s'.
Proof. intros H. unfold mbind, M_bind, bind. now rewrite H. Qed.

Lemma bind_raise {A B} (m : M A) (k : A -> M B) s e s' :
  m s = (Raise e, s') -> (m ≫= k) s = (Raise e, s').
Proof. intros H. unfold mbind, M_bind, bind. now rewrite H. Qed.

Lemma bind_inv_ok {A B} (m : M A) (k : A -> M B) s b s' :
  (m ≫= k) s = (Ok b, s') -> exists a s1, m s = (Ok a, s1) /\ k a s1 = (Ok b, s').
Proof.
  unfold mbind, M_bind, bind. destruct (m s) as [[a|e] s1]; intros H; [eauto | discriminate].
Qed.

Lemma run_get_layer (s : state) i l :
  layers (self s) !! i = Some l -> get_layer i s = (Ok l, s).
Proof.
  intros H. unfold get_layer, mbind, M_bind, bind, gets. cbn. now rewrite H.
Qed.

Lemma run_read_vec (s : state) r v : vecs s !! r = Some v -> read_vec r s = (Ok v, s).
Proof. intros H. unfold read_vec, gets. cbn. now rewrite H. Qed.

Lemma run_read_mat (s : state) r W : mats s !! r = Some W -> read_mat r s = (Ok W, s).
Proof. intros H. unfold read_mat, gets. cbn. now rewrite H. Qed.

Lemma run_last_layer (s : state) l :
  last (layers (self s)) = Some l ->
  last_layer s = (Ok (length (layers (self s)) - 1, l), s).
Proof.
  intros H. unfold last_layer, mbind, M_bind, bind, gets. cbn. now rewrite H.
Qed.

(** ** Shapes *)

Lemma all_layers_lookup P k ls :
  all_layers P k ls = true <-> (forall j l, ls !! j = Some l -> P (k + j) l = true).
Proof.
  revert k. induction ls as [|x ls IH]; intros k; cbn.
  - split; [intros _ j l H; discriminate | trivial].
  - rewrite andb_true_iff, IH. split.
    + intros [H1 H2] [|j] l Hl; cbn in Hl.
      * injection Hl as <-. now rewrite Nat.add_0_r.
      * rewrite <- Nat.add_succ_comm. now apply H2.
    + intros H. split.
      * specialize (H 0 x eq_refl). now rewrite Nat.add_0_r in H.
      * intros j l Hl. rewrite Nat.add_succ_comm. now apply (H (S j)).
Qed.

Lemma has_vec_spec (s : state) r n :
  has_vec s r n = true <-> exists v, vecs s !! r = Some v /\ length v = n.
Proof.
  unfold has_vec. destruct (vecs s !! r) as [v|].
  - rewrite Nat.eqb_eq. split; [eauto | intros (v' & [= <-] & H); exact H].
  - split; [discriminate | intros (v' & H & _); discriminate].
Qed.

Lemma has_mat_spec (s : state) r rows cols :
  has_mat s r rows cols = true <->
  exists W, mats s !! r = Some W /\ has_shape W rows cols = true.
Proof.
  unfold has_mat. destruct (mats s !! r) as [W|].
  - split; [eauto | intros (W' & [= <-] & H); exact H].
  - split; [discriminate | intros (W' & H & _); discriminate].
Qed.

Lemma has_shape_spec (W : matrix) rows cols :
  has_shape W rows cols = true <->
  nrows W = rows /\ mcols W = cols /\ Forall (fun r => length r = cols) (mrows W).
Proof.
  unfold has_shape, rectangular. rewrite !andb_true_iff, !Nat.eqb_eq, forallb_forall.
  rewrite Forall_forall. split.
  - intros [[H1 H2] H3]. repeat split; trivial. intros r Hr.
    apply list_elem_of_In, H3, Nat.eqb_eq in Hr. congruence.
  - intros (H1 & H2 & H3). repeat split; trivial. intros r Hr.
    apply Nat.eqb_eq. rewrite H2. apply H3. now apply list_elem_of_In.
Qed.

Lemma has_vec_app (s s' : state) r n more :
  vecs s' = vecs s ++ more -> has_vec s r n = true -> has_vec s' r n = true.
Proof.
  intros E. unfold has_vec. rewrite E. destruct (vecs s !! r) as [v|] eqn:H; [|discriminate].
  now rewrite (lookup_app_l_Some _ _ _ _ H).
Qed.

Lemma has_mat_app (s s' : state) r rows cols more :
  mats s' = mats s ++ more -> has_mat s r rows cols = true -> has_mat s' r rows cols = true.
Proof.
  intros E. unfold has_mat. rewrite E. destruct (mats s !! r) as [v|] eqn:H; [|discriminate].
  now rewrite (lookup_app_l_Some _ _ _ _ H).
Qed.

Lemma extends_refl (s : state) : extends s s.
Proof. split; trivial; exists []; now rewrite app_nil_r. Qed.

Lemma extends_trans (s1 s2 s3 : state) : extends s1 s2 -> extends s2 s3 -> extends s1 s3.
Proof.
  intros [[v1 V1] [m1 M1] S1 L1 C1 N1 P1 F1] [[v2 V2] [m2 M2] S2 L2 C2 N2 P2 F2].
  split; try congruence.
  - exists (v1 ++ v2). now rewrite V2, V1, app_assoc.
  - exists (m1 ++ m2). now rewrite M2, M1, app_assoc.
Qed.

Lemma static_counts (ls ls' : list Layer) :
  map static ls' = map static ls -> counts ls' = counts ls.
Proof.
  intros H. unfold counts.
  assert (E : forall l : list Layer, map neuron_count l = map (fun t => t.1.1.1.1) (map static l)).
  { intros l. rewrite map_map. now apply map_ext. }
  now rewrite !E, H.
Qed.

Lemma static_lookup (ls ls' : list Layer) i l' :
  map static ls' = map static ls -> ls' !! i = Some l' ->
  exists l, ls !! i = Some l /\ static l' = static l.
Proof.
  intros H Hl. assert (E : map static ls' !! i = Some (static l')) by now rewrite list_lookup_fmap, Hl.
  rewrite H, list_lookup_fmap in E. destruct (ls !! i) as [l|]; [|discriminate].
  exists l. split; [trivial|]. cbn in E. congruence.
Qed.

Lemma owns_params_extends (s s' : state) cs i l l' :
  extends s s' -> static l' = static l ->
  owns_params s cs i l = true -> owns_params s' cs i l' = true.
Proof.
  intros [[v V] [m Mm] _ _ _ _ _ _] E. injection E as E1 E2 E3 E4 E5.
  unfold owns_params. rewrite E1, E4, E5. destruct i as [|p]; [trivial|].
  destruct (cs !! p), (weights l), (biases l); trivial.
  rewrite !andb_true_iff. intros [H1 H2]. split.
  - eapply has_mat_app; eauto.
  - eapply has_vec_app; eauto.
Qed.

Lemma linked_static i (l l' : Layer) : static l' = static l -> linked i l' = linked i l.
Proof. intros E. injection E as E1 E2 E3 E4 E5. unfold linked. now rewrite E2, E3. Qed.

Lemma buffers_ok_extends (s s' : state) l :
  extends s s' -> buffers_ok s l = true -> buffers_ok s' l = true.
Proof.
  intros [[v V] _ _ _ _ _ _ _]. unfold buffers_ok. rewrite !andb_true_iff.
  intros [H1 H2]. split; eapply has_vec_app; eauto.
Qed.

(** Well-formedness survives an extension that leaves every layer with
    valid [z] and [activations] buffers. *)
Lemma wf_extends (s s' : state) :
  wf s = true -> extends s s' ->
  (forall i l', layers (self s') !! i = Some l' -> buffers_ok s' l' = true) ->
  wf s' = true.
Proof.
  intros W E B. unfold wf in *. apply andb_true_iff in W as [W1 W2].
  pose proof (ext_static _ _ E) as St.
  assert (Len : length (layers (self s')) = length (layers (self s))).
  { rewrite <- (length_map static), St. apply length_map. }
  rewrite andb_true_iff, Len. split; [trivial|].
  rewrite (static_counts _ _ St). apply all_layers_lookup. intros j l' Hl'.
  destruct (static_lookup _ _ _ _ St Hl') as (l & Hl & El).
  rewrite all_layers_lookup in W2. specialize (W2 j l Hl). cbn in *.
  unfold layer_ok in *. rewrite !andb_true_iff in *. destruct W2 as [[O L] _].
  repeat split.
  - eapply owns_params_extends; eauto.
  - now rewrite (linked_static _ _ _ El).
  - eapply B; eauto.
Qed.

Lemma params_ok_extends (s s' : state) :
  params_ok s = true -> extends s s' -> params_ok s' = true.
Proof.
  intros W E. unfold params_ok in *. pose proof (ext_static _ _ E) as St.
  rewrite (static_counts _ _ St). apply all_layers_lookup. intros j l' Hl'.
  destruct (static_lookup _ _ _ _ St Hl') as (l & Hl & El).
  rewrite all_layers_lookup in W. specialize (W j l Hl).
  eapply owns_params_extends; eauto.
Qed.

Lemma wf_params_ok (s : state) : wf s = true -> params_ok s = true.
Proof.
  unfold wf, params_ok. rewrite andb_true_iff. intros [_ H].
  apply all_layers_lookup. intros j l Hl. rewrite all_layers_lookup in H.
  specialize (H j l Hl). unfold layer_ok in H. now rewrite !andb_true_iff in H.
Qed.

Lemma mat_vec_ok (W : matrix) (v : vec) :
  mcols W = length v -> mat_vec W v = Ok (map (fun r => dot r v) (mrows W)).
Proof. intros H. unfold mat_vec. now rewrite H, Nat.eqb_refl. Qed.

Lemma vbroadcast2_same op (a b : vec) :
  length a = length b -> vbroadcast2 op a b = Ok (zip_with op a b).
Proof. intros H. unfold vbroadcast2. now rewrite H, Nat.eqb_refl. Qed.

Lemma vinplace_same op (a b : vec) :
  length a = length b -> vinplace op a b = Ok (zip_with op a b).
Proof. intros H. unfold vinplace. now rewrite H, Nat.eqb_refl. Qed.

Lemma length_zip_with_same {A B C} (f : A -> B -> C) (a : list A) (b : list B) :
  length a = length b -> length (zip_with f a b) = length a.
Proof. intros H. rewrite length_zip_with. lia. Qed.

Lemma static_alter (f : Layer -> Layer) i ls :
  (forall l, static (f l) = static l) -> map static (alter f i ls) = map static ls.
Proof.
  intros H. revert i. induction ls as [|x ls IH]; intros [|i]; cbn; trivial.
  - now rewrite H.
  - f_equal. apply IH.
Qed.

Lemma forward_run (s : state) p l lp a w b (W : matrix) bv av :
  layers (self s) !! (S p) = Some l -> layers (self s) !! p = Some lp ->
  previous_layer l = Some p -> activation_func l = ObjActivation a ->
  weights l = Some w -> biases l = Some b ->
  mats s !! w = Some W -> vecs s !! b = Some bv ->
  vecs s !! activations lp = Some av ->
  mcols W = length av -> nrows W = length bv ->
  let zv := zip_with fadd (map (fun r => dot r av) (mrows W)) bv in
  exists s',
    forward (S p) s = (Ok tt, s') /\
    vecs s' = vecs s ++ [zv; act_call a zv] /\
    layers (self s') =
      alter (set_activations (S (length (vecs s))) ∘ set_z (length (vecs s))) (S p)
            (layers (self s)) /\
    extends s s'.
Proof.
  intros Hl Hlp Hprev Hact Hw Hb HW Hbv Hav Hc Hr zv.
  destruct s as [[lf ls c] vs ms g1 g2 fs]. cbn in *.
  unfold forward. erewrite bind_ok by (apply run_get_layer; exact Hl).
  rewrite Hprev, Hw, Hb, Hact.
  erewrite bind_ok by (apply run_read_mat; exact HW).
  erewrite bind_ok by (apply run_get_layer; exact Hlp).
  erewrite bind_ok by (apply run_read_vec; exact Hav).
  rewrite (mat_vec_ok _ _ Hc).
  erewrite bind_ok by reflexivity.
  erewrite bind_ok by (apply run_read_vec; exact Hbv).
  rewrite vbroadcast2_same by (rewrite length_map; exact Hr).
  fold zv.
  eexists. split; [reflexivity|]. cbn.
  rewrite list_alter_alter_eq, length_app, Nat.add_1_r, <- app_assoc. cbn.
  split; [reflexivity|]. split; [reflexivity|].
  split; cbn; trivial.
  - now exists [zv; act_call a zv].
  - exists []. now rewrite app_nil_r.
  - now apply static_alter.
Qed.

(** ** What well-formedness says about one layer *)

Lemma wf_lookup (s : state) i l :
  wf s = true -> layers (self s) !! i = Some l ->
  layer_ok s (counts (layers (self s))) i l = true.
Proof.
  unfold wf. rewrite andb_true_iff. intros [_ H] Hl.
  rewrite all_layers_lookup in H. exact (H i l Hl).
Qed.

Lemma wf_length (s : state) : wf s = true -> 2 <= length (layers (self s)).
Proof. unfold wf. rewrite andb_true_iff. intros [H _]. now apply Nat.leb_le. Qed.

Lemma layer_ok_buffers (s : state) cs i l :
  layer_ok s cs i l = true ->
  exists zv av, vecs s !! z l = Some zv /\ length zv = neuron_count l /\
                vecs s !! activations l = Some av /\ length av = neuron_count l.
Proof.
  unfold layer_ok, buffers_ok. rewrite !andb_true_iff. intros [_ [H1 H2]].
  apply has_vec_spec in H1 as (zv & ? & ?). apply has_vec_spec in H2 as (av & ? & ?).
  eauto 10.
Qed.

Lemma layer_ok_input (s : state) cs l :
  layer_ok s cs 0 l = true ->
  previous_layer l = None /\ weights l = None /\ biases l = None /\
  activation_func l = ObjActivation Sigmoid.
Proof.
  unfold layer_ok, owns_params, linked. rewrite !andb_true_iff. intros [[H1 H2] _].
  destruct (weights l), (biases l); try discriminate.
  destruct (previous_layer l); try discriminate.
  destruct (activation_func l) as [|[]| |]; try discriminate. auto.
Qed.

Lemma layer_ok_hidden (s : state) cs p l :
  layer_ok s cs (S p) l = true ->
  exists np a w b W bv,
    cs !! p = Some np /\ previous_layer l = Some p /\
    activation_func l = ObjActivation a /\
    weights l = Some w /\ biases l = Some b /\
    mats s !! w = Some W /\ has_shape W (neuron_count l) np = true /\
    vecs s !! b = Some bv /\ length bv = neuron_count l.
Proof.
  unfold layer_ok, owns_params, linked. rewrite !andb_true_iff. intros [[H1 H2] _].
  destruct (cs !! p) as [np|]; [|discriminate].
  destruct (weights l) as [w|]; [|discriminate].
  destruct (biases l) as [b|]; [|discriminate].
  destruct (previous_layer l) as [q|]; [|discriminate].
  destruct (activation_func l) as [|a| |]; try discriminate.
  apply Nat.eqb_eq in H2 as ->.
  apply andb_true_iff in H1 as [H1 H3].
  apply has_mat_spec in H1 as (W & ? & ?). apply has_vec_spec in H3 as (bv & ? & ?).
  exists np, a, w, b, W, bv. auto 10.
Qed.

Lemma counts_lookup (ls : list Layer) i l :
  ls !! i = Some l -> counts ls !! i = Some (neuron_count l).
Proof. intros H. unfold counts. now rewrite list_lookup_fmap, H. Qed.

Lemma layer_parameters_extends (s s' : state) cs i l l' :
  extends s s' -> static l' = static l -> layer_ok s cs (S i) l = true ->
  layer_parameters s' l' = layer_parameters s l.
Proof.
  intros [[v V] [m Mm] _ _ _ _ _ _] E H. injection E as E1 E2 E3 E4 E5.
  apply layer_ok_hidden in H as (np & a & w & b & W & bv & _ & _ & _ & Hw & Hb & HW & _ & Hbv & _).
  unfold layer_parameters. rewrite E3, E4, E5, Hw, Hb. cbn.
  rewrite V, Mm, (lookup_app_l_Some _ _ _ _ HW), (lookup_app_l_Some _ _ _ _ Hbv), HW, Hbv.
  reflexivity.
Qed.

Lemma parameters_extends (s s' : state) :
  wf s = true -> extends s s' -> parameters s' = parameters s.
Proof.
  intros W E. unfold parameters. pose proof (ext_static _ _ E) as St.
  apply list_eq. intros i. rewrite !list_lookup_fmap, !lookup_drop.
  destruct (layers (self s') !! (1 + i)) as [l'|] eqn:Hl'.
  - destruct (static_lookup _ _ _ _ St Hl') as (l & Hl & El). rewrite Hl. cbn. f_equal.
    apply (layer_parameters_extends s s' (counts (layers (self s))) i l l' E El).
    exact (wf_lookup s (S i) l W Hl).
  - assert (Len : length (layers (self s')) = length (layers (self s))).
    { rewrite <- (length_map static), St. apply length_map. }
    apply lookup_ge_None in Hl'. rewrite Len in Hl'. apply lookup_ge_None in Hl'.
    now rewrite Hl'.
Qed.

(** ** [predict] *)

Lemma buffers_ok_alter (s s' : state) (f : Layer -> Layer) i j l' :
  extends s s' ->
  (forall j l, layers (self s) !! j = Some l -> buffers_ok s l = true) ->
  (forall l, layers (self s) !! i = Some l -> buffers_ok s' (f l) = true) ->
  alter f i (layers (self s)) !! j = Some l' ->
  buffers_ok s' l' = true.
Proof.
  intros E Old New H. destruct (decide (i = j)) as [<-|Ne].
  - rewrite list_lookup_alter_eq in H. destruct (layers (self s) !! i) as [l|] eqn:Hl;
      [|discriminate]. injection H as <-. now apply New.
  - rewrite list_lookup_alter_ne in H by trivial.
    eapply buffers_ok_extends; eauto.
Qed.

Lemma wf_buffers (s : state) j l :
  wf s = true -> layers (self s) !! j = Some l -> buffers_ok s l = true.
Proof.
  intros W H. pose proof (wf_lookup _ _ _ W H) as K. unfold layer_ok in K.
  now rewrite !andb_true_iff in K.
Qed.

Lemma predict_loop_run inputs : forall m p (s : state) lp av,
  wf s = true -> S p + m = length (layers (self s)) ->
  layers (self s) !! p = Some lp -> vecs s !! activations lp = Some av ->
  exists s' lo out,
    predict_loop (seq (S p) m) false inputs s = (Ok tt, s') /\
    wf s' = true /\ extends s s' /\
    last (layers (self s')) = Some lo /\ vecs s' !! activations lo = Some out /\
    feed_forward (drop p (parameters s)) av = Ok out.
Proof.
  induction m as [|m IH]; intros p s lp av W Len Hlp Hav.
  - exists s, lp, av. cbn. split_and!; auto using extends_refl.
    + rewrite last_lookup. replace (pred (length (layers (self s)))) with p by lia. exact Hlp.
    + rewrite drop_ge; [reflexivity|]. unfold parameters.
      rewrite length_map, length_drop. lia.
  - assert (is_Some (layers (self s) !! S p)) as [l Hl] by (apply lookup_lt_is_Some; lia).
    pose proof (wf_lookup _ _ _ W Hl) as Kl.
    destruct (layer_ok_hidden _ _ _ _ Kl)
      as (np & a & w & b & Wt & bv & Hnp & Hprev & Hact & Hw & Hb & HW & Hsh & Hbv & Lbv).
    rewrite (counts_lookup _ _ _ Hlp) in Hnp. injection Hnp as <-.
    destruct (layer_ok_buffers _ _ _ _ (wf_lookup _ _ _ W Hlp)) as (_ & av' & _ & _ & Hav' & Lav).
    rewrite Hav in Hav'. injection Hav' as <-.
    apply has_shape_spec in Hsh as (Hr & Hc & Hrect).
    destruct (forward_run s p l lp a w b Wt bv av Hl Hlp Hprev Hact Hw Hb HW Hbv Hav)
      as (s1 & Run & V1 & L1 & E1); [congruence | congruence |].
    set (zv := zip_with fadd (map (fun r => dot r av) (mrows Wt)) bv) in *.
    assert (Lzv : length zv = neuron_count l).
    { unfold zv. rewrite length_zip_with_same; rewrite length_map; fold (nrows Wt); congruence. }
    assert (W1 : wf s1 = true).
    { apply (wf_extends s s1 W E1). intros i l' Hl'. rewrite L1 in Hl'.
      eapply (buffers_ok_alter s s1); eauto using wf_buffers.
      intros l0 Hl0. rewrite Hl in Hl0. injection Hl0 as <-.
      unfold buffers_ok, has_vec. cbn. rewrite V1.
      rewrite (lookup_app_r _ _ (length (vecs s))) by lia.
      rewrite (lookup_app_r _ _ (S (length (vecs s)))) by lia.
      replace (length (vecs s) - length (vecs s)) with 0 by lia.
      replace (S (length (vecs s)) - length (vecs s)) with 1 by lia. cbn.
      rewrite andb_true_iff, !Nat.eqb_eq. split; [exact Lzv|].
      destruct a; cbn; unfold Sigmoid_call, ReLU_call, LeakyReLU_call, np_clip;
        rewrite ?length_map; exact Lzv. }
    assert (Hl1 : layers (self s1) !! S p =
                  Some (set_activations (S (length (vecs s))) (set_z (length (vecs s)) l))).
    { rewrite L1, list_lookup_alter_eq, Hl. reflexivity. }
    assert (Len1 : S (S p) + m = length (layers (self s1))).
    { rewrite L1, length_alter. lia. }
    assert (Ha1 : vecs s1 !! activations (set_activations (S (length (vecs s))) (set_z (length (vecs s)) l))
                  = Some (act_call a zv)).
    { cbn. rewrite V1, (lookup_app_r _ _ (S (length (vecs s)))) by lia.
      replace (S (length (vecs s)) - length (vecs s)) with 1 by lia. reflexivity. }
    destruct (IH (S p) s1 _ _ W1 Len1 Hl1 Ha1) as (s' & lo & out & Run' & W' & E' & Hlo & Hout & FF).
    exists s', lo, out. split_and!; trivial.
    + cbn [seq predict_loop]. erewrite bind_ok by exact Run. exact Run'.
    + eapply extends_trans; eauto.
    + rewrite (parameters_extends _ _ W E1) in FF.
      assert (Hp : parameters s !! p = Some (Wt, bv, ObjActivation a)).
      { unfold parameters. rewrite list_lookup_fmap, lookup_drop. cbn. rewrite Hl. cbn.
        unfold layer_parameters. rewrite Hw, Hb, Hact. cbn. now rewrite HW, Hbv. }
      rewrite (drop_S _ _ _ Hp). cbn.
      rewrite mat_vec_ok by congruence. cbn.
      rewrite vbroadcast2_same by (rewrite length_map; fold (nrows Wt); congruence). cbn.
      exact FF.
Qed.

Lemma input_count_lookup (s : state) l :
  layers (self s) !! 0 = Some l -> input_count s = neuron_count l.
Proof. unfold input_count. destruct (layers (self s)); cbn; congruence. Qed.

Lemma output_count_last (s : state) l :
  last (layers (self s)) = Some l -> output_count s = neuron_count l.
Proof. unfold output_count. now intros ->. Qed.

Lemma predict_run (s : state) inputs :
  wf s = true -> length inputs = input_count s ->
  exists r s' out lo,
    predict inputs s = (Ok r, s') /\
    wf s' = true /\ extends s s' /\
    last (layers (self s')) = Some lo /\ activations lo = r /\
    vecs s' !! r = Some out /\
    feed_forward (parameters s) inputs = Ok out.
Proof.
  intros W Lin. pose proof (wf_length _ W) as Len.
  assert (is_Some (layers (self s) !! 0)) as [l0 Hl0] by (apply lookup_lt_is_Some; lia).
  rewrite (input_count_lookup _ _ Hl0) in Lin.
  destruct (layer_ok_buffers _ _ _ _ (wf_lookup _ _ _ W Hl0)) as (_ & a0 & _ & _ & Ha0 & La0).
  set (s0 := with_self (with_layers (alter (set_activations (length (vecs s))) 0 (layers (self s)))
                                    (self s))
                       (with_vecs (vecs s ++ [inputs]) s)).
  assert (E0 : extends s s0).
  { split; cbn; trivial.
    - now exists [inputs].
    - exists []. now rewrite app_nil_r.
    - now apply static_alter. }
  assert (W0 : wf s0 = true).
  { apply (wf_extends s s0 W E0). intros i l' Hl'. cbn in Hl'.
    eapply (buffers_ok_alter s s0); eauto using wf_buffers.
    intros l Hl. rewrite Hl0 in Hl. injection Hl as <-.
    pose proof (wf_buffers _ _ _ W Hl0) as B. unfold buffers_ok in *.
    rewrite andb_true_iff in *. destruct B as [B1 _]. split.
    - eapply has_vec_app; [|exact B1]. reflexivity.
    - unfold has_vec. cbn. rewrite lookup_app_r by lia.
      rewrite Nat.sub_diag. cbn. now apply Nat.eqb_eq. }
  assert (Run0 : predict_loop (seq 0 (length (layers (self s)))) true inputs s =
                 predict_loop (seq 1 (length (layers (self s)) - 1)) false inputs s0).
  { destruct (length (layers (self s))) as [|n] eqn:En; [lia|].
    cbn [seq predict_loop]. rewrite Nat.sub_succ, Nat.sub_0_r.
    erewrite bind_ok by (apply run_get_layer; exact Hl0).
    erewrite bind_ok by (apply run_read_vec; exact Ha0).
    replace (length a0 =? length inputs) with true by (symmetry; apply Nat.eqb_eq; congruence).
    cbn [negb]. reflexivity. }
  assert (Hl0' : layers (self s0) !! 0 = Some (set_activations (length (vecs s)) l0)).
  { cbn. now rewrite list_lookup_alter_eq, Hl0. }
  assert (Ha0' : vecs s0 !! activations (set_activations (length (vecs s)) l0) = Some inputs).
  { cbn. rewrite lookup_app_r by lia. now rewrite Nat.sub_diag. }
  assert (Len0 : 1 + (length (layers (self s)) - 1) = length (layers (self s0))).
  { cbn. rewrite length_alter. lia. }
  destruct (predict_loop_run inputs _ 0 s0 _ _ W0 Len0 Hl0' Ha0')
    as (s' & lo & out & Run & W' & E' & Hlo & Hout & FF).
  exists (activations lo), s', out, lo. split_and!; trivial.
  - unfold predict. erewrite bind_ok by reflexivity. cbn beta.
    erewrite bind_ok by (rewrite Run0; exact Run).
    erewrite bind_ok by (apply run_last_layer; exact Hlo). reflexivity.
  - eapply extends_trans; eauto.
  - rewrite drop_0, (parameters_extends _ _ W E0) in FF. exact FF.
Qed.

(** C10.  When [predict] is called with an input vector whose length is not
    the input layer's neuron count, it raises the shape error and the whole
    state (every layer's activations, pre-activations, weights and biases
    included) is exactly the state before the call. *)
Theorem C10_predict_shape_error_is_atomic (s : state) (inputs : vec) :
  wf s = true -> length inputs <> input_count s ->
  predict inputs s = (Raise shape_error_inputs, s).
Proof.
  intros W Lin. pose proof (wf_length _ W) as Len.
  assert (is_Some (layers (self s) !! 0)) as [l0 Hl0] by (apply lookup_lt_is_Some; lia).
  rewrite (input_count_lookup _ _ Hl0) in Lin.
  destruct (layer_ok_buffers _ _ _ _ (wf_lookup _ _ _ W Hl0)) as (_ & a0 & _ & _ & Ha0 & La0).
  unfold predict. erewrite bind_ok by reflexivity. cbn beta.
  apply bind_raise.
  destruct (length (layers (self s))) as [|n]; [lia|].
  cbn [seq predict_loop].
  erewrite bind_ok by (apply run_get_layer; exact Hl0).
  erewrite bind_ok by (apply run_read_vec; exact Ha0).
  replace (length a0 =? length inputs) with false; [reflexivity|].
  symmetry. apply Nat.eqb_neq. congruence.
Qed.

(** The output of [predict] is a function of the parameters and of the
    input alone. *)
Lemma predict_depends_on_parameters (s t : state) (inputs : vec) :
  wf s = true -> wf t = true -> parameters t = parameters s ->
  length inputs = input_count s -> length inputs = input_count t ->
  exists r1 s1 r2 t1 out,
    predict inputs s = (Ok r1, s1) /\ predict inputs t = (Ok r2, t1) /\
    vecs s1 !! r1 = Some out /\ vecs t1 !! r2 = Some out /\
    feed_forward (parameters s) inputs = Ok out.
Proof.
  intros Ws Wt P Ls Lt.
  destruct (predict_run s inputs Ws Ls) as (r1 & s1 & o1 & l1 & R1 & _ & _ & _ & _ & O1 & F1).
  destruct (predict_run t inputs Wt Lt) as (r2 & t1 & o2 & l2 & R2 & _ & _ & _ & _ & O2 & F2).
  rewrite P, F1 in F2. injection F2 as <-.
  exists r1, s1, r2, t1, o1. auto.
Qed.

Lemma input_count_extends (s s' : state) : extends s s' -> input_count s' = input_count s.
Proof.
  intros E. pose proof (ext_static _ _ E) as St. unfold input_count.
  destruct (layers (self s')) as [|l' ls'], (layers (self s)) as [|l ls]; try discriminate; trivial.
  cbn in *. injection St as St _. unfold static in St. congruence.
Qed.

(** C9.  With the weights and biases fixed, two calls of [predict] on the
    same input return the same output vector, element for element: the
    output is [feed_forward] of the parameters ([z = W.a_prev + b], then
    [a = activation(z)], layer by layer), which the first call leaves
    unchanged. *)
Theorem C9_predict_is_deterministic (s : state) (inputs : vec) :
  wf s = true -> length inputs = input_count s ->
  exists r1 s1 r2 s2 out,
    predict inputs s = (Ok r1, s1) /\ predict inputs s1 = (Ok r2, s2) /\
    vecs s1 !! r1 = Some out /\ vecs s2 !! r2 = Some out /\
    parameters s1 = parameters s /\
    feed_forward (parameters s) inputs = Ok out.
Proof.
  intros W Lin.
  destruct (predict_run s inputs W Lin) as (r1 & s1 & o1 & l1 & R1 & W1 & E1 & _ & _ & O1 & F1).
  assert (Lin1 : length inputs = input_count s1) by now rewrite (input_count_extends _ _ E1).
  destruct (predict_run s1 inputs W1 Lin1) as (r2 & s2 & o2 & l2 & R2 & _ & _ & _ & _ & O2 & F2).
  rewrite (parameters_extends _ _ W E1), F1 in F2. injection F2 as <-.
  exists r1, s1, r2, s2, o1. split_and!; auto using parameters_extends.
Qed.

(** ** [backward] and [backprop] *)

Lemma length_act_derivative a (x : vec) : length (act_derivative a x) = length x.
Proof.
  destruct a; cbn; unfold Sigmoid_derivative, Sigmoid_call, ReLU_derivative,
    LeakyReLU_derivative, np_clip; now rewrite ?length_map.
Qed.

Lemma length_act_call a (x : vec) : length (act_call a x) = length x.
Proof.
  destruct a; cbn; unfold Sigmoid_call, ReLU_call, LeakyReLU_call, np_clip;
    now rewrite ?length_map.
Qed.

Lemma transpose_shape (W : matrix) :
  nrows (transpose W) = mcols W /\ mcols (transpose W) = nrows W.
Proof. unfold transpose, mbuild, nrows. cbn. now rewrite length_map, length_seq. Qed.

Lemma backward_run (s : state) p l lp a w (W : matrix) zv agr agv apv :
  layers (self s) !! (S p) = Some l -> layers (self s) !! p = Some lp ->
  previous_layer l = Some p -> activation_func l = ObjActivation a ->
  weights l = Some w -> mats s !! w = Some W ->
  vecs s !! z l = Some zv -> a_grad l = Some agr -> vecs s !! agr = Some agv ->
  vecs s !! activations lp = Some apv ->
  length agv = length zv -> nrows W = length zv ->
  let zgv := zip_with fmul (act_derivative a zv) agv in
  let pav := map (fun r => dot r zgv) (mrows (transpose W)) in
  exists s',
    backward (S p) s = (Ok tt, s') /\
    vecs s' = vecs s ++ [zgv; pav] /\
    mats s' = mats s ++ [np_outer zgv apv] /\
    layers (self s') =
      alter (set_a_grad (Some (S (length (vecs s))))) p
        (alter (set_w_grad (Some (length (mats s))) ∘ set_z_grad (Some (length (vecs s)))) (S p)
               (layers (self s))) /\
    extends s s'.
Proof.
  intros Hl Hlp Hprev Hact Hw HW Hz Hag Hagv Hap Lag Lr zgv pav.
  destruct s as [[lf ls c] vs ms g1 g2 fs]. cbn in *.
  unfold backward. erewrite bind_ok by (apply run_get_layer; exact Hl).
  rewrite Hprev, Hw, Hact, Hag.
  erewrite bind_ok by (apply run_read_vec; exact Hz).
  erewrite bind_ok by reflexivity.
  erewrite bind_ok by reflexivity.
  erewrite bind_ok by reflexivity.
  erewrite bind_ok by (apply run_read_vec; cbn; apply lookup_app_l_Some; exact Hagv).
  erewrite bind_ok.
  2:{ unfold inplace_vec. erewrite bind_ok.
      2:{ apply run_read_vec. cbn. rewrite lookup_app_r by lia. now rewrite Nat.sub_diag. }
      rewrite vinplace_same by (rewrite length_act_derivative; congruence).
      erewrite bind_ok by reflexivity. reflexivity. }
  fold zgv. cbn.
  rewrite insert_app_r_alt by lia. rewrite Nat.sub_diag. cbn.
  erewrite bind_ok.
  2:{ apply run_read_vec. cbn. rewrite lookup_app_r by lia. now rewrite Nat.sub_diag. }
  erewrite bind_ok.
  2:{ apply run_get_layer. cbn. rewrite list_lookup_alter_ne by lia. exact Hlp. }
  erewrite bind_ok by (apply run_read_vec; cbn; apply lookup_app_l_Some; exact Hap).
  erewrite bind_ok by reflexivity.
  erewrite bind_ok by reflexivity.
  erewrite bind_ok by (apply run_read_mat; cbn; apply lookup_app_l_Some; exact HW).
  rewrite mat_vec_ok.
  2:{ rewrite (proj2 (transpose_shape W)). unfold zgv.
      rewrite length_zip_with_same; rewrite length_act_derivative; congruence. }
  fold pav.
  erewrite bind_ok by reflexivity.
  erewrite bind_ok by reflexivity.
  eexists. split; [reflexivity|]. cbn.
  rewrite list_alter_alter_eq, length_app, Nat.add_1_r, <- app_assoc. cbn.
  split_and!; try reflexivity.
  split; cbn; trivial.
  - now exists [zgv; pav].
  - now eexists.
  - rewrite !static_alter; trivial.
Qed.

Lemma rev_seq_S k : rev (seq 0 (S k)) = k :: rev (seq 0 k).
Proof. rewrite seq_S, rev_app_distr. reflexivity. Qed.

Lemma vec_at_extends (s s' : state) r v :
  extends s s' -> vec_at s r = Some v -> vec_at s' r = Some v.
Proof.
  intros [[m V] _ _ _ _ _ _ _]. destruct r as [r|]; cbn; [|discriminate].
  intros H. rewrite V. now apply lookup_app_l_Some.
Qed.

Lemma mat_at_extends (s s' : state) r v :
  extends s s' -> mat_at s r = Some v -> mat_at s' r = Some v.
Proof.
  intros [_ [m V] _ _ _ _ _ _]. destruct r as [r|]; cbn; [|discriminate].
  intros H. rewrite V. now apply lookup_app_l_Some.
Qed.

(** The fields of a layer that its own backward equations read, and those
    they read from its predecessor. *)
Lemma backward_equations_stable (s s' : state) l lp l' lp' :
  extends s s' ->
  activation_func l' = activation_func l -> weights l' = weights l -> z l' = z l ->
  a_grad l' = a_grad l -> z_grad l' = z_grad l -> w_grad l' = w_grad l ->
  activations lp' = activations lp -> a_grad lp' = a_grad lp ->
  backward_equations s l lp -> backward_equations s' l' lp'.
Proof.
  intros E E1 E2 E3 E4 E5 E6 E7 E8 (a & W & zv & agv & apv & H1 & H2 & H3 & H4 & H5 & H6 & H7 & pav & H8 & H9).
  exists a, W, zv, agv, apv. rewrite E1, E2, E3, E4, E5, E6, E7, E8. cbv zeta.
  split_and!; trivial.
  - eapply mat_at_extends; eauto.
  - apply (vec_at_extends s s' (Some (z l))); trivial.
  - eapply vec_at_extends; eauto.
  - apply (vec_at_extends s s' (Some (activations lp))); trivial.
  - eapply vec_at_extends; eauto.
  - eapply mat_at_extends; eauto.
  - exists pav. split; trivial. eapply vec_at_extends; eauto.
Qed.

Lemma backward_input (s : state) l :
  layers (self s) !! 0 = Some l -> previous_layer l = None -> backward 0 s = (Ok tt, s).
Proof.
  intros Hl Hp. unfold backward. erewrite bind_ok by (apply run_get_layer; exact Hl).
  now rewrite Hp.
Qed.

Lemma buffers_ok_same (s s' : state) l l' :
  extends s s' -> neuron_count l' = neuron_count l -> z l' = z l ->
  activations l' = activations l -> buffers_ok s l = true -> buffers_ok s' l' = true.
Proof.
  intros E E1 E2 E3 B. apply (buffers_ok_extends _ _ _ E) in B.
  unfold buffers_ok in *. now rewrite E1, E2, E3.
Qed.

(** The state after one [backward] keeps every layer's [z] and
    [activations] buffers. *)
Lemma wf_after_alter2 (s s' : state) (f g : Layer -> Layer) i j :
  wf s = true -> extends s s' ->
  layers (self s') = alter f i (alter g j (layers (self s))) ->
  (forall l, neuron_count (f l) = neuron_count l /\ z (f l) = z l /\ activations (f l) = activations l) ->
  (forall l, neuron_count (g l) = neuron_count l /\ z (g l) = z l /\ activations (g l) = activations l) ->
  wf s' = true.
Proof.
  intros W E L Hf Hg. apply (wf_extends s s' W E). intros k l' Hl'. rewrite L in Hl'.
  assert (exists l, layers (self s) !! k = Some l /\ neuron_count l' = neuron_count l /\
                    z l' = z l /\ activations l' = activations l) as (l & Hl & E1 & E2 & E3).
  { assert (Hg' : forall x, alter g j (layers (self s)) !! k = Some x ->
              exists y, layers (self s) !! k = Some y /\ neuron_count x = neuron_count y /\
                        z x = z y /\ activations x = activations y).
    { intros x Hx. destruct (decide (j = k)) as [->|Nj].
      - rewrite list_lookup_alter_eq in Hx. apply fmap_Some in Hx as (y & Hy & ->).
        exists y. destruct (Hg y) as (? & ? & ?). auto.
      - rewrite list_lookup_alter_ne in Hx by trivial. exists x. auto. }
    destruct (decide (i = k)) as [->|Ni].
    - rewrite list_lookup_alter_eq in Hl'. apply fmap_Some in Hl' as (x & Hx & ->).
      destruct (Hg' x Hx) as (y & Hy & ? & ? & ?). exists y.
      destruct (Hf x) as (? & ? & ?). split_and!; congruence.
    - rewrite list_lookup_alter_ne in Hl' by trivial. now apply Hg'. }
  eapply buffers_ok_same; eauto using wf_buffers.
Qed.

Lemma map_alter_same {X} (h : Layer -> X) (f : Layer -> Layer) i ls :
  (forall l, h (f l) = h l) -> map h (alter f i ls) = map h ls.
Proof.
  intros H. revert i. induction ls as [|x ls IH]; intros [|i]; cbn; trivial.
  - now rewrite H.
  - f_equal. apply IH.
Qed.

Lemma backprop_loop : forall k (s : state),
  wf s = true -> S k <= length (layers (self s)) ->
  (exists l agr agv, layers (self s) !! k = Some l /\ a_grad l = Some agr /\
                     vecs s !! agr = Some agv /\ length agv = neuron_count l) ->
  (forall p l lp, k <= p -> layers (self s) !! S p = Some l -> layers (self s) !! p = Some lp ->
                  backward_equations s l lp) ->
  exists s',
    for_each (rev (seq 0 (S k))) backward s = (Ok tt, s') /\
    wf s' = true /\ extends s s' /\
    (forall p l lp, layers (self s') !! S p = Some l -> layers (self s') !! p = Some lp ->
                    backward_equations s' l lp) /\
    (forall i l l', k <= i -> layers (self s) !! i = Some l -> layers (self s') !! i = Some l' ->
                    a_grad l' = a_grad l) /\
    map z (layers (self s')) = map z (layers (self s)) /\
    map activations (layers (self s')) = map activations (layers (self s)) /\
    (forall i, k < i -> layers (self s') !! i = layers (self s) !! i) /\
    (forall i l', 1 <= i -> i <= k -> layers (self s') !! i = Some l' ->
       w_grad l' = Some (length (mats s) + (k - i)) /\
       z_grad l' = Some (length (vecs s) + 2 * (k - i))).
Proof.
  induction k as [|p IH]; intros s W Len (l & agr & agv & Hl & Hag & Hagv & Lag) Heq.
  - exists s. destruct (layer_ok_input _ _ _ (wf_lookup _ _ _ W Hl)) as (Hp & _).
    split_and!; auto using extends_refl.
    + cbn. erewrite bind_ok by (eapply backward_input; eauto). reflexivity.
    + intros q l1 lp1 H1 H2. apply (Heq q); trivial. lia.
    + intros i l1 l2 _ H1 H2. congruence.
    + intros i l' H1 H2. lia.
  - assert (is_Some (layers (self s) !! p)) as [lp Hlp] by (apply lookup_lt_is_Some; lia).
    pose proof (wf_lookup _ _ _ W Hl) as Kl.
    destruct (layer_ok_hidden _ _ _ _ Kl)
      as (np & a & w & b & Wt & bv & Hnp & Hprev & Hact & Hw & Hb & HW & Hsh & Hbv & Lbv).
    rewrite (counts_lookup _ _ _ Hlp) in Hnp. injection Hnp as <-.
    destruct (layer_ok_buffers _ _ _ _ Kl) as (zv & _ & Hz & Lz & _ & _).
    destruct (layer_ok_buffers _ _ _ _ (wf_lookup _ _ _ W Hlp)) as (_ & apv & _ & _ & Hap & Lap).
    apply has_shape_spec in Hsh as (Hr & Hc & Hrect).
    destruct (backward_run s p l lp a w Wt zv agr agv apv Hl Hlp Hprev Hact Hw HW Hz Hag Hagv Hap)
      as (s1 & Run & V1 & M1 & L1 & E1); [congruence | congruence |].
    set (zgv := zip_with fmul (act_derivative a zv) agv) in *.
    set (pav := map (fun r => dot r zgv) (mrows (transpose Wt))) in *.
    set (n := length (vecs s)) in *. set (m := length (mats s)) in *.
    assert (W1 : wf s1 = true).
    { apply (wf_after_alter2 s s1 _ _ _ _ W E1 L1); intros x; auto. }
    assert (Hl1 : layers (self s1) !! S p = Some (set_w_grad (Some m) (set_z_grad (Some n) l))).
    { rewrite L1, list_lookup_alter_ne by lia. now rewrite list_lookup_alter_eq, Hl. }
    assert (Hlp1 : layers (self s1) !! p = Some (set_a_grad (Some (S n)) lp)).
    { rewrite L1, list_lookup_alter_eq, list_lookup_alter_ne by lia. now rewrite Hlp. }
    assert (Hother : forall i, i <> p -> i <> S p -> layers (self s1) !! i = layers (self s) !! i).
    { intros i N1 N2. rewrite L1, !list_lookup_alter_ne by lia. reflexivity. }
    assert (Hpav : vecs s1 !! S n = Some pav).
    { rewrite V1, lookup_app_r by (unfold n; lia).
      replace (S n - length (vecs s)) with 1 by (unfold n; lia). reflexivity. }
    assert (Hzgv : vecs s1 !! n = Some zgv).
    { rewrite V1, lookup_app_r by (unfold n; lia).
      replace (n - length (vecs s)) with 0 by (unfold n; lia). reflexivity. }
    assert (Hout : mats s1 !! m = Some (np_outer zgv apv)).
    { rewrite M1, lookup_app_r by (unfold m; lia).
      replace (m - length (mats s)) with 0 by (unfold m; lia). reflexivity. }
    destruct (IH s1 W1) as (s' & Run' & W' & E' & Eq' & Ag' & Z' & A' & Fr' & Fs').
    + rewrite L1, !length_alter. lia.
    + exists (set_a_grad (Some (S n)) lp), (S n), pav. split_and!; trivial.
      unfold pav. rewrite length_map. fold (nrows (transpose Wt)).
      rewrite (proj1 (transpose_shape Wt)). cbn. congruence.
    + intros q l' lp' Hq Hl' Hlp'. destruct (decide (q = p)) as [->|Nq].
      * rewrite Hl1 in Hl'. rewrite Hlp1 in Hlp'. injection Hl' as <-. injection Hlp' as <-.
        exists a, Wt, zv, agv, apv. cbn. fold zgv. split_and!; trivial.
        -- rewrite Hw. cbn. rewrite M1. now apply lookup_app_l_Some.
        -- rewrite V1. now apply lookup_app_l_Some.
        -- rewrite Hag. cbn. rewrite V1. now apply lookup_app_l_Some.
        -- rewrite V1. now apply lookup_app_l_Some.
        -- exists pav. split; trivial. apply mat_vec_ok.
           rewrite (proj2 (transpose_shape Wt)). unfold zgv.
           rewrite length_zip_with_same; rewrite length_act_derivative; congruence.
      * rewrite Hother in Hl' by lia.
        destruct (decide (q = S p)) as [->|Nq'].
        -- rewrite Hl1 in Hlp'. injection Hlp' as <-.
           apply (backward_equations_stable s s1 l' l); trivial.
           apply (Heq (S p)); trivial.
        -- rewrite Hother in Hlp' by lia.
           apply (backward_equations_stable s s1 l' lp'); trivial.
           apply (Heq q); trivial. lia.
    + exists s'. split_and!; trivial.
      * rewrite rev_seq_S. cbn [for_each]. erewrite bind_ok by exact Run. exact Run'.
      * eapply extends_trans; eauto.
      * intros i l0 l0' Hi H0 H0'.
        destruct (decide (i = S p)) as [->|Ni].
        -- rewrite Hl in H0. injection H0 as <-.
           rewrite (Ag' (S p) _ l0' ltac:(lia) Hl1 H0'). reflexivity.
        -- rewrite <- Hother in H0 by lia. apply (Ag' i); trivial. lia.
      * rewrite Z', L1, !map_alter_same; trivial.
      * rewrite A', L1, !map_alter_same; trivial.
      * intros i Hi. rewrite Fr' by lia. apply Hother; lia.
      * intros i l' H1 H2 Hi. destruct (decide (i = S p)) as [->|Ni].
        -- rewrite Fr', Hl1 in Hi by lia. injection Hi as <-. cbn.
           rewrite Nat.sub_diag, !Nat.add_0_r. auto.
        -- destruct (Fs' i l' H1 ltac:(lia) Hi) as [Hw' Hz'].
           rewrite Hw', Hz', M1, V1, !length_app. cbn [length]. split; f_equal; lia.
Qed.

Lemma collect_gradient_hidden (ls : list Layer) k :
  all_layers (fun i l => linked i l) (S k) ls = true ->
  collect_gradient ls = map (fun l => (w_grad l, z_grad l)) ls.
Proof.
  revert k. induction ls as [|l ls IH]; intros k; cbn; [trivial|].
  rewrite andb_true_iff. intros [H1 H2]. unfold collect_gradient in *. cbn.
  unfold linked in H1. destruct (previous_layer l); [|discriminate]. cbn.
  f_equal. now apply (IH (S k)).
Qed.

Lemma all_layers_impl (P Q : nat -> Layer -> bool) k ls :
  (forall i l, P i l = true -> Q i l = true) ->
  all_layers P k ls = true -> all_layers Q k ls = true.
Proof.
  intros H. revert k. induction ls as [|l ls IH]; intros k; cbn; [trivial|].
  rewrite !andb_true_iff. intros [H1 H2]. split; auto.
Qed.

Lemma collect_gradient_wf (s : state) :
  wf s = true ->
  collect_gradient (layers (self s)) =
  map (fun l => (w_grad l, z_grad l)) (drop 1 (layers (self s))).
Proof.
  unfold wf. rewrite andb_true_iff. intros [_ H].
  destruct (layers (self s)) as [|l0 ls]; [reflexivity|]. cbn in *.
  apply andb_true_iff in H as [H0 H]. unfold layer_ok, linked in H0.
  rewrite !andb_true_iff in H0. destruct H0 as [[_ H0] _].
  destruct (previous_layer l0); [discriminate|].
  rewrite drop_0. apply (collect_gradient_hidden ls 0).
  revert H. apply all_layers_impl. intros i l. unfold layer_ok.
  rewrite !andb_true_iff. tauto.
Qed.

Lemma backprop_run_fresh (s : state) targets lf lo pv dv :
  wf s = true -> loss_func (self s) = ObjLoss lf ->
  last (layers (self s)) = Some lo -> vecs s !! activations lo = Some pv ->
  loss_derivative lf pv targets = Ok dv -> length dv = neuron_count lo ->
  exists g s' lo',
    backprop targets s = (Ok g, s') /\ wf s' = true /\ extends s s' /\
    g = map (fun l => (w_grad l, z_grad l)) (drop 1 (layers (self s'))) /\
    (forall p l lp, layers (self s') !! S p = Some l -> layers (self s') !! p = Some lp ->
                    backward_equations s' l lp) /\
    last (layers (self s')) = Some lo' /\ vec_at s' (a_grad lo') = Some dv /\
    map z (layers (self s')) = map z (layers (self s)) /\
    map activations (layers (self s')) = map activations (layers (self s)) /\
    (forall i l', 1 <= i -> layers (self s') !! i = Some l' ->
       w_grad l' = Some (length (mats s) + (length (layers (self s)) - 1 - i)) /\
       z_grad l' = Some (S (length (vecs s)) + 2 * (length (layers (self s)) - 1 - i))).
Proof.
  intros W Hlf Hlo Hpv Hd Ld. pose proof (wf_length _ W) as Len.
  set (n := length (layers (self s))) in *.
  assert (Hlo' : layers (self s) !! (n - 1) = Some lo).
  { rewrite last_lookup in Hlo. replace (n - 1) with (pred n) by lia. exact Hlo. }
  set (s0 := with_self (with_layers (alter (set_a_grad (Some (length (vecs s)))) (n - 1)
                                           (layers (self s))) (self s))
                       (with_vecs (vecs s ++ [dv]) s)).
  assert (E0 : extends s s0).
  { split; cbn; trivial.
    - now exists [dv].
    - exists []. now rewrite app_nil_r.
    - now apply static_alter. }
  assert (W0 : wf s0 = true).
  { apply (wf_after_alter2 s s0 (set_a_grad (Some (length (vecs s)))) id (n - 1) 0 W E0);
      [|intros x; auto|intros x; auto].
    cbn. now rewrite (list_alter_id id) by trivial. }
  assert (Hl0 : layers (self s0) !! (n - 1) = Some (set_a_grad (Some (length (vecs s))) lo)).
  { cbn. now rewrite list_lookup_alter_eq, Hlo'. }
  assert (Len0 : length (layers (self s0)) = n) by (cbn; apply length_alter).
  destruct (backprop_loop (n - 1) s0 W0) as (s' & Run & W' & E' & Eq' & Ag' & Z' & A' & _ & Fs').
  { rewrite Len0. lia. }
  { exists (set_a_grad (Some (length (vecs s))) lo), (length (vecs s)), dv. split_and!; trivial.
    cbn. rewrite lookup_app_r by lia. now rewrite Nat.sub_diag. }
  { intros p l lp Hp Hl. apply lookup_lt_Some in Hl. rewrite Len0 in Hl. lia. }
  assert (Len' : length (layers (self s')) = n).
  { rewrite <- (length_map z), Z', length_map. exact Len0. }
  assert (is_Some (layers (self s') !! (n - 1))) as [lo' Hlo''] by (apply lookup_lt_is_Some; lia).
  exists (collect_gradient (layers (self s'))), s', lo'. split_and!; trivial.
  - unfold backprop. erewrite bind_ok by (apply run_last_layer; exact Hlo). cbn beta iota.
    erewrite bind_ok by (apply run_read_vec; exact Hpv).
    erewrite bind_ok by reflexivity. cbn beta. rewrite Hlf. cbn [loss_derivative_obj].
    rewrite Hd. erewrite bind_ok by reflexivity.
    erewrite bind_ok by reflexivity.
    erewrite bind_ok by reflexivity.
    erewrite bind_ok by reflexivity. cbn beta.
    assert (Run2 : for_each (rev (seq 0 (length (layers (self s0))))) backward s0 = (Ok tt, s')).
    { rewrite Len0. replace n with (S (n - 1)) at 1 by lia. exact Run. }
    erewrite bind_ok by exact Run2.
    erewrite bind_ok by reflexivity. reflexivity.
  - eapply extends_trans; eauto.
  - now apply collect_gradient_wf.
  - rewrite last_lookup. replace (pred (length (layers (self s')))) with (n - 1) by lia. exact Hlo''.
  - rewrite (Ag' (n - 1) _ lo' ltac:(lia) Hl0 Hlo''). cbn.
    destruct E' as [[more V] _ _ _ _ _ _ _]. rewrite V. apply lookup_app_l_Some.
    cbn. rewrite lookup_app_r by lia. now rewrite Nat.sub_diag.
  - rewrite Z'. cbn. now apply map_alter_same.
  - rewrite A'. cbn. now apply map_alter_same.
  - intros i l' H1 Hi. fold n.
    assert (Hi' : i <= n - 1) by (apply lookup_lt_Some in Hi; lia).
    destruct (Fs' i l' H1 Hi' Hi) as [Hw' Hz']. rewrite Hw', Hz'. cbn [s0 mats vecs with_self
      with_vecs]. rewrite length_app. cbn [length]. split; f_equal; lia.
Qed.

Lemma backprop_run (s : state) targets lf lo pv dv :
  wf s = true -> loss_func (self s) = ObjLoss lf ->
  last (layers (self s)) = Some lo -> vecs s !! activations lo = Some pv ->
  loss_derivative lf pv targets = Ok dv -> length dv = neuron_count lo ->
  exists g s' lo',
    backprop targets s = (Ok g, s') /\ wf s' = true /\ extends s s' /\
    g = map (fun l => (w_grad l, z_grad l)) (drop 1 (layers (self s'))) /\
    (forall p l lp, layers (self s') !! S p = Some l -> layers (self s') !! p = Some lp ->
                    backward_equations s' l lp) /\
    last (layers (self s')) = Some lo' /\ vec_at s' (a_grad lo') = Some dv /\
    map z (layers (self s')) = map z (layers (self s)) /\
    map activations (layers (self s')) = map activations (layers (self s)).
Proof.
  intros W Hlf Hlo Hpv Hd Ld.
  destruct (backprop_run_fresh s targets lf lo pv dv W Hlf Hlo Hpv Hd Ld)
    as (g & s' & lo' & H1 & H2 & H3 & H4 & H5 & H6 & H7 & H8 & H9 & _).
  exists g, s', lo'. auto 10.
Qed.

(** ** Broadcasting in the loss derivative *)

Lemma vbroadcast2_raise op (a b : vec) :
  length a <> length b -> length a <> 1 -> length b <> 1 ->
  vbroadcast2 op a b = broadcast_error.
Proof.
  intros H1 H2 H3. unfold vbroadcast2.
  apply Nat.eqb_neq in H1. rewrite H1.
  destruct b as [|y [|]]; cbn in *; try lia; destruct a as [|x [|]]; cbn in *; try lia; reflexivity.
Qed.

Lemma vbroadcast2_one_r op (a b : vec) :
  length b = 1 -> exists c, vbroadcast2 op a b = Ok c /\ length c = length a.
Proof.
  intros H. destruct b as [|y [|]]; try discriminate. unfold vbroadcast2.
  destruct (length a =? length [y]) eqn:E.
  - apply Nat.eqb_eq in E. eexists. split; [reflexivity|]. now apply length_zip_with_same.
  - eexists. split; [reflexivity|]. now rewrite length_map.
Qed.

Lemma vbroadcast2_one_l op (a b : vec) :
  length a = 1 -> exists c, vbroadcast2 op a b = Ok c /\ length c = length b.
Proof.
  intros H. destruct a as [|x [|]]; try discriminate. unfold vbroadcast2.
  destruct (length [x] =? length b) eqn:E.
  - apply Nat.eqb_eq in E. eexists. split; [reflexivity|].
    rewrite length_zip_with_same by exact E. exact E.
  - destruct b as [|y [|z b]]; cbn in *; try discriminate.
    + eexists. split; reflexivity.
    + eexists. split; [reflexivity|]. cbn. now rewrite length_map.
Qed.

Lemma vbroadcast2_same_ex op (a b : vec) :
  length a = length b -> exists c, vbroadcast2 op a b = Ok c /\ length c = length a.
Proof.
  intros H. rewrite vbroadcast2_same by trivial. eexists. split; [reflexivity|].
  now apply length_zip_with_same.
Qed.

Lemma length_clip_eps (p : vec) : length (clip_eps p) = length p.
Proof. unfold clip_eps, np_clip. apply length_map. Qed.

(** Equal lengths: the derivative is an array of that length. *)
Lemma loss_derivative_same lf (p t : vec) :
  length t = length p ->
  exists d, loss_derivative lf p t = Ok d /\ length d = length p.
Proof.
  intros H. destruct lf; cbn.
  - rewrite vbroadcast2_same by congruence. cbn. eexists. split; [reflexivity|].
    rewrite length_map. apply length_zip_with_same. congruence.
  - apply vbroadcast2_same_ex. congruence.
  - rewrite vbroadcast2_same by (rewrite length_clip_eps; congruence). cbn.
    destruct (vbroadcast2_same_ex fdiv (zip_with fsub (clip_eps p) t)
                (map (fun p0 => fmul p0 (fsub fone p0)) (clip_eps p))) as (c & -> & L).
    + rewrite length_map, length_zip_with_same; rewrite length_clip_eps; congruence.
    + exists c. split; trivial. rewrite L, length_zip_with_same; rewrite length_clip_eps; congruence.
  - destruct (vbroadcast2_same_ex fdiv (map fneg t) (clip_eps p)) as (c & -> & L).
    + rewrite length_map, length_clip_eps. congruence.
    + exists c. split; trivial. rewrite L, length_map. congruence.
Qed.

(** A single target value is broadcast over the predictions. *)
Lemma loss_derivative_target1 lf (p t : vec) :
  length t = 1 ->
  exists d, loss_derivative lf p t = Ok d /\ length d = length p.
Proof.
  intros H. destruct lf; cbn.
  - destruct (vbroadcast2_one_r fsub p t H) as (c & -> & L). cbn.
    eexists. split; [reflexivity|]. now rewrite length_map.
  - apply vbroadcast2_one_r. exact H.
  - destruct (vbroadcast2_one_r fsub (clip_eps p) t H) as (c & -> & L). cbn.
    rewrite length_clip_eps in L.
    destruct (vbroadcast2_same_ex fdiv c
                (map (fun p0 => fmul p0 (fsub fone p0)) (clip_eps p))) as (c' & -> & L').
    + rewrite length_map, length_clip_eps. exact L.
    + exists c'. split; trivial. congruence.
  - destruct (vbroadcast2_one_l fdiv (map fneg t) (clip_eps p)) as (c & -> & L).
    + now rewrite length_map.
    + exists c. split; trivial. now rewrite L, length_clip_eps.
Qed.

(** A single prediction is broadcast over the targets. *)
Lemma loss_derivative_prediction1 lf (p t : vec) :
  length p = 1 ->
  exists d, loss_derivative lf p t = Ok d /\ length d = length t.
Proof.
  intros H. destruct lf; cbn.
  - destruct (vbroadcast2_one_l fsub p t H) as (c & -> & L). cbn.
    eexists. split; [reflexivity|]. now rewrite length_map.
  - apply vbroadcast2_one_l. exact H.
  - destruct (vbroadcast2_one_l fsub (clip_eps p) t) as (c & -> & L).
    { now rewrite length_clip_eps. } cbn.
    destruct (vbroadcast2_one_r fdiv c
                (map (fun p0 => fmul p0 (fsub fone p0)) (clip_eps p))) as (c' & -> & L').
    + now rewrite length_map, length_clip_eps.
    + exists c'. split; trivial. congruence.
  - destruct (vbroadcast2_one_r fdiv (map fneg t) (clip_eps p)) as (c & -> & L).
    + now rewrite length_clip_eps.
    + exists c. split; trivial. now rewrite L, length_map.
Qed.

(** Lengths that differ, neither being one: numpy cannot broadcast. *)
Lemma loss_derivative_raise lf (p t : vec) :
  length t <> length p -> length t <> 1 -> length p <> 1 ->
  loss_derivative lf p t = broadcast_error.
Proof.
  intros H1 H2 H3. destruct lf; cbn.
  - now rewrite vbroadcast2_raise by congruence.
  - now rewrite vbroadcast2_raise by congruence.
  - now rewrite vbroadcast2_raise by (rewrite ?length_clip_eps; congruence).
  - now rewrite vbroadcast2_raise by (rewrite ?length_clip_eps, ?length_map; congruence).
Qed.

Lemma vinplace_raise op (a b : vec) :
  length a <> length b -> length b <> 1 ->
  vinplace op a b = Raise (ValueError "non-broadcastable output operand").
Proof.
  intros H1 H2. unfold vinplace. apply Nat.eqb_neq in H1. rewrite H1.
  destruct b as [|y [|]]; cbn in *; try lia; reflexivity.
Qed.

(** [backward] on a layer whose [a_grad] has neither the layer's length nor
    length one: the in-place product raises. *)
Lemma backward_raise (s : state) p l a zv agr agv :
  layers (self s) !! (S p) = Some l ->
  previous_layer l = Some p -> activation_func l = ObjActivation a ->
  vecs s !! z l = Some zv -> a_grad l = Some agr -> vecs s !! agr = Some agv ->
  length agv <> length zv -> length agv <> 1 ->
  exists s', backward (S p) s = (Raise (ValueError "non-broadcastable output operand"), s').
Proof.
  intros Hl Hprev Hact Hz Hag Hagv L1 L2.
  unfold backward. erewrite bind_ok by (apply run_get_layer; exact Hl).
  rewrite Hprev, Hact, Hag.
  erewrite bind_ok by (apply run_read_vec; exact Hz).
  erewrite bind_ok by reflexivity.
  erewrite bind_ok by reflexivity.
  erewrite bind_ok by reflexivity.
  erewrite bind_ok by (apply run_read_vec; cbn; apply lookup_app_l_Some; exact Hagv).
  eexists. apply bind_raise.
  unfold inplace_vec. erewrite bind_ok.
  2:{ apply run_read_vec. cbn. rewrite lookup_app_r by lia. now rewrite Nat.sub_diag. }
  rewrite vinplace_raise; [reflexivity| |exact L2].
  rewrite length_act_derivative. congruence.
Qed.

(** [backprop] when the output layer has one neuron and the targets are not
    one value: the derivative broadcasts to the targets' length, and the
    output layer's [backward] raises. *)
Lemma backprop_raise_single_output (s : state) targets lf lo pv :
  wf s = true -> loss_func (self s) = ObjLoss lf ->
  last (layers (self s)) = Some lo -> vecs s !! activations lo = Some pv ->
  length pv = 1 -> neuron_count lo = 1 -> length targets <> 1 ->
  exists msg s', backprop targets s = (Raise (ValueError msg), s').
Proof.
  intros W Hlf Hlo Hpv Lp Ln Lt. pose proof (wf_length _ W) as Len.
  set (n := length (layers (self s))) in *.
  assert (Hlo' : layers (self s) !! (n - 1) = Some lo).
  { rewrite last_lookup in Hlo. replace (n - 1) with (pred n) by lia. exact Hlo. }
  destruct (loss_derivative_prediction1 lf pv targets Lp) as (dv & Hd & Ld).
  set (s0 := with_self (with_layers (alter (set_a_grad (Some (length (vecs s)))) (n - 1)
                                           (layers (self s))) (self s))
                       (with_vecs (vecs s ++ [dv]) s)).
  assert (exists p, n - 1 = S p) as [p En] by (exists (n - 2); lia).
  assert (Hlo'' : layers (self s) !! S p = Some lo) by now rewrite <- En.
  pose proof (wf_lookup _ _ _ W Hlo'') as Kl.
  destruct (layer_ok_hidden _ _ _ _ Kl)
    as (np & a & w & b & Wt & bv & _ & Hprev & Hact & _).
  destruct (layer_ok_buffers _ _ _ _ Kl) as (zv & _ & Hz & Lz & _ & _).
  destruct (backward_raise s0 p (set_a_grad (Some (length (vecs s))) lo) a zv
              (length (vecs s)) dv) as (s' & Run); trivial.
  { cbn. now rewrite <- En, list_lookup_alter_eq, Hlo'. }
  { cbn. now apply lookup_app_l_Some. }
  { cbn. rewrite lookup_app_r by lia. now rewrite Nat.sub_diag. }
  { congruence. }
  { congruence. }
  exists "non-broadcastable output operand"%string, s'.
  unfold backprop. erewrite bind_ok by (apply run_last_layer; exact Hlo). cbn beta iota.
  erewrite bind_ok by (apply run_read_vec; exact Hpv).
  erewrite bind_ok by reflexivity. cbn beta. rewrite Hlf. cbn [loss_derivative_obj].
  rewrite Hd. erewrite bind_ok by reflexivity.
  erewrite bind_ok by reflexivity.
  erewrite bind_ok by reflexivity.
  erewrite bind_ok by reflexivity. cbn beta.
  apply bind_raise.
  assert (Len0 : length (layers (self s0)) = S (S p)).
  { cbn. rewrite length_alter. fold n. lia. }
  fold n. change (for_each (rev (seq 0 (length (layers (self s0))))) backward s0 =
          (Raise (ValueError "non-broadcastable output operand"), s')).
  rewrite Len0, rev_seq_S. cbn [for_each]. apply bind_raise. exact Run.
Qed.

Lemma wf_last (s : state) :
  wf s = true ->
  exists lo pv, last (layers (self s)) = Some lo /\
                vecs s !! activations lo = Some pv /\
                length pv = neuron_count lo /\ output_count s = neuron_count lo.
Proof.
  intros W. pose proof (wf_length _ W) as Len.
  assert (is_Some (layers (self s) !! pred (length (layers (self s))))) as [lo Hlo]
    by (apply lookup_lt_is_Some; lia).
  destruct (layer_ok_buffers _ _ _ _ (wf_lookup _ _ _ W Hlo)) as (_ & pv & _ & _ & Hpv & Lpv).
  rewrite <- last_lookup in Hlo. exists lo, pv. split_and!; trivial.
  now apply output_count_last.
Qed.

Lemma current_cost_raise (s : state) (targets : vec) :
  wf s = true -> length targets <> output_count s ->
  current_cost targets s = (Raise shape_error_targets, s).
Proof.
  intros W L. destruct (wf_last s W) as (lo & pv & Hlo & Hpv & Lpv & Out).
  unfold current_cost. erewrite bind_ok by (apply run_last_layer; exact Hlo). cbn beta iota.
  erewrite bind_ok by (apply run_read_vec; exact Hpv).
  replace (length pv =? length targets) with false; [reflexivity|].
  symmetry. apply Nat.eqb_neq. congruence.
Qed.

Lemma backprop_raise_derivative (s : state) targets lf lo pv e :
  loss_func (self s) = ObjLoss lf ->
  last (layers (self s)) = Some lo -> vecs s !! activations lo = Some pv ->
  loss_derivative lf pv targets = Raise e ->
  backprop targets s = (Raise e, s).
Proof.
  intros Hlf Hlo Hpv Hd.
  unfold backprop. erewrite bind_ok by (apply run_last_layer; exact Hlo). cbn beta iota.
  erewrite bind_ok by (apply run_read_vec; exact Hpv).
  erewrite bind_ok by reflexivity. cbn beta. rewrite Hlf. cbn [loss_derivative_obj].
  rewrite Hd. reflexivity.
Qed.

(** C3, as the code has it.  With a target vector whose length is not the
    output layer's neuron count, [current_cost] raises its shape error and
    changes nothing.  [backprop] has no check of its own: it raises numpy's
    broadcasting [ValueError] when the target length is not one, and when
    the target has a single value it returns normally (the value is
    broadcast against every output). *)
Theorem C3_mismatched_targets (s : state) (targets : vec) :
  wf s = true -> length targets <> output_count s ->
  current_cost targets s = (Raise shape_error_targets, s) /\
  (forall lf, loss_func (self s) = ObjLoss lf ->
     (length targets <> 1 ->
        exists msg s', backprop targets s = (Raise (ValueError msg), s')) /\
     (length targets = 1 ->
        exists g s', backprop targets s = (Ok g, s'))).
Proof.
  intros W L. split; [now apply current_cost_raise|].
  intros lf Hlf. destruct (wf_last s W) as (lo & pv & Hlo & Hpv & Lpv & Out). split.
  - intros L1. destruct (decide (neuron_count lo = 1)) as [One|Many].
    + eapply backprop_raise_single_output; eauto. congruence.
    + eexists _, s. eapply backprop_raise_derivative; eauto.
      apply loss_derivative_raise; congruence.
  - intros L1. destruct (loss_derivative_target1 lf pv targets L1) as (dv & Hd & Ld).
    destruct (backprop_run s targets lf lo pv dv W Hlf Hlo Hpv Hd) as (g & s' & _ & Run & _);
      [congruence|].
    eauto.
Qed.






(** ** Losses and training parameters *)

(** C4.  On two one-dimensional arrays of equal length, the cost of
    Categorical Cross-Entropy is no scalar: the clamped predictions, their
    logarithm and the product with the targets are computed, and the sum
    over axis 1 of that one-dimensional product raises. *)
Theorem C4_categorical_cross_entropy_cost (predictions targets : vec) :
  length predictions = length targets ->
  loss_cost CategoricalCrossEntropy predictions targets =
  Raise (AxisError "axis 1 is out of bounds for array of dimension 1").
Proof.
  intros H. unfold loss_cost, loss_call.
  rewrite vbroadcast2_same by (rewrite length_map, length_clip_eps; congruence).
  reflexivity.
Qed.

(** The other three losses do reduce such a pair to the mean of their
    elementwise error. *)
Lemma elementwise_loss_cost lf (predictions targets : vec) :
  lf <> CategoricalCrossEntropy -> length predictions = length targets ->
  exists e, loss_call lf predictions targets = Ok (Arr1 e) /\
            length e = length predictions /\
            loss_cost lf predictions targets = Ok (np_mean e).
Proof.
  intros N H. unfold loss_cost. destruct lf; cbn; try congruence.
  - rewrite vbroadcast2_same by trivial. cbn. eexists. split_and!; try reflexivity.
    rewrite length_map. now apply length_zip_with_same.
  - rewrite vbroadcast2_same by trivial. cbn. eexists. split_and!; try reflexivity.
    rewrite length_map. now apply length_zip_with_same.
  - assert (L1 : length targets = length (map flog (clip_eps predictions)))
      by (rewrite length_map, length_clip_eps; congruence).
    assert (L2 : length (map (fsub fone) targets) =
                 length (map (fun p => flog (fsub fone p)) (clip_eps predictions)))
      by (rewrite !length_map, length_clip_eps; congruence).
    rewrite (vbroadcast2_same _ _ _ L1). cbn.
    rewrite (vbroadcast2_same _ _ _ L2). cbn.
    rewrite vbroadcast2_same
      by (rewrite (length_zip_with_same _ _ _ L1), (length_zip_with_same _ _ _ L2), length_map;
          reflexivity).
    cbn. eexists. split_and!; try reflexivity.
    rewrite length_map, length_zip_with_same.
    + rewrite (length_zip_with_same _ _ _ L1). congruence.
    + rewrite (length_zip_with_same _ _ _ L1), (length_zip_with_same _ _ _ L2), length_map.
      reflexivity.
Qed.

(** What [train] does reject before any work: an empty sequence, and a
    validation split outside [0, 1).  The state, generators included, is the
    one before the call. *)
Lemma train_rejects_empty_sequence (s : state) epochs batch_size learning_rate validation_split :
  train (PySequence []) epochs batch_size learning_rate validation_split s =
  (Raise (ValueError "Training dataset is empty."), s).
Proof. reflexivity. Qed.

Lemma train_rejects_validation_split (s : state) dataset epochs batch_size learning_rate
    validation_split :
  fleb fzero validation_split && fltb validation_split fone = false ->
  exists msg,
    train dataset epochs batch_size learning_rate validation_split s =
    (Raise (ValueError msg), s).
Proof.
  intros H. unfold train. destruct (truthy dataset); cbn [negb].
  - rewrite H. cbn [negb]. eexists. reflexivity.
  - eexists. reflexivity.
Qed.

(** ** [load] on a file that names an unknown activation function *)

Lemma get_class_by_name_activation name a :
  get_class_by_name name = Ok (ObjActivation a) -> known_activation name = true.
Proof.
  unfold get_class_by_name, globals, known_activation. cbn [existsb].
  repeat match goal with
         | |- context [String.eqb name ?x] => destruct (String.eqb name x) eqn:?
         end; cbn; try discriminate; trivial.
Qed.

Lemma map_result_lookup {A B} (f : A -> result B) xs ys :
  map_result f xs = Ok ys ->
  length ys = length xs /\
  forall j x, xs !! j = Some x -> exists y, ys !! j = Some y /\ f x = Ok y.
Proof.
  revert ys. induction xs as [|x xs IH]; intros ys; cbn.
  - intros [= <-]. split; [trivial|]. intros j x H. discriminate.
  - destruct (f x) as [y|e] eqn:Hf; cbn; [|discriminate].
    destruct (map_result f xs) as [ys'|e]; cbn; [|discriminate].
    intros [= <-]. destruct (IH ys' eq_refl) as [L H]. split; [cbn; congruence|].
    intros [|j] x'; cbn.
    + intros [= <-]. eauto.
    + apply H.
Qed.

Lemma Layer_init_not_activation count prev o (s : state) :
  is_activation o = false ->
  exists e, Layer_init count (Some prev) o s = (Raise e, s).
Proof.
  intros H. unfold Layer_init. destruct prev as [p lp], o; try discriminate;
    eexists; reflexivity.
Qed.

Lemma build_layers_raise objs j o : forall sizes i prev acc (s : state),
  objs !! j = Some o -> is_activation o = false ->
  i <= j < i + length sizes ->
  exists e s', build_layers sizes (S i) (Some prev) objs acc s = (Raise e, s').
Proof.
  induction sizes as [|c sizes IH]; intros i prev acc s Ho Hn Hj; cbn in Hj; [lia|].
  cbn [build_layers]. replace (S i - 1) with i by lia.
  destruct (decide (i = j)) as [->|Ne].
  - rewrite Ho. cbn. destruct (Layer_init_not_activation c prev o s Hn) as (e & He).
    exists e, s. now apply bind_raise.
  - destruct (Layer_init c (Some prev) (default ObjNone (objs !! i)) s) as [[layer|e] s1] eqn:E.
    + destruct (IH (S i) (S i, layer) (acc ++ [layer]) s1 Ho Hn) as (e & s' & R); [lia|].
      exists e, s'. erewrite bind_ok by exact E. exact R.
    + exists e, s1. now apply bind_raise.
Qed.

Lemma forallb_false_exists {A} (f : A -> bool) (l : list A) :
  forallb f l = false -> exists j x, l !! j = Some x /\ f x = false.
Proof.
  induction l as [|x l IH]; cbn; [discriminate|].
  destruct (f x) eqn:E; cbn.
  - intros H. destruct (IH H) as (j & y & Hj & Hy). exists (S j), y. auto.
  - intros _. exists 0, x. auto.
Qed.

Lemma NeuralNetwork_init_raise sizes objs loss (s : state) j o :
  objs !! j = Some o -> is_activation o = false ->
  exists e s', NeuralNetwork_init sizes (ActivationList objs) loss s = (Raise e, s').
Proof.
  intros Ho Hn. unfold NeuralNetwork_init.
  destruct (length sizes <? 2) eqn:L2; [eexists _, s; reflexivity|].
  destruct (length objs =? length sizes - 1) eqn:L; cbn [negb]; [|eexists _, s; reflexivity].
  apply Nat.ltb_ge in L2. apply Nat.eqb_eq in L.
  destruct sizes as [|c0 sizes]; [cbn in L2; lia|]. cbn [build_layers].
  destruct (Layer_init c0 None ActivationFunction_default s) as [[layer|e] s1] eqn:E.
  - destruct (build_layers_raise objs j o sizes 0 (0, layer) ([] ++ [layer]) s1 Ho Hn)
      as (e & s' & R).
    { apply lookup_lt_Some in Ho. cbn in L. lia. }
    exists e, s'. apply bind_raise. erewrite bind_ok by exact E. exact R.
  - exists e, s1. apply bind_raise. now apply bind_raise.
Qed.

(** C5, as the code has it.  A save file whose activation-name line
    contains a name that is not one of the module's activation classes makes
    [load] raise (no network is returned, and no "no model" result either);
    [load] of a path that does not exist returns [None]. *)
Theorem C5_load_unknown_activation (s : state) filepath text header rest
    counts_line names_line loss_line :
  files s !! filepath = Some text ->
  split_blank text = header :: rest ->
  split_char newline_char header = [counts_line; names_line; loss_line] ->
  forallb known_activation (split_char comma_char names_line) = false ->
  (exists e s', load filepath s = (Raise e, s')) /\
  (forall absent, files s !! absent = None -> load absent s = (Ok None, s)).
Proof.
  intros Hf Hb Hl Hn. split.
  - unfold load. erewrite bind_ok by reflexivity. cbn beta. rewrite Hf, Hb.
    cbn [load_blocks]. rewrite Hl.
    destruct (map_result parse_int (split_char comma_char counts_line)) as [sizes|e] eqn:E1;
      [|eexists _, s; reflexivity].
    erewrite bind_ok by reflexivity.
    destruct (map_result get_class_by_name (split_char comma_char names_line)) as [objs|e] eqn:E2;
      [|eexists _, s; reflexivity].
    erewrite bind_ok by reflexivity.
    destruct (get_class_by_name loss_line) as [loss|e] eqn:E3; [|eexists _, s; reflexivity].
    erewrite bind_ok by reflexivity.
    assert (exists j o, objs !! j = Some o /\ is_activation o = false) as (j & o & Ho & Hno).
    { destruct (map_result_lookup _ _ _ E2) as [_ H].
      apply forallb_false_exists in Hn as (j & name & Hj & Hk).
      destruct (H j name Hj) as (o & Ho & Hg). exists j, o. split; [trivial|].
      destruct o; trivial. apply get_class_by_name_activation in Hg. congruence. }
    destruct (NeuralNetwork_init_raise sizes objs loss s j o Ho Hno) as (e & s' & R).
    exists e, s'. now apply bind_raise.
  - intros absent Ha. unfold load. erewrite bind_ok by reflexivity. cbn beta. now rewrite Ha.
Qed.

(** ** Shapes are kept by every method *)

Lemma shape_le_refl (s : state) : shape_le s s.
Proof. split; eauto. Qed.

Lemma shape_le_trans (s1 s2 s3 : state) : shape_le s1 s2 -> shape_le s2 s3 -> shape_le s1 s3.
Proof.
  intros [V1 M1 S1] [V2 M2 S2]. split.
  - intros r v H. destruct (V1 r v H) as (v' & H' & L'). destruct (V2 r v' H') as (v'' & H'' & L'').
    exists v''. split; [trivial|congruence].
  - intros r W H. destruct (M1 r W H) as (W' & H' & A & B & C).
    destruct (M2 r W' H') as (W'' & H'' & A' & B' & C').
    exists W''. split_and!; [trivial|congruence|congruence|auto].
  - congruence.
Qed.

Lemma owns_params_shape_le (s s' : state) cs i l l' :
  shape_le s s' -> static l' = static l ->
  owns_params s cs i l = true -> owns_params s' cs i l' = true.
Proof.
  intros [V Mm _] E. injection E as E1 E2 E3 E4 E5.
  unfold owns_params. rewrite E1, E4, E5. destruct i as [|p]; [trivial|].
  destruct (cs !! p), (weights l) as [w|], (biases l) as [b|]; trivial.
  rewrite !andb_true_iff. intros [H1 H2]. split.
  - apply has_mat_spec in H1 as (W & HW & Hs). apply has_mat_spec.
    destruct (Mm w W HW) as (W' & HW' & A & B & C). exists W'. split; [trivial|].
    unfold has_shape in *. rewrite !andb_true_iff in *. destruct Hs as [[R1 R2] R3].
    rewrite A, B. auto.
  - apply has_vec_spec in H2 as (v & Hv & L). apply has_vec_spec.
    destruct (V b v Hv) as (v' & Hv' & L'). exists v'. split; [trivial|congruence].
Qed.

Lemma params_ok_shape_le (s s' : state) :
  params_ok s = true -> shape_le s s' -> params_ok s' = true.
Proof.
  intros W E. unfold params_ok in *. pose proof (sl_static _ _ E) as St.
  rewrite (static_counts _ _ St). apply all_layers_lookup. intros j l' Hl'.
  destruct (static_lookup _ _ _ _ St Hl') as (l & Hl & El).
  rewrite all_layers_lookup in W. specialize (W j l Hl).
  eapply owns_params_shape_le; eauto.
Qed.

Lemma steady_ret {A} (a : A) : steady (ret a : M A).
Proof. intros s. apply shape_le_refl. Qed.

Lemma steady_mret {A} (a : A) : steady (mret a : M A).
Proof. intros s. apply shape_le_refl. Qed.

Lemma steady_raise {A} e : steady (raise e : M A).
Proof. intros s. apply shape_le_refl. Qed.

Lemma steady_lift {A} (r : result A) : steady (lift r : M A).
Proof. intros s. apply shape_le_refl. Qed.

Lemma steady_gets {A} (f : state -> A) : steady (gets f).
Proof. intros s. apply shape_le_refl. Qed.

Lemma steady_bind {A B} (m : M A) (k : A -> M B) :
  steady m -> (forall a, steady (k a)) -> steady (m ≫= k).
Proof.
  intros Hm Hk s. unfold mbind, M_bind, bind. specialize (Hm s).
  destruct (m s) as [[a|e] s1]; cbn in *; [|exact Hm].
  eapply shape_le_trans; [exact Hm|]. apply Hk.
Qed.

Lemma steady_none_attr {A} attr : steady (none_attr attr : M A).
Proof. apply steady_raise. Qed.

Lemma steady_none_operand {A} op : steady (none_operand op : M A).
Proof. apply steady_raise. Qed.

Lemma steady_not_iterable {A} : steady (not_iterable : M A).
Proof. apply steady_raise. Qed.

Lemma steady_some_ref {A} (o : option A) op : steady (some_ref o op).
Proof. destruct o; [apply steady_ret | apply steady_raise]. Qed.

Lemma steady_read_vec r : steady (read_vec r).
Proof. apply steady_gets. Qed.

Lemma steady_read_mat r : steady (read_mat r).
Proof. apply steady_gets. Qed.

Lemma steady_alloc_vec v : steady (alloc_vec v).
Proof.
  intros s. split; cbn; eauto.
  intros r x H. exists x. split; [now apply lookup_app_l_Some|trivial].
Qed.

Lemma steady_alloc_mat W : steady (alloc_mat W).
Proof.
  intros s. split; cbn; eauto.
  intros r x H. exists x. split_and!; [now apply lookup_app_l_Some|trivial..].
Qed.

Lemma steady_inplace_vec r (f : vec -> result vec) :
  (forall v v', f v = Ok v' -> length v' = length v) -> steady (inplace_vec r f).
Proof.
  intros Hf s. unfold inplace_vec, read_vec, write_vec, lift, gets, modify, mbind, M_bind, bind.
  cbn. destruct (f (default [] (vecs s !! r))) as [v'|e] eqn:E; cbn; [|apply shape_le_refl].
  split; cbn; eauto. intros q x H. destruct (decide (r = q)) as [->|Ne].
  - exists v'. split; [apply list_lookup_insert_eq; eapply lookup_lt_Some; eauto|].
    rewrite H in E. cbn in E. now apply Hf.
  - exists x. split; [now rewrite list_lookup_insert_ne|trivial].
Qed.

Lemma steady_inplace_mat r (f : matrix -> result matrix) :
  (forall W W', f W = Ok W' ->
     nrows W' = nrows W /\ mcols W' = mcols W /\ (rectangular W = true -> rectangular W' = true)) ->
  steady (inplace_mat r f).
Proof.
  intros Hf s. unfold inplace_mat, read_mat, write_mat, lift, gets, modify, mbind, M_bind, bind.
  cbn. destruct (f (default (mkMatrix [] 0) (mats s !! r))) as [v'|e] eqn:E; cbn;
    [|apply shape_le_refl].
  split; cbn; eauto. intros q x H. destruct (decide (r = q)) as [->|Ne].
  - exists v'. split; [apply list_lookup_insert_eq; eapply lookup_lt_Some; eauto|].
    rewrite H in E. cbn in E. now apply Hf.
  - exists x. split_and!; [now rewrite list_lookup_insert_ne|trivial..].
Qed.

Lemma steady_upd_layer i (f : Layer -> Layer) :
  (forall l, static (f l) = static l) -> steady (upd_layer i f).
Proof.
  intros Hf s. split; cbn; eauto. now apply static_alter.
Qed.

Lemma steady_get_layer i : steady (get_layer i).
Proof.
  unfold get_layer. apply steady_bind; [apply steady_gets|]. intros n.
  destruct (layers n !! i); [apply steady_ret | apply steady_raise].
Qed.

Lemma steady_last_layer : steady last_layer.
Proof.
  unfold last_layer. apply steady_bind; [apply steady_gets|]. intros n.
  destruct (last (layers n)); [apply steady_ret | apply steady_raise].
Qed.

Lemma steady_for_each {A} (xs : list A) (body : A -> M unit) :
  (forall x, steady (body x)) -> steady (for_each xs body).
Proof.
  intros H. induction xs as [|x xs IH]; cbn; [apply steady_ret|].
  apply steady_bind; auto.
Qed.

Lemma steady_modify_rng_cost (f : state -> state) :
  (forall s, vecs (f s) = vecs s /\ mats (f s) = mats s /\
             map static (layers (self (f s))) = map static (layers (self s))) ->
  steady (modify f).
Proof.
  intros H s. destruct (H s) as (V & Mm & St). split; cbn.
  - intros r v Hv. exists v. rewrite V. auto.
  - intros r W HW. exists W. rewrite Mm. auto.
  - exact St.
Qed.

Lemma vinplace_length op (a b a' : vec) : vinplace op a b = Ok a' -> length a' = length a.
Proof.
  unfold vinplace. destruct (length a =? length b) eqn:E.
  - apply Nat.eqb_eq in E. intros [= <-]. now apply length_zip_with_same.
  - destruct b as [|y [|]]; try discriminate. intros [= <-]. apply length_map.
Qed.

Lemma mbuild_shape r c (f : nat -> nat -> F) :
  nrows (mbuild r c f) = r /\ mcols (mbuild r c f) = c /\ rectangular (mbuild r c f) = true.
Proof.
  unfold mbuild, nrows, rectangular. cbn. rewrite length_map, length_seq. split_and!; trivial.
  apply forallb_forall. intros x Hx. apply in_map_iff in Hx as (i & <- & _).
  rewrite length_map, length_seq. apply Nat.eqb_refl.
Qed.

Lemma minplace_shape op (A B A' : matrix) :
  minplace op A B = Ok A' ->
  nrows A' = nrows A /\ mcols A' = mcols A /\ (rectangular A = true -> rectangular A' = true).
Proof.
  unfold minplace. destruct (bdim (nrows A) (nrows B)) as [r|]; [|discriminate].
  destruct (bdim (mcols A) (mcols B)) as [c|]; [|discriminate].
  destruct ((r =? nrows A) && (c =? mcols A)) eqn:E; [|discriminate].
  apply andb_true_iff in E as [E1 E2]. apply Nat.eqb_eq in E1, E2. intros [= <-].
  destruct (mbuild_shape r c (fun i j => op (mget A i j) (mget B i j))) as (H1 & H2 & H3).
  split_and!; [congruence | congruence | auto].
Qed.

Lemma mmap_shape (f : F -> F) (A : matrix) :
  nrows (mmap f A) = nrows A /\ mcols (mmap f A) = mcols A /\
  (rectangular A = true -> rectangular (mmap f A) = true).
Proof.
  unfold mmap, nrows, rectangular. cbn. rewrite length_map. split_and!; trivial.
  rewrite !forallb_forall. intros H x Hx. apply in_map_iff in Hx as (y & <- & Hy).
  rewrite length_map. now apply H.
Qed.

Create HintDb steady discriminated.

#[local] Hint Resolve steady_ret steady_mret steady_raise steady_lift steady_gets
  steady_none_attr steady_none_operand steady_not_iterable steady_some_ref
  steady_read_vec steady_read_mat steady_alloc_vec steady_alloc_mat
  steady_get_layer steady_last_layer : steady.

Ltac steady_step :=
  match goal with
  | |- steady (_ ≫= _) => apply steady_bind; [|intros]
  | |- steady (match ?x with _ => _ end) => destruct x
  | |- steady (upd_layer _ _) => apply steady_upd_layer; intros; reflexivity
  | |- steady (modify _) => apply steady_modify_rng_cost; intros; cbn; auto
  | |- steady (inplace_vec _ _) =>
      apply steady_inplace_vec; intros ? ? ?;
      first [ eapply vinplace_length; eassumption
            | match goal with H : Ok _ = Ok _ |- _ => injection H as <-; apply length_map end ]
  | |- steady (inplace_mat _ _) =>
      apply steady_inplace_mat; intros ? ? ?;
      first [ eapply minplace_shape; eassumption
            | match goal with H : Ok _ = Ok _ |- _ => injection H as <-; apply mmap_shape end ]
  | |- steady _ => solve [auto with steady]
  end.

Ltac steady_tac := repeat steady_step.

Lemma steady_act_call_obj o x : steady (act_call_obj o x).
Proof. unfold act_call_obj. steady_tac. Qed.

Lemma steady_act_derivative_obj o x : steady (act_derivative_obj o x).
Proof. unfold act_derivative_obj. steady_tac. Qed.

#[local] Hint Resolve steady_act_call_obj steady_act_derivative_obj : steady.

Lemma steady_forward i : steady (forward i).
Proof. unfold forward. steady_tac. Qed.

Lemma steady_backward i : steady (backward i).
Proof. unfold backward. steady_tac. Qed.

#[local] Hint Resolve steady_forward steady_backward : steady.

Lemma steady_predict_loop idxs b inputs : steady (predict_loop idxs b inputs).
Proof.
  revert b. induction idxs as [|i idxs IH]; intros b; cbn; [steady_tac|].
  destruct b; steady_tac; apply IH.
Qed.

#[local] Hint Resolve steady_predict_loop : steady.

Lemma steady_predict inputs : steady (predict inputs).
Proof. unfold predict. steady_tac. Qed.

Lemma steady_loss_cost_obj o p t : steady (loss_cost_obj o p t).
Proof. unfold loss_cost_obj. steady_tac. Qed.

Lemma steady_loss_derivative_obj o p t : steady (loss_derivative_obj o p t).
Proof. unfold loss_derivative_obj. steady_tac. Qed.

#[local] Hint Resolve steady_loss_cost_obj steady_loss_derivative_obj : steady.

Lemma steady_current_cost targets : steady (current_cost targets).
Proof. unfold current_cost. steady_tac. Qed.

Lemma steady_backprop targets : steady (backprop targets).
Proof.
  unfold backprop. steady_tac. apply steady_for_each. intros i. apply steady_backward.
Qed.

#[local] Hint Resolve steady_predict steady_current_cost steady_backprop : steady.

Lemma steady_update_loop idxs idx g lr : steady (update_loop idxs idx g lr).
Proof.
  revert idx. induction idxs as [|i idxs IH]; intros idx; cbn; [steady_tac|].
  steady_tac; apply IH.
Qed.

Lemma steady_update_weights g lr : steady (update_weights g lr).
Proof. unfold update_weights. steady_tac. apply steady_update_loop. Qed.

Lemma steady_random_shuffle {A} (l : list A) : steady (random_shuffle l).
Proof.
  unfold random_shuffle. apply steady_bind; [apply steady_gets|]. intros g.
  destruct (shuffle_from (length l - 1) l g). steady_tac.
Qed.

Lemma steady_zeros_like_mat r : steady (zeros_like_mat r).
Proof. unfold zeros_like_mat. steady_tac. Qed.

Lemma steady_zeros_like_vec r : steady (zeros_like_vec r).
Proof. unfold zeros_like_vec. steady_tac. Qed.

#[local] Hint Resolve steady_random_shuffle steady_zeros_like_mat steady_zeros_like_vec : steady.

Lemma steady_init_moments ls : steady (init_moments ls).
Proof. induction ls as [|l ls IH]; cbn; steady_tac; apply IH. Qed.

Lemma steady_accumulate gs g : steady (accumulate gs g).
Proof. unfold accumulate. apply steady_for_each. intros i. steady_tac. Qed.

Lemma steady_average gs n : steady (average gs n).
Proof. unfold average. apply steady_for_each. intros [sw sb]. steady_tac. Qed.

#[local] Hint Resolve steady_init_moments steady_accumulate steady_average : steady.

Lemma steady_adam_loop gs : forall i gradient_sum lr t m_t v_t,
  steady (adam_loop gs i gradient_sum lr t m_t v_t).
Proof.
  induction gs as [|x gs IH]; intros i gradient_sum lr t m_t v_t; cbn; [steady_tac|].
  steady_tac; apply IH.
Qed.

Lemma steady_batch_loop batch : forall gradient_sum cost_sum count,
  steady (batch_loop batch gradient_sum cost_sum count).
Proof.
  induction batch as [|[inputs targets] batch IH]; intros gradient_sum cost_sum count; cbn;
    [steady_tac|].
  steady_tac; apply IH.
Qed.

#[local] Hint Resolve steady_adam_loop steady_batch_loop : steady.

Lemma steady_batches_loop starts : forall training_data batch_size lr t m_t v_t cost_sum count,
  steady (batches_loop starts training_data batch_size lr t m_t v_t cost_sum count).
Proof.
  induction starts as [|x starts IH]; intros training_data batch_size lr t m_t v_t cost_sum count;
    cbn; [steady_tac|].
  steady_tac; apply IH.
Qed.

Lemma steady_rounded_mean total count : steady (rounded_mean total count).
Proof. unfold rounded_mean. steady_tac. Qed.

Lemma steady_validation_loop data : forall total count,
  steady (validation_loop data total count).
Proof.
  induction data as [|[inputs targets] data IH]; intros total count; cbn; [steady_tac|].
  steady_tac; apply IH.
Qed.

#[local] Hint Resolve steady_batches_loop steady_rounded_mean steady_validation_loop : steady.

Lemma steady_epochs_loop epochs : forall training_data validation_data batch_size lr vs t m_t v_t,
  steady (epochs_loop epochs training_data validation_data batch_size lr vs t m_t v_t).
Proof.
  induction epochs as [|e IH]; intros training_data validation_data batch_size lr vs t m_t v_t;
    cbn; [steady_tac|].
  steady_tac; apply IH.
Qed.

Lemma steady_train dataset epochs batch_size lr vs :
  steady (train dataset epochs batch_size lr vs).
Proof. unfold train. steady_tac. apply steady_epochs_loop. Qed.

(** ** Construction *)

Lemma normal_row_length c (sc : F) g : length (normal_row c sc g).1 = c.
Proof.
  revert g. induction c as [|c IH]; intros g; cbn; [trivial|].
  destruct (normal g sc) as [x g1]. specialize (IH g1).
  destruct (normal_row c sc g1) as [xs g2]. cbn in *. congruence.
Qed.

Lemma normal_rows_shape r c (sc : F) g :
  length (normal_rows r c sc g).1 = r /\
  Forall (fun row => length row = c) (normal_rows r c sc g).1.
Proof.
  revert g. induction r as [|r IH]; intros g; cbn; [auto|].
  pose proof (normal_row_length c sc g) as L.
  destruct (normal_row c sc g) as [x g1]. specialize (IH g1).
  destruct (normal_rows r c sc g1) as [xs g2]. cbn in *. destruct IH as [IH1 IH2].
  split; [congruence|]. constructor; trivial.
Qed.

Lemma np_random_normal_shape (sc : F) r c g :
  has_shape (np_random_normal sc r c g).1 r c = true.
Proof.
  unfold np_random_normal. pose proof (normal_rows_shape r c sc g) as [H1 H2].
  destruct (normal_rows r c sc g) as [rows g']. cbn in *.
  apply has_shape_spec. cbn. auto.
Qed.

Lemma has_shape_mmap (f : F -> F) (W : matrix) r c :
  has_shape W r c = true -> has_shape (mmap f W) r c = true.
Proof.
  unfold has_shape. rewrite !andb_true_iff. intros [[H1 H2] H3].
  destruct (mmap_shape f W) as (A & B & C). rewrite A, B. auto.
Qed.

Lemma init_weights_shape a n m g (W : matrix) g' :
  init_weights a n m g = Ok (W, g') -> has_shape W n m = true.
Proof.
  unfold init_weights. destruct a.
  - intros [= E]. pose proof (np_random_normal_shape (fdiv fone (fsqrt (f_of_nat n))) n m g) as H.
    destruct (np_random_normal _ n m g) as [W0 g0]. injection E as <- <-. exact H.
  - destruct (n =? 0); [discriminate|].
    pose proof (np_random_normal_shape (fsqrt (fdiv (flit 2 0) (f_of_nat n))) n m g) as H.
    destruct (np_random_normal _ n m g) as [W0 g0]. intros [= <- <-].
    now apply has_shape_mmap.
  - destruct (n =? 0); [discriminate|]. intros [= E].
    pose proof (np_random_normal_shape (fsqrt (fdiv (flit 2 0) (f_of_nat n))) n m g) as H.
    destruct (np_random_normal _ n m g) as [W0 g0]. injection E as <- <-. exact H.
Qed.

Lemma length_np_zeros n : length (np_zeros n : vec) = n.
Proof. apply length_replicate. Qed.

(** What one [Layer(...)] call adds to the store. *)
Lemma Layer_init_spec c prev o (s s' : state) l :
  Layer_init c prev o s = (Ok l, s') ->
  (exists mv mm, vecs s' = vecs s ++ mv /\ mats s' = mats s ++ mm) /\
  self s' = self s /\
  match prev with
  | None => weights l = None /\ biases l = None
  | Some (p, lp) =>
      exists w b, weights l = Some w /\ biases l = Some b /\
                  has_mat s' w (neuron_count l) (neuron_count lp) = true /\
                  has_vec s' b (neuron_count l) = true
  end.
Proof.
  unfold Layer_init. destruct prev as [[p lp]|].
  - destruct o as [|a| |]; try discriminate.
    destruct (c <? 0)%Z; [discriminate|].
    unfold mbind, M_bind, bind, gets, lift, modify, alloc_mat, alloc_vec. cbn.
    destruct (init_weights a (Z.to_nat c) (neuron_count lp) (np_random s)) as [[W g']|e] eqn:E;
      [|discriminate].
    cbn. intros [= <- <-]. cbn. split_and!; trivial.
    + exists [np_zeros (Z.to_nat c); np_zeros (Z.to_nat c); np_zeros (Z.to_nat c)], [W].
      rewrite <- !app_assoc. split; reflexivity.
    + eexists _, _. split_and!; try reflexivity.
      * unfold has_mat. cbn. rewrite lookup_app_r by lia. rewrite Nat.sub_diag. cbn.
        eapply init_weights_shape; eauto.
      * unfold has_vec. cbn. rewrite <- !app_assoc. rewrite lookup_app_r by lia.
        rewrite Nat.sub_diag. cbn. rewrite length_np_zeros. apply Nat.eqb_refl.
  - destruct (c <? 0)%Z; [discriminate|].
    unfold mbind, M_bind, bind, alloc_vec. cbn. intros [= <- <-]. cbn. split_and!; trivial.
    exists [np_zeros (Z.to_nat c); np_zeros (Z.to_nat c)], [].
    rewrite <- !app_assoc, app_nil_r. split; reflexivity.
Qed.

Lemma owns_params_store (s s' : state) cs cs' i l :
  (exists mv, vecs s' = vecs s ++ mv) -> (exists mm, mats s' = mats s ++ mm) ->
  (forall p, p < i -> cs' !! p = cs !! p) ->
  owns_params s cs i l = true -> owns_params s' cs' i l = true.
Proof.
  intros [mv V] [mm Mm] C. unfold owns_params. destruct i as [|p]; [trivial|].
  rewrite C by lia. destruct (cs !! p), (weights l), (biases l); trivial.
  rewrite !andb_true_iff. intros [H1 H2]. split.
  - eapply has_mat_app; eauto.
  - eapply has_vec_app; eauto.
Qed.

Lemma build_layers_spec objs : forall sizes i prev acc (s s' : state) ls,
  build_layers sizes i prev objs acc s = (Ok ls, s') ->
  length acc = i ->
  match i with
  | O => prev = None
  | S p => exists lp, acc !! p = Some lp /\ prev = Some (p, lp)
  end ->
  (forall j l, acc !! j = Some l -> owns_params s (counts acc) j l = true) ->
  (forall j l, ls !! j = Some l -> owns_params s' (counts ls) j l = true) /\
  self s' = self s.
Proof.
  induction sizes as [|c sizes IH]; intros i prev acc s s' ls; cbn [build_layers].
  - intros [= <- <-]. auto.
  - intros Run Len Hprev Hacc.
    apply bind_inv_ok in Run as (layer & s1 & Run1 & Run2).
    destruct (Layer_init_spec _ _ _ _ _ _ Run1) as ((mv & mm & V & Mm) & Self & Hl).
    destruct (IH (S i) (Some (i, layer)) (acc ++ [layer]) s1 s' ls Run2) as [H1 H2].
    + rewrite length_app. cbn. lia.
    + exists layer. split; [|reflexivity]. rewrite lookup_app_r by lia.
      rewrite Len, Nat.sub_diag. reflexivity.
    + intros j l Hj. destruct (decide (j < length acc)) as [Lt|Ge].
      * rewrite lookup_app_l in Hj by trivial.
        apply (owns_params_store s s1 (counts acc)); eauto.
        intros p Hp. unfold counts. rewrite map_app. apply lookup_app_l.
        rewrite length_map. lia.
      * rewrite lookup_app_r in Hj by lia.
        destruct (j - length acc) as [|k] eqn:Ek; [|destruct k; discriminate].
        injection Hj as <-. assert (j = i) as -> by lia. clear Ek Ge.
        unfold owns_params. destruct i as [|p].
        -- rewrite Hprev in Hl. destruct Hl as [-> ->]. reflexivity.
        -- destruct Hprev as (lp & Hlp & ->). destruct Hl as (w & b & -> & -> & Hm & Hv).
           unfold counts. rewrite map_app, lookup_app_l by (rewrite length_map; lia).
           rewrite list_lookup_fmap, Hlp. cbn. now rewrite Hm, Hv.
    + split; [exact H1|congruence].
Qed.

Lemma NeuralNetwork_init_params_ok sizes activation loss (s s' : state) n :
  NeuralNetwork_init sizes activation loss s = (Ok n, s') ->
  params_ok (with_self n s') = true.
Proof.
  unfold NeuralNetwork_init. destruct (length sizes <? 2); [discriminate|].
  match goal with |- context [negb ?b] => destruct b end; cbn [negb]; [|discriminate].
  intros Run. apply bind_inv_ok in Run as (ls & s1 & Run1 & Run2).
  injection Run2 as <- <-.
  destruct (build_layers_spec _ _ _ _ _ _ _ _ Run1 eq_refl eq_refl) as [H _].
  { intros j l Hj. discriminate. }
  unfold params_ok. cbn. apply all_layers_lookup. intros j l Hj. cbn.
  specialize (H j l Hj). unfold owns_params, has_mat, has_vec in *. exact H.
Qed.

(** C6.  The first layer owns neither weights nor biases, and every other
    layer owns weights of shape (own count, previous count) and as many
    biases as it has neurons ([params_ok]): this holds after construction,
    and [predict], [backprop], [update_weights] and [train] keep it,
    whatever their arguments and whether they return or raise. *)
Theorem C6_parameter_shapes_invariant (s : state) :
  params_ok s = true ->
  (forall inputs, params_ok (snd (predict inputs s)) = true) /\
  (forall targets, params_ok (snd (backprop targets s)) = true) /\
  (forall g learning_rate, params_ok (snd (update_weights g learning_rate s)) = true) /\
  (forall dataset epochs batch_size learning_rate validation_split,
     params_ok (snd (train dataset epochs batch_size learning_rate validation_split s)) = true) /\
  (forall sizes activation loss n s',
     NeuralNetwork_init sizes activation loss s = (Ok n, s') ->
     params_ok (with_self n s') = true).
Proof.
  intros P. split_and!; intros.
  - apply (params_ok_shape_le s); [trivial|]. apply steady_predict.
  - apply (params_ok_shape_le s); [trivial|]. apply steady_backprop.
  - apply (params_ok_shape_le s); [trivial|]. apply steady_update_weights.
  - apply (params_ok_shape_le s); [trivial|]. apply steady_train.
  - eapply NeuralNetwork_init_params_ok; eauto.
Qed.

(** ** [update_weights] *)

Lemma bdim_same n : bdim n n = Some n.
Proof. unfold bdim. now rewrite Nat.eqb_refl. Qed.

Lemma minplace_same op (A B : matrix) :
  nrows B = nrows A -> mcols B = mcols A ->
  minplace op A B = Ok (mbuild (nrows A) (mcols A) (fun i j => op (mget A i j) (mget B i j))).
Proof.
  intros H1 H2. unfold minplace. rewrite H1, H2, !bdim_same, !Nat.eqb_refl. reflexivity.
Qed.

Lemma melem_mbuild r c (f : nat -> nat -> F) i j :
  i < r -> j < c -> melem (mbuild r c f) i j = f i j.
Proof.
  intros Hi Hj. unfold melem, mbuild. cbn.
  rewrite (nth_indep _ [] (map (fun j => f 0 j) (seq 0 c))) by (rewrite length_map, length_seq; lia).
  rewrite (map_nth (fun i => map (fun j => f i j) (seq 0 c)) (seq 0 r) 0 i) at 1.
  rewrite seq_nth by lia. cbn.
  rewrite (nth_indep _ fzero (f i 0)) by (rewrite length_map, length_seq; lia).
  rewrite (map_nth (fun j => f i j) (seq 0 c) 0 j). now rewrite seq_nth by lia.
Qed.

Lemma mget_melem (W : matrix) i j : i < nrows W -> j < mcols W -> mget W i j = melem W i j.
Proof.
  intros Hi Hj. unfold mget, melem, bidx.
  destruct (mcols W =? 1) eqn:E1; destruct (nrows W =? 1) eqn:E2;
    rewrite ?Nat.eqb_eq in *; try reflexivity.
  - assert (i = 0) as -> by lia. assert (j = 0) as -> by lia. reflexivity.
  - assert (j = 0) as -> by lia. reflexivity.
  - assert (i = 0) as -> by lia. reflexivity.
Qed.

Lemma melem_mmap (f : F -> F) (W : matrix) i j :
  rectangular W = true -> i < nrows W -> j < mcols W ->
  melem (mmap f W) i j = f (melem W i j).
Proof.
  intros R Hi Hj. unfold melem, mmap. cbn.
  assert (exists row, mrows W !! i = Some row) as [row Hrow]
    by (apply lookup_lt_is_Some; exact Hi).
  rewrite (nth_lookup_Some _ _ _ _ Hrow).
  assert (Hrow' : map (map f) (mrows W) !! i = Some (map f row))
    by now rewrite list_lookup_fmap, Hrow.
  rewrite (nth_lookup_Some _ _ _ _ Hrow').
  unfold rectangular in R. rewrite forallb_forall in R.
  assert (L : length row = mcols W).
  { apply Nat.eqb_eq, R, list_elem_of_In, list_elem_of_lookup. eauto. }
  assert (exists x, row !! j = Some x) as [x Hx] by (apply lookup_lt_is_Some; lia).
  rewrite (nth_lookup_Some _ _ _ _ Hx).
  assert (Hx' : map f row !! j = Some (f x)) by now rewrite list_lookup_fmap, Hx.
  now rewrite (nth_lookup_Some _ _ _ _ Hx').
Qed.

(** One turn of the loop of [update_weights], on a layer with a
    predecessor. *)
Lemma update_step (s : state) i rest idx g lr l p w wg b bg (W G : matrix) bv Bv :
  layers (self s) !! i = Some l -> previous_layer l = Some p ->
  g !! idx = Some (Some wg, Some bg) -> weights l = Some w -> biases l = Some b ->
  mats s !! w = Some W -> mats s !! wg = Some G ->
  vecs s !! b = Some bv -> vecs s !! bg = Some Bv ->
  w <> wg -> b <> bg ->
  nrows G = nrows W -> mcols G = mcols W -> length Bv = length bv ->
  exists s1,
    update_loop (i :: rest) idx g lr s = update_loop rest (S idx) g lr s1 /\
    self s1 = self s /\
    mats s1 = <[w := mbuild (nrows W) (mcols W)
                       (fun i j => fsub (mget W i j)
                                        (mget (mmap (fun x => fmul x lr) (mmap clip1 G)) i j))]>
                (<[wg := mmap clip1 G]> (mats s)) /\
    vecs s1 = <[b := zip_with fsub bv (map (fun x => fmul x lr) (map clip1 Bv))]>
                (<[bg := map clip1 Bv]> (vecs s)).
Proof.
  intros Hl Hp Hg Hw Hb HW HG Hbv HBv Nw Nb R C L.
  destruct s as [[lf ls c] vs ms g1 g2 fs]. cbn in *.
  cbn [update_loop]. erewrite bind_ok by (apply run_get_layer; exact Hl).
  rewrite Hp, Hg, Hw, Hb. cbn [some_ref].
  erewrite bind_ok by reflexivity.
  erewrite bind_ok.
  2:{ unfold inplace_mat. erewrite bind_ok by (apply run_read_mat; exact HG).
      erewrite bind_ok by reflexivity. reflexivity. }
  erewrite bind_ok by reflexivity.
  erewrite bind_ok.
  2:{ unfold inplace_vec. erewrite bind_ok by (apply run_read_vec; exact HBv).
      erewrite bind_ok by reflexivity. reflexivity. }
  erewrite bind_ok by reflexivity.
  erewrite bind_ok.
  2:{ apply run_read_mat. cbn. apply list_lookup_insert_eq. eapply lookup_lt_Some; eauto. }
  erewrite bind_ok.
  2:{ unfold inplace_mat. erewrite bind_ok.
      2:{ apply run_read_mat. cbn. rewrite list_lookup_insert_ne by congruence. exact HW. }
      rewrite minplace_same.
      2:{ rewrite (proj1 (mmap_shape _ _)), (proj1 (mmap_shape _ _)). exact R. }
      2:{ rewrite (proj1 (proj2 (mmap_shape _ _))), (proj1 (proj2 (mmap_shape _ _))). exact C. }
      erewrite bind_ok by reflexivity. reflexivity. }
  erewrite bind_ok by reflexivity.
  erewrite bind_ok.
  2:{ apply run_read_vec. cbn. apply list_lookup_insert_eq. eapply lookup_lt_Some; eauto. }
  erewrite bind_ok.
  2:{ unfold inplace_vec. erewrite bind_ok.
      2:{ apply run_read_vec. cbn. rewrite list_lookup_insert_ne by congruence. exact Hbv. }
      rewrite vinplace_same by (rewrite !length_map; congruence).
      erewrite bind_ok by reflexivity. reflexivity. }
  eexists. split; [reflexivity|]. cbn. auto.
Qed.

Lemma updated_step (s s1 : state) lr w wg b bg (W G : matrix) bv Bv :
  mats s !! w = Some W -> mats s !! wg = Some G ->
  vecs s !! b = Some bv -> vecs s !! bg = Some Bv ->
  w <> wg -> b <> bg ->
  nrows G = nrows W -> mcols G = mcols W -> rectangular G = true ->
  mats s1 = <[w := mbuild (nrows W) (mcols W)
                     (fun i j => fsub (mget W i j)
                                      (mget (mmap (fun x => fmul x lr) (mmap clip1 G)) i j))]>
              (<[wg := mmap clip1 G]> (mats s)) ->
  vecs s1 = <[b := zip_with fsub bv (map (fun x => fmul x lr) (map clip1 Bv))]>
              (<[bg := map clip1 Bv]> (vecs s)) ->
  updated s s1 lr w wg b bg.
Proof.
  intros HW HG Hbv HBv Nw Nb R C RG Em Ev W0 G0 bv0 Bv0 HW0 HG0 Hbv0 HBv0.
  rewrite HW in HW0. rewrite HG in HG0. rewrite Hbv in Hbv0. rewrite HBv in HBv0.
  injection HW0 as <-. injection HG0 as <-. injection Hbv0 as <-. injection HBv0 as <-.
  rewrite Em, Ev. split_and!.
  - rewrite list_lookup_insert_ne by congruence.
    apply list_lookup_insert_eq. eapply lookup_lt_Some; eauto.
  - rewrite list_lookup_insert_ne by congruence.
    apply list_lookup_insert_eq. eapply lookup_lt_Some; eauto.
  - eexists. split; [|split; [|split]].
    + apply list_lookup_insert_eq. rewrite length_insert. eapply lookup_lt_Some; eauto.
    + apply mbuild_shape.
    + apply mbuild_shape.
    + intros i j Hi Hj. rewrite melem_mbuild by trivial.
      destruct (mmap_shape clip1 G) as (S1 & S2 & S3).
      destruct (mmap_shape (fun x => fmul x lr) (mmap clip1 G)) as (T1 & T2 & T3).
      rewrite (mget_melem W) by trivial.
      rewrite mget_melem by lia.
      rewrite melem_mmap by (auto; lia).
      rewrite melem_mmap by (auto; lia). reflexivity.
  - rewrite map_map. apply list_lookup_insert_eq. rewrite length_insert.
    eapply lookup_lt_Some; eauto.
Qed.

Lemma update_loop_run (g : gradient) (lr : F) m : forall k (s : state),
  S k + m = length (layers (self s)) ->
  (forall j l, k <= j -> layers (self s) !! S j = Some l ->
     exists p w wg b bg, previous_layer l = Some p /\
       entry (layers (self s)) g j l w wg b bg /\ ready s w wg b bg) ->
  separate (layers (self s)) g ->
  exists s', update_loop (seq (S k) m) k g lr s = (Ok tt, s') /\ self s' = self s /\
    (forall j l w wg b bg, k <= j -> entry (layers (self s)) g j l w wg b bg ->
       updated s s' lr w wg b bg) /\
    (forall r, (forall j l w wg b bg, k <= j -> entry (layers (self s)) g j l w wg b bg ->
                  r <> w /\ r <> wg) -> mats s' !! r = mats s !! r) /\
    (forall r, (forall j l w wg b bg, k <= j -> entry (layers (self s)) g j l w wg b bg ->
                  r <> b /\ r <> bg) -> vecs s' !! r = vecs s !! r).
Proof.
  induction m as [|m IH]; intros k s Hlen Hready Hsep.
  - exists s. cbn. split_and!; trivial.
    intros j l w wg b bg Hj (Hl & _). apply lookup_lt_Some in Hl. lia.
  - assert (exists l, layers (self s) !! S k = Some l) as [l Hl]
      by (apply lookup_lt_is_Some; lia).
    destruct (Hready k l (le_n _) Hl) as (p & w & wg & b & bg & Hp & He & Hr).
    pose proof He as (_ & Hw & Hb & Hg).
    destruct Hr as (W & G & bv & Bv & HW & HG & Hbv & HBv & R & C & RG & RW & L).
    destruct (Hsep _ _ _ _ _ _ _ _ _ _ _ _ He He) as (Nw & Nb & _).
    destruct (update_step s (S k) (seq (S (S k)) m) k g lr l p w wg b bg W G bv Bv
                Hl Hp Hg Hw Hb HW HG Hbv HBv Nw Nb R C L) as (s1 & Run & Eself & Em & Ev).
    pose proof (updated_step s s1 lr w wg b bg W G bv Bv HW HG Hbv HBv Nw Nb R C RG Em Ev)
      as Upd.
    assert (Fm : forall r, r <> w -> r <> wg -> mats s1 !! r = mats s !! r).
    { intros r N1 N2. rewrite Em. now rewrite !list_lookup_insert_ne by congruence. }
    assert (Fv : forall r, r <> b -> r <> bg -> vecs s1 !! r = vecs s !! r).
    { intros r N1 N2. rewrite Ev. now rewrite !list_lookup_insert_ne by congruence. }
    assert (Other : forall j l' w' wg' b' bg', S k <= j ->
              entry (layers (self s)) g j l' w' wg' b' bg' ->
              (w' <> w /\ w' <> wg /\ wg' <> w /\ wg' <> wg) /\
              (b' <> b /\ b' <> bg /\ bg' <> b /\ bg' <> bg)).
    { intros j l' w' wg' b' bg' Hj He'.
      destruct (Hsep _ _ _ _ _ _ _ _ _ _ _ _ He He') as (A1 & A2 & A3).
      destruct (Hsep _ _ _ _ _ _ _ _ _ _ _ _ He' He) as (B1 & B2 & _).
      destruct A3 as (A3 & A4 & A5 & A6); [lia|].
      split_and!; congruence. }
    destruct (IH (S k) s1) as (s' & Run' & Eself' & Upd' & Fm' & Fv').
    { rewrite Eself. lia. }
    { rewrite Eself. intros j l' Hj Hl'.
      destruct (Hready j l' ltac:(lia) Hl') as (p' & w' & wg' & b' & bg' & Hp' & He' & Hr').
      exists p', w', wg', b', bg'. split_and!; trivial.
      destruct (Other _ _ _ _ _ _ Hj He') as ((?&?&?&?) & (?&?&?&?)).
      destruct Hr' as (W' & G' & bv' & Bv' & ? & ? & ? & ? & ?).
      exists W', G', bv', Bv'. rewrite !Fm, !Fv by trivial. auto. }
    { now rewrite Eself. }
    rewrite Eself in *.
    exists s'. split_and!.
    + cbn [seq]. rewrite Run. exact Run'.
    + congruence.
    + intros j l' w' wg' b' bg' Hj He'.
      destruct (decide (j = k)) as [->|Nj].
      * destruct He as (Hl1 & Hw1 & Hb1 & Hg1), He' as (Hl2 & Hw2 & Hb2 & Hg2).
        assert (l' = l) as -> by congruence.
        assert (w' = w) as -> by congruence. assert (b' = b) as -> by congruence.
        assert (wg' = wg) as -> by congruence. assert (bg' = bg) as -> by congruence.
        intros W0 G0 bv0 Bv0 HW0 HG0 Hbv0 HBv0.
        destruct (Upd W0 G0 bv0 Bv0 HW0 HG0 Hbv0 HBv0) as (U1 & U2 & (W' & U3 & U4) & U5).
        assert (Keepm : forall r, r = w \/ r = wg -> mats s' !! r = mats s1 !! r).
        { intros r Hr. apply Fm'. intros j' l'' w'' wg'' b'' bg'' Hj' He''.
          destruct (Other _ _ _ _ _ _ Hj' He'') as ((?&?&?&?) & _).
          destruct Hr; subst r; split; congruence. }
        assert (Keepv : forall r, r = b \/ r = bg -> vecs s' !! r = vecs s1 !! r).
        { intros r Hr. apply Fv'. intros j' l'' w'' wg'' b'' bg'' Hj' He''.
          destruct (Other _ _ _ _ _ _ Hj' He'') as (_ & (?&?&?&?)).
          destruct Hr; subst r; split; congruence. }
        rewrite !Keepm, !Keepv by auto. split_and!; eauto.
      * assert (Hj' : S k <= j) by lia.
        destruct (Other _ _ _ _ _ _ Hj' He') as ((?&?&?&?) & (?&?&?&?)).
        intros W0 G0 bv0 Bv0 HW0 HG0 Hbv0 HBv0.
        apply (Upd' j l' w' wg' b' bg' Hj' He'); rewrite ?Fm, ?Fv; trivial.
    + intros r Hr. rewrite Fm'.
      * destruct (Hr k l w wg b bg (le_n _) He). now apply Fm.
      * intros j l' w' wg' b' bg' Hj He'. apply (Hr j l' w' wg' b' bg'); [lia|trivial].
    + intros r Hr. rewrite Fv'.
      * destruct (Hr k l w wg b bg (le_n _) He). now apply Fv.
      * intros j l' w' wg' b' bg' Hj He'. apply (Hr j l' w' wg' b' bg'); [lia|trivial].
Qed.

Lemma gradient_matches_lookup (s : state) cs ls : forall i g,
  gradient_matches s cs i ls g = true ->
  length g = length ls /\
  forall k l, ls !! k = Some l ->
    exists wg bg np, g !! k = Some (Some wg, Some bg) /\ cs !! (i + k) = Some np /\
      has_mat s wg (neuron_count l) np = true /\ has_vec s bg (neuron_count l) = true.
Proof.
  induction ls as [|l ls IH]; intros i [|[[wg|] [bg|]] g] H; cbn in H; try discriminate.
  - split; [reflexivity|]. intros k l Hk. discriminate.
  - destruct (cs !! i) as [np|] eqn:E; [|discriminate].
    rewrite !andb_true_iff in H. destruct H as [[H1 H2] H3].
    destruct (IH _ _ H3) as [L K]. split; [cbn; congruence|].
    intros [|k] l' Hk; cbn in Hk.
    + injection Hk as <-. exists wg, bg, np. rewrite Nat.add_0_r. auto.
    + destruct (K k l' Hk) as (wg' & bg' & np' & ? & ? & ? & ?).
      exists wg', bg', np'. rewrite Nat.add_succ_r. cbn. auto.
Qed.

Lemma omap_lookup_total {A B} (f : A -> option B) (xs : list A) :
  Forall (fun x => is_Some (f x)) xs -> forall k, omap f xs !! k = xs !! k ≫= f.
Proof.
  induction 1 as [|x xs [y Hy] _ IH]; intros k; cbn; [reflexivity|].
  rewrite Hy. destruct k; cbn; auto.
Qed.

(** Under [wf] and [gradient_matches], every layer after the first has its
    entry, with arrays of matching shapes. *)
Lemma entries_ready (s : state) (g : gradient) :
  wf s = true ->
  gradient_matches s (counts (layers (self s))) 0 (drop 1 (layers (self s))) g = true ->
  forall j l, layers (self s) !! S j = Some l ->
    exists p w wg b bg, previous_layer l = Some p /\
      entry (layers (self s)) g j l w wg b bg /\ ready s w wg b bg.
Proof.
  intros W Hg j l Hl.
  pose proof (wf_lookup s (S j) l W Hl) as Ok.
  apply layer_ok_hidden in Ok
    as (np & a & w & b & Wm & bv & Hnp & Hp & _ & Hw & Hb & HW & SW & Hbv & Lbv).
  destruct (gradient_matches_lookup _ _ _ _ _ Hg) as [_ K].
  destruct (K j l) as (wg & bg & np' & Hgj & Hnp' & HG & HB).
  { now rewrite lookup_drop. }
  cbn in Hnp'. assert (np' = np) as -> by congruence.
  apply has_mat_spec in HG as (G & HG & SG). apply has_vec_spec in HB as (Bv & HBv & LBv).
  pose proof SW as SW'. apply has_shape_spec in SW' as (R1 & C1 & _).
  pose proof SG as SG'. apply has_shape_spec in SG' as (R2 & C2 & _).
  exists j, w, wg, b, bg. split_and!; trivial.
  - unfold entry. auto.
  - exists Wm, G, bv, Bv. split_and!; trivial; try congruence.
    + unfold has_shape in SG. now rewrite !andb_true_iff in SG.
    + unfold has_shape in SW. now rewrite !andb_true_iff in SW.
Qed.

Lemma weight_refs_lookup (s : state) k l :
  wf s = true -> layers (self s) !! S k = Some l ->
  weight_refs (layers (self s)) !! k = weights l /\
  bias_refs (layers (self s)) !! k = biases l.
Proof.
  intros W Hl. pose proof (wf_length s W) as Len.
  destruct (layers (self s)) as [|l0 rest] eqn:E; [cbn in Len; lia|].
  assert (H0 : layers (self s) !! 0 = Some l0) by now rewrite E.
  apply (wf_lookup s 0 l0 W) in H0. apply layer_ok_input in H0 as (_ & Hw0 & Hb0 & _).
  assert (All : forall j l', rest !! j = Some l' -> is_Some (weights l') /\ is_Some (biases l')).
  { intros j l' Hj. assert (Hj' : layers (self s) !! S j = Some l') by now rewrite E.
    apply (wf_lookup s (S j) l' W) in Hj'.
    apply layer_ok_hidden in Hj' as (?&?&?&?&?&?&?&?&?&Hw&Hb&?). rewrite Hw, Hb. eauto. }
  unfold weight_refs, bias_refs. cbn. rewrite Hw0, Hb0. cbn in Hl.
  assert (Hl' : rest !! k = Some l) by exact Hl.
  rewrite (omap_lookup_total weights rest), (omap_lookup_total biases rest), Hl'; [auto | |].
  - apply Forall_lookup. intros j l' Hj. now apply (All j l').
  - apply Forall_lookup. intros j l' Hj. now apply (All j l').
Qed.

Lemma gradient_refs_lookup (s : state) cs i ls g k wg bg :
  gradient_matches s cs i ls g = true -> g !! k = Some (Some wg, Some bg) ->
  gradient_wrefs g !! k = Some wg /\ gradient_brefs g !! k = Some bg.
Proof.
  intros H Hk. destruct (gradient_matches_lookup _ _ _ _ _ H) as [L K].
  assert (All : forall j x, g !! j = Some x -> is_Some (fst x) /\ is_Some (snd x)).
  { intros j x Hj. assert (exists l, ls !! j = Some l) as [l Hl].
    { apply lookup_lt_is_Some. rewrite <- L. eapply lookup_lt_Some; eauto. }
    destruct (K j l Hl) as (wg' & bg' & ? & Hg & _). rewrite Hg in Hj. injection Hj as <-.
    cbn. eauto. }
  unfold gradient_wrefs, gradient_brefs.
  rewrite (omap_lookup_total fst g), (omap_lookup_total snd g);
    [split; [exact (f_equal (fun o => o ≫= fst) Hk) | exact (f_equal (fun o => o ≫= snd) Hk)] | |].
  - apply Forall_lookup. intros j x Hj. now apply (All j x).
  - apply Forall_lookup. intros j x Hj. now apply (All j x).
Qed.

Lemma NoDup_app_lookup (xs ys : list nat) :
  NoDup (xs ++ ys) ->
  (forall i j x, xs !! i = Some x -> xs !! j = Some x -> i = j) /\
  (forall i j x, ys !! i = Some x -> ys !! j = Some x -> i = j) /\
  (forall i j x y, xs !! i = Some x -> ys !! j = Some y -> x <> y).
Proof.
  intros H. apply NoDup_app in H as (H1 & H2 & H3). split_and!.
  - intros i j x. now apply NoDup_lookup.
  - intros i j x. now apply NoDup_lookup.
  - intros i j x y Hx Hy ->. apply (H2 y).
    + apply list_elem_of_lookup. eauto.
    + apply list_elem_of_lookup. eauto.
Qed.

Lemma entries_separate (s : state) (g : gradient) :
  wf s = true ->
  gradient_matches s (counts (layers (self s))) 0 (drop 1 (layers (self s))) g = true ->
  distinct (weight_refs (layers (self s)) ++ gradient_wrefs g) = true ->
  distinct (bias_refs (layers (self s)) ++ gradient_brefs g) = true ->
  separate (layers (self s)) g.
Proof.
  intros W Hg Dw Db k k' l l' w wg b bg w' wg' b' bg'
         (Hl & Hw & Hb & Hk) (Hl' & Hw' & Hb' & Hk').
  apply bool_decide_eq_true in Dw, Db.
  apply NoDup_app_lookup in Dw as (W1 & W2 & W3), Db as (B1 & B2 & B3).
  destruct (weight_refs_lookup s k l W Hl) as (Rw & Rb).
  destruct (weight_refs_lookup s k' l' W Hl') as (Rw' & Rb').
  destruct (gradient_refs_lookup _ _ _ _ _ _ _ _ Hg Hk) as (Gw & Gb).
  destruct (gradient_refs_lookup _ _ _ _ _ _ _ _ Hg Hk') as (Gw' & Gb').
  rewrite Hw in Rw. rewrite Hb in Rb. rewrite Hw' in Rw'. rewrite Hb' in Rb'.
  split_and!.
  - eapply W3; eauto.
  - eapply B3; eauto.
  - intros N. split_and!; intros <-; apply N; eauto.
Qed.

(** C8. For a well-formed network and a gradient list that matches its
    layers after the first (one pair of arrays per layer, of the shapes of
    the layer's weights and biases, no array shared between two entries or
    with the parameters), and for every learning rate, [update_weights]
    returns normally; for each layer after the first it has clipped the
    weight and bias gradient arrays element by element to [-1, 1], in place,
    and decremented each weight and each bias by the clipped gradient times
    the learning rate.  Clipping ([clip1]) turns an entry below -1 into
    -1 and an entry above 1 into 1, and leaves every other entry as it is.
    In particular a gradient entry above 1, such as 5.0, is clipped to 1.0
    and contributes 1.0 times the learning rate. *)
Theorem C8_update_weights_clips_then_descends (s : state) (g : gradient) (learning_rate : F) :
  wf s = true ->
  gradient_matches s (counts (layers (self s))) 0 (drop 1 (layers (self s))) g = true ->
  distinct (weight_refs (layers (self s)) ++ gradient_wrefs g) = true ->
  distinct (bias_refs (layers (self s)) ++ gradient_brefs g) = true ->
  exists s',
    update_weights g learning_rate s = (Ok tt, s') /\ self s' = self s /\
    (forall k l, layers (self s) !! S k = Some l ->
       exists w wg b bg,
         entry (layers (self s)) g k l w wg b bg /\ ready s w wg b bg /\
         updated s s' learning_rate w wg b bg) /\
    (forall x, clip1 x = if fltb x (flit (-1) 0) then flit (-1) 0
                         else if fltb (flit 1 0) x then flit 1 0 else x) /\
    (forall x, fltb x (flit (-1) 0) = false -> fltb (flit 1 0) x = true ->
       fmul (clip1 x) learning_rate = fmul (flit 1 0) learning_rate).
Proof.
  intros W Hg Dw Db.
  pose proof (wf_length s W) as Len.
  destruct (update_loop_run g learning_rate (length (layers (self s)) - 1) 0 s)
    as (s' & Run & Eself & Upd & _).
  { lia. }
  { intros j l _ Hl. now apply entries_ready. }
  { now apply entries_separate. }
  assert (exists l0, layers (self s) !! 0 = Some l0) as [l0 H0]
    by (apply lookup_lt_is_Some; lia).
  pose proof (wf_lookup s 0 l0 W H0) as Ok0. apply layer_ok_input in Ok0 as (Hp0 & _).
  exists s'. split_and!; trivial.
  - unfold update_weights. erewrite bind_ok by reflexivity.
    replace (length (layers (self s))) with (S (length (layers (self s)) - 1)) at 1 by lia.
    cbn [seq update_loop]. erewrite bind_ok by (apply run_get_layer; exact H0).
    rewrite Hp0. exact Run.
  - intros k l Hl. destruct (entries_ready s g W Hg k l Hl) as (p & w & wg & b & bg & _ & He & Hr).
    exists w, wg, b, bg. split_and!; trivial. apply (Upd k l); [lia | trivial].
  - intros x H1 H2. unfold clip1, clip_scalar. now rewrite H1, H2.
Qed.

(** ** Text: [join] and [split] *)

Lemma string_app_cons x (a b : string) : (String x a ++ b = String x (a ++ b))%string.
Proof. reflexivity. Qed.

Lemma string_app_nil_l (a : string) : (EmptyString ++ a = a)%string.
Proof. reflexivity. Qed.

Lemma string_app_assoc (a b c : string) : ((a ++ b) ++ c = a ++ (b ++ c))%string.
Proof.
  induction a as [|x a IH]; [reflexivity|]. rewrite !string_app_cons. now rewrite IH.
Qed.

Lemma string_app_nil_r (a : string) : (a ++ EmptyString = a)%string.
Proof.
  induction a as [|x a IH]; [reflexivity|]. rewrite string_app_cons. now rewrite IH.
Qed.

Lemma split_char_free c s : free_of c s = true -> split_char c s = [s].
Proof.
  induction s as [|d s IH]; cbn; [reflexivity|].
  rewrite andb_true_iff, negb_true_iff. intros [-> H]. now rewrite IH.
Qed.

Lemma split_char_app c p rest :
  free_of c p = true -> split_char c (p ++ String c rest) = p :: split_char c rest.
Proof.
  induction p as [|d p IH]; rewrite ?string_app_cons, ?string_app_nil_l; cbn.
  - intros _. now rewrite Ascii.eqb_refl.
  - rewrite andb_true_iff, negb_true_iff. intros [-> H]. now rewrite IH.
Qed.

Lemma join_cons sep p q rest :
  join sep (p :: q :: rest) = (p ++ sep ++ join sep (q :: rest))%string.
Proof. reflexivity. Qed.

Lemma split_char_join c parts :
  parts <> [] -> Forall (fun p => free_of c p = true) parts ->
  split_char c (join (String c EmptyString) parts) = parts.
Proof.
  induction parts as [|p [|q rest] IH]; intros N H.
  - congruence.
  - cbn. apply split_char_free. now inversion H.
  - rewrite join_cons. inversion H as [|? ? Hp Hrest]; subst.
    change (String c EmptyString ++ join (String c EmptyString) (q :: rest))%string
      with (String c (join (String c EmptyString) (q :: rest))).
    rewrite split_char_app by trivial. f_equal. now apply IH.
Qed.

(** [join sep] as what a sequence of writes produces. *)
Lemma join_concat sep p rest :
  join sep (p :: rest) = (p ++ fold_right (fun q acc => sep ++ q ++ acc) EmptyString rest)%string.
Proof.
  revert p. induction rest as [|q rest IH]; intros p.
  - cbn. now rewrite string_app_nil_r.
  - rewrite join_cons, IH. reflexivity.
Qed.

Lemma split_blank_step c d s :
  split_blank (String c (String d s)) =
  if Ascii.eqb c newline_char && Ascii.eqb d newline_char
  then EmptyString :: split_blank s
  else cons_head c (split_blank (String d s)).
Proof. reflexivity. Qed.

Lemma split_blank_last c tail tl :
  Ascii.eqb c newline_char = false ->
  (tail = EmptyString /\ tl = [] \/
   exists rest, tail = String newline_char (String newline_char rest) /\ tl = split_blank rest) ->
  split_blank (String c tail) = String c EmptyString :: tl.
Proof.
  intros Hc [[-> ->]|(rest & -> & ->)]; [reflexivity|].
  rewrite split_blank_step, Hc. cbn [andb].
  rewrite split_blank_step, Ascii.eqb_refl. reflexivity.
Qed.

Lemma split_blank_tight_gen n : forall s c tail tl,
  String.length s <= n -> Ascii.eqb c newline_char = false ->
  tight_from false s = true ->
  (tail = EmptyString /\ tl = [] \/
   exists rest, tail = String newline_char (String newline_char rest) /\ tl = split_blank rest) ->
  split_blank (String c s ++ tail) = String c s :: tl.
Proof.
  induction n as [|n IH]; intros s c tail tl Len Hc T E.
  - destruct s; [|cbn in Len; lia].
    rewrite string_app_cons, string_app_nil_l. now apply split_blank_last.
  - destruct s as [|d s].
    + rewrite string_app_cons, string_app_nil_l. now apply split_blank_last.
    + cbn in Len. cbn [tight_from] in T.
      rewrite !string_app_cons, split_blank_step, Hc. cbn [andb].
      destruct (Ascii.eqb d newline_char) eqn:Hd.
      * cbn in T. destruct s as [|e s]; [discriminate|]. cbn [tight_from] in T.
        destruct (Ascii.eqb e newline_char) eqn:He; [discriminate|].
        rewrite string_app_cons, split_blank_step, Hd, He. cbn [andb].
        rewrite <- string_app_cons.
        rewrite (IH s e tail tl) by (cbn in Len; trivial; lia). reflexivity.
      * rewrite <- string_app_cons.
        rewrite (IH s d tail tl) by (trivial; lia). reflexivity.
Qed.

Lemma tight_inv s :
  tight s = true ->
  exists c s', s = String c s' /\ Ascii.eqb c newline_char = false /\ tight_from false s' = true.
Proof.
  unfold tight. destruct s as [|c s']; cbn; [discriminate|].
  destruct (Ascii.eqb c newline_char) eqn:Hc; [discriminate|].
  intros T. exists c, s'. auto.
Qed.

Lemma split_blank_tight b : tight b = true -> split_blank b = [b].
Proof.
  intros T. apply tight_inv in T as (c & s & -> & Hc & T).
  rewrite <- (string_app_nil_r (String c s)) at 1.
  apply (split_blank_tight_gen (String.length s)); auto.
Qed.

Lemma split_blank_app b rest :
  tight b = true ->
  split_blank (b ++ (newline ++ newline) ++ rest) = b :: split_blank rest.
Proof.
  intros T. apply tight_inv in T as (c & s & -> & Hc & T).
  apply (split_blank_tight_gen (String.length s)); eauto.
Qed.

Lemma split_blank_join blocks :
  blocks <> [] -> Forall (fun b => tight b = true) blocks ->
  split_blank (join (newline ++ newline) blocks) = blocks.
Proof.
  induction blocks as [|b [|q rest] IH]; intros N H.
  - congruence.
  - cbn. apply split_blank_tight. now inversion H.
  - rewrite join_cons. inversion H as [|? ? Hb Hrest]; subst.
    rewrite split_blank_app by trivial. f_equal. now apply IH.
Qed.

Lemma tight_from_app f p q :
  free_of newline_char p = true ->
  tight_from f (p ++ q) = if String.eqb p EmptyString then tight_from f q else tight_from false q.
Proof.
  revert f. induction p as [|c p IH]; intros f; [reflexivity|].
  rewrite string_app_cons. cbn.
  rewrite andb_true_iff, negb_true_iff. intros [-> H]. rewrite IH by trivial.
  now destruct (String.eqb p EmptyString).
Qed.

Lemma tight_join lines :
  lines <> [] -> Forall (fun l => is_line l = true) lines ->
  tight (join newline lines) = true.
Proof.
  unfold tight, is_line.
  induction lines as [|p [|q rest] IH]; intros N H.
  - congruence.
  - inversion H as [|? ? Hp _]; subst. apply andb_true_iff in Hp as [Hp1 Hp2].
    apply negb_true_iff in Hp1. cbn.
    rewrite <- (string_app_nil_r p), tight_from_app by trivial. now rewrite Hp1.
  - inversion H as [|? ? Hp Hrest]; subst. apply andb_true_iff in Hp as [Hp1 Hp2].
    apply negb_true_iff in Hp1.
    rewrite join_cons, tight_from_app by trivial. rewrite Hp1.
    change (newline ++ join newline (q :: rest))%string
      with (String newline_char (join newline (q :: rest))).
    cbn [tight_from]. rewrite Ascii.eqb_refl. cbn. now apply IH.
Qed.

(** ** [save] *)

Lemma file_open_w_run path (s : state) :
  open_w_error path = None -> file_open_w path s = (Ok tt, wfile path EmptyString s).
Proof. intros H. unfold file_open_w. now rewrite H. Qed.

Lemma file_open_w_raise path e (s : state) :
  open_w_error path = Some e -> file_open_w path s = (Raise e, s).
Proof. intros H. unfold file_open_w. now rewrite H. Qed.

Lemma file_write_run path cur t (s : state) :
  file_write path t (wfile path cur s) = (Ok tt, wfile path (cur ++ t)%string s).
Proof.
  unfold file_write, modify, wfile, with_files. cbn.
  rewrite lookup_insert_eq. cbn. now rewrite insert_insert_eq.
Qed.

Lemma read_vec_wfile path cur (s : state) r v :
  vecs s !! r = Some v -> read_vec r (wfile path cur s) = (Ok v, wfile path cur s).
Proof. intros H. apply run_read_vec. exact H. Qed.

Lemma read_mat_wfile path cur (s : state) r W :
  mats s !! r = Some W -> read_mat r (wfile path cur s) = (Ok W, wfile path cur s).
Proof. intros H. apply run_read_mat. exact H. Qed.

Lemma save_rows path (s : state) (rows : list vec) : forall cur,
  for_each rows (fun ws =>
      file_write path newline;;
      file_write path (join comma (map str_of_float ws))) (wfile path cur s)
  = (Ok tt, wfile path (cur ++ fold_right (fun q acc => newline ++ q ++ acc) EmptyString
                                          (map line_of rows))%string s).
Proof.
  induction rows as [|ws rows IH]; intros cur.
  - cbn. now rewrite string_app_nil_r.
  - cbn [for_each map fold_right].
    erewrite bind_ok.
    2:{ erewrite bind_ok by apply file_write_run. apply file_write_run. }
    rewrite IH. unfold line_of. now rewrite !string_app_assoc.
Qed.

Lemma save_blocks path (s : state) (ls : list Layer) : forall cur,
  Forall (fun l => exists w b W bv, weights l = Some w /\ biases l = Some b /\
                                    mats s !! w = Some W /\ vecs s !! b = Some bv) ls ->
  for_each ls (fun layer =>
      file_write path (newline ++ newline);;
      b ← match biases layer with Some r => read_vec r | None => not_iterable end;
      file_write path (join comma (map str_of_float b));;
      W ← match weights layer with Some r => read_mat r | None => not_iterable end;
      for_each (mrows W) (fun ws =>
        file_write path newline;;
        file_write path (join comma (map str_of_float ws)))) (wfile path cur s)
  = (Ok tt, wfile path (cur ++ fold_right (fun q acc => (newline ++ newline) ++ q ++ acc)
                                          EmptyString
                                          (map (fun l => block_of (layer_parameters s l)) ls))%string s).
Proof.
  induction ls as [|l ls IH]; intros cur H.
  - cbn. now rewrite string_app_nil_r.
  - inversion H as [|? ? (w & b & W & bv & Hw & Hb & HW & Hbv) Hrest]; subst.
    cbn [for_each map fold_right].
    erewrite bind_ok.
    2:{ erewrite bind_ok by apply file_write_run. rewrite Hb, Hw.
        erewrite bind_ok by (apply read_vec_wfile; exact Hbv).
        erewrite bind_ok by apply file_write_run.
        erewrite bind_ok by (apply read_mat_wfile; exact HW).
        apply save_rows. }
    rewrite IH by trivial. f_equal. f_equal.
    unfold block_of, layer_parameters. rewrite Hw, Hb. cbn [mbind option_bind].
    rewrite HW, Hbv. cbn [default fst snd]. rewrite join_concat.
    unfold line_of. now rewrite !string_app_assoc.
Qed.

Lemma wf_hidden_params (s : state) :
  wf s = true ->
  Forall (fun l => exists w b W bv, weights l = Some w /\ biases l = Some b /\
                                    mats s !! w = Some W /\ vecs s !! b = Some bv)
         (drop 1 (layers (self s))).
Proof.
  intros W. apply Forall_lookup. intros k l Hk. rewrite lookup_drop in Hk.
  apply (wf_lookup s _ l W) in Hk.
  apply layer_ok_hidden in Hk as (?&?&w&b&Wm&bv&?&?&?&?&?&?&?&?&?). eauto 10.
Qed.

(** [save] writes [text_of] and changes nothing else. *)
Lemma save_run path (s : state) :
  wf s = true -> open_w_error path = None ->
  save path s = (Ok tt, wfile path (text_of s) s).
Proof.
  intros W Open. unfold save.
  erewrite bind_ok by reflexivity.
  erewrite bind_ok by (apply file_open_w_run; exact Open).
  erewrite bind_ok by apply file_write_run.
  erewrite bind_ok by apply file_write_run.
  erewrite bind_ok by apply file_write_run.
  erewrite bind_ok by apply file_write_run.
  erewrite bind_ok by reflexivity.
  erewrite bind_ok by apply file_write_run.
  cbn [self wfile with_files].
  rewrite (save_blocks path s) by now apply wf_hidden_params.
  f_equal. f_equal. unfold text_of, parameters. rewrite join_concat, map_map.
  unfold header_of. rewrite !join_cons. cbn [join].
  now rewrite !string_app_assoc, ?string_app_nil_l.
Qed.

(** ** Reading back what [save] wrote *)

Lemma to_uint_nonnil (m : N) : N.to_uint m <> Decimal.Nil.
Proof.
  destruct m as [|p]; cbn; [discriminate|]. apply DecimalPos.Unsigned.to_uint_nonnil.
Qed.

Lemma parse_int_str_of_nat n : parse_int (str_of_nat n) = Ok (Z.of_nat n).
Proof.
  unfold parse_int, str_of_nat.
  change (NilZero.string_of_uint (N.to_uint (N.of_nat n)))
    with (NilZero.string_of_int (Decimal.Pos (N.to_uint (N.of_nat n)))).
  rewrite NilZero.isi.
  - cbn [Z.of_int]. unfold Z.of_uint.
    change (Pos.of_uint (N.to_uint (N.of_nat n))) with (N.of_uint (N.to_uint (N.of_nat n))).
    now rewrite DecimalN.Unsigned.of_to, nat_N_Z.
  - intros [= H]. now apply to_uint_nonnil in H.
  - discriminate.
Qed.

Lemma free_of_digits c d :
  forallb (fun x => negb (Ascii.eqb x c))
    ["0"; "1"; "2"; "3"; "4"; "5"; "6"; "7"; "8"; "9"]%char = true ->
  free_of c (NilEmpty.string_of_uint d) = true.
Proof.
  cbn [forallb]. rewrite !andb_true_iff.
  intros (H0 & H1 & H2 & H3 & H4 & H5 & H6 & H7 & H8 & H9 & _).
  induction d; cbn [NilEmpty.string_of_uint free_of]; trivial;
    rewrite IHd, andb_true_r; assumption.
Qed.

Lemma string_of_uint_nonnil d :
  d <> Decimal.Nil ->
  NilZero.string_of_uint d = NilEmpty.string_of_uint d /\
  NilEmpty.string_of_uint d <> EmptyString.
Proof. destruct d; [congruence|..]; intros _; split; try reflexivity; cbn; discriminate. Qed.

Lemma is_field_str_of_nat n : is_field (str_of_nat n) = true.
Proof.
  destruct (string_of_uint_nonnil _ (to_uint_nonnil (N.of_nat n))) as [E Ne].
  unfold str_of_nat. rewrite E. unfold is_field, is_line.
  rewrite !andb_true_iff, negb_true_iff. split_and!.
  - destruct (NilEmpty.string_of_uint (N.to_uint (N.of_nat n))); [congruence | reflexivity].
  - apply free_of_digits. reflexivity.
  - apply free_of_digits. reflexivity.
Qed.

Lemma is_field_class_name o : is_field (class_name o) = true.
Proof. destruct o as [|[]|[]|]; reflexivity. Qed.

Lemma get_class_by_name_class_name o : get_class_by_name (class_name o) = Ok o.
Proof. destruct o as [|[]|[]|]; reflexivity. Qed.

Lemma map_result_map {A B C} (f : B -> result C) (str : A -> B) (val : A -> C) xs :
  Forall (fun x => f (str x) = Ok (val x)) xs ->
  map_result f (map str xs) = Ok (map val xs).
Proof.
  induction 1 as [|x xs Hx _ IH]; cbn; [reflexivity|]. now rewrite Hx, IH.
Qed.

Lemma is_field_free s :
  is_field s = true ->
  s <> EmptyString /\ free_of newline_char s = true /\ free_of comma_char s = true.
Proof.
  unfold is_field, is_line. rewrite !andb_true_iff, negb_true_iff.
  intros [[H1 H2] H3]. split_and!; trivial. intros ->. discriminate.
Qed.

Lemma free_of_app c a b : free_of c (a ++ b) = free_of c a && free_of c b.
Proof.
  induction a as [|x a IH]; [reflexivity|]. rewrite string_app_cons. cbn.
  now rewrite IH, andb_assoc.
Qed.

Lemma free_of_join c sep parts :
  free_of c sep = true -> Forall (fun p => free_of c p = true) parts ->
  free_of c (join sep parts) = true.
Proof.
  intros Hs. induction parts as [|p [|q rest] IH]; intros H.
  - reflexivity.
  - now inversion H.
  - inversion H as [|? ? Hp Hrest]; subst.
    rewrite join_cons, !free_of_app, Hs, Hp, IH by trivial. reflexivity.
Qed.

(** A line of fields: non-empty when there is a field. *)
Lemma is_line_join_fields parts :
  parts <> [] -> Forall (fun p => is_field p = true) parts ->
  is_line (join comma parts) = true.
Proof.
  intros N H. unfold is_line. rewrite andb_true_iff, negb_true_iff. split.
  - destruct parts as [|p rest]; [congruence|]. inversion H as [|? ? Hp _]; subst.
    apply is_field_free in Hp as (Hp & _). rewrite join_concat.
    destruct p; [congruence|]. reflexivity.
  - apply free_of_join; [reflexivity|].
    eapply Forall_impl; [exact H|]. intros p Hp. now apply is_field_free in Hp.
Qed.

Lemma split_fields parts :
  parts <> [] -> Forall (fun p => is_field p = true) parts ->
  split_char comma_char (join comma parts) = parts.
Proof.
  intros N H. apply split_char_join; trivial.
  eapply Forall_impl; [exact H|]. intros p Hp. now apply is_field_free in Hp.
Qed.

Lemma split_lines lines :
  lines <> [] -> Forall (fun l => is_line l = true) lines ->
  split_char newline_char (join newline lines) = lines.
Proof.
  intros N H. apply split_char_join; trivial.
  eapply Forall_impl; [exact H|]. intros l Hl. unfold is_line in Hl.
  now apply andb_true_iff in Hl.
Qed.

(** A line of numbers is read back as the numbers. *)
Lemma parse_line_of (v : vec) :
  v <> [] -> Forall faithful v ->
  is_line (line_of v) = true /\
  map_result parse_float (split_char comma_char (line_of v)) = Ok v.
Proof.
  intros N H. unfold line_of.
  assert (Hf : Forall (fun p => is_field p = true) (map str_of_float v)).
  { apply Forall_fmap. eapply Forall_impl; [exact H|]. now intros x [_ Hx]. }
  assert (Nf : map str_of_float v <> []) by (destruct v; [congruence | discriminate]).
  split; [now apply is_line_join_fields|].
  rewrite split_fields by trivial.
  rewrite (map_result_map parse_float str_of_float id).
  - now rewrite map_id.
  - eapply Forall_impl; [exact H|]. intros x [Hx _]. unfold parse_float. now rewrite Hx.
Qed.

(** ** The constructor returns *)

Lemma init_weights_run a n m (g : rng) :
  0 < n -> exists (W : matrix) g', init_weights a n m g = Ok (W, g') /\ has_shape W n m = true.
Proof.
  intros Hn. destruct (init_weights a n m g) as [[W g']|e] eqn:E.
  - exists W, g'. split; [reflexivity|]. eapply init_weights_shape; eauto.
  - exfalso. unfold init_weights in E. destruct a.
    + discriminate.
    + destruct (n =? 0) eqn:E0; [apply Nat.eqb_eq in E0; lia|].
      destruct (np_random_normal _ n m g). discriminate.
    + destruct (n =? 0) eqn:E0; [apply Nat.eqb_eq in E0; lia|]. discriminate.
Qed.

Lemma Layer_init_first c o (s : state) :
  (0 <= c)%Z ->
  exists l s',
    Layer_init c None o s = (Ok l, s') /\
    neuron_count l = Z.to_nat c /\ previous_layer l = None /\ activation_func l = o /\
    weights l = None /\ biases l = None /\
    has_vec s' (z l) (Z.to_nat c) = true /\ has_vec s' (activations l) (Z.to_nat c) = true /\
    (exists mv, vecs s' = vecs s ++ mv) /\ mats s' = mats s /\ self s' = self s.
Proof.
  intros Hc. unfold Layer_init. destruct (c <? 0)%Z eqn:E; [apply Z.ltb_lt in E; lia|].
  eexists _, _. split; [reflexivity|]. cbn. split_and!; trivial.
  - unfold has_vec. cbn. rewrite <- app_assoc. rewrite lookup_app_r by lia.
    rewrite Nat.sub_diag. cbn. rewrite length_np_zeros. apply Nat.eqb_refl.
  - unfold has_vec. cbn. rewrite lookup_app_r by (rewrite length_app; cbn; lia).
    rewrite length_app, Nat.sub_diag. cbn. rewrite length_np_zeros. apply Nat.eqb_refl.
  - eexists. rewrite <- app_assoc. reflexivity.
Qed.

Lemma Layer_init_next c p lp a (s : state) :
  (0 < c)%Z ->
  exists l s' (W : matrix) b,
    Layer_init c (Some (p, lp)) (ObjActivation a) s = (Ok l, s') /\
    neuron_count l = Z.to_nat c /\ previous_layer l = Some p /\
    activation_func l = ObjActivation a /\
    weights l = Some (length (mats s)) /\ biases l = Some b /\
    mats s' = mats s ++ [W] /\ has_shape W (Z.to_nat c) (neuron_count lp) = true /\
    has_vec s' b (Z.to_nat c) = true /\
    has_vec s' (z l) (Z.to_nat c) = true /\ has_vec s' (activations l) (Z.to_nat c) = true /\
    (exists mv, vecs s' = vecs s ++ mv) /\ self s' = self s.
Proof.
  intros Hc. unfold Layer_init. destruct (c <? 0)%Z eqn:E; [apply Z.ltb_lt in E; lia|].
  destruct (init_weights_run a (Z.to_nat c) (neuron_count lp) (np_random s)) as (W & g' & HW & SW);
    [lia|].
  unfold mbind, M_bind, bind, gets, lift, modify, alloc_mat, alloc_vec. cbn. rewrite HW. cbn.
  eexists _, _, W, _. split; [reflexivity|]. cbn. split_and!; trivial.
  - unfold has_vec. cbn. rewrite <- !app_assoc. rewrite lookup_app_r by lia.
    rewrite Nat.sub_diag. cbn. rewrite length_np_zeros. apply Nat.eqb_refl.
  - unfold has_vec. cbn. rewrite <- app_assoc.
    rewrite lookup_app_r by (rewrite length_app; cbn; lia).
    rewrite length_app, Nat.sub_diag. cbn. rewrite length_np_zeros. apply Nat.eqb_refl.
  - unfold has_vec. cbn. rewrite lookup_app_r by (rewrite !length_app; cbn; lia).
    rewrite !length_app, Nat.sub_diag. cbn. rewrite length_np_zeros. apply Nat.eqb_refl.
  - eexists. rewrite <- !app_assoc. reflexivity.
Qed.

Lemma layer_ok_store (s s' : state) cs cs' i l :
  (exists mv, vecs s' = vecs s ++ mv) -> (exists mm, mats s' = mats s ++ mm) ->
  (forall p, p < i -> cs' !! p = cs !! p) ->
  layer_ok s cs i l = true -> layer_ok s' cs' i l = true.
Proof.
  intros V Mm C. unfold layer_ok, buffers_ok. rewrite !andb_true_iff.
  intros [[H1 H2] [H3 H4]]. split_and!; trivial.
  - eapply owns_params_store; eauto.
  - destruct V as [mv V]. eapply has_vec_app; eauto.
  - destruct V as [mv V]. eapply has_vec_app; eauto.
Qed.

Lemma weight_ref_bound (s : state) cs acc x :
  (forall j l, acc !! j = Some l -> layer_ok s cs j l = true) ->
  x ∈ weight_refs acc -> x < length (mats s).
Proof.
  intros H Hx. unfold weight_refs in Hx. apply list_elem_of_omap in Hx as (l & Hl & Hw).
  apply list_elem_of_lookup in Hl as [j Hj]. specialize (H j l Hj).
  destruct j as [|p].
  - apply layer_ok_input in H as (_ & Hw0 & _). congruence.
  - apply layer_ok_hidden in H as (?&?&w&?&W&?&?&?&?&Hw'&?&HW&?).
    assert (w = x) as -> by congruence. eapply lookup_lt_Some; eauto.
Qed.

Lemma build_layers_run objs : forall sizes i prev acc (s : state),
  Forall (fun c => (0 < c)%Z) sizes ->
  length acc = i ->
  match i with
  | O => prev = None
  | S p => exists lp, acc !! p = Some lp /\ prev = Some (p, lp)
  end ->
  (forall j, i <= S j -> S j < i + length sizes -> exists a, objs !! j = Some (ObjActivation a)) ->
  (forall j l, acc !! j = Some l -> layer_ok s (counts acc) j l = true) ->
  (forall j l, acc !! S j = Some l -> objs !! j = Some (activation_func l)) ->
  NoDup (weight_refs acc) ->
  exists ls s',
    build_layers sizes i prev objs acc s = (Ok ls, s') /\
    (forall j l, ls !! j = Some l -> layer_ok s' (counts ls) j l = true) /\
    (forall j l, ls !! S j = Some l -> objs !! j = Some (activation_func l)) /\
    NoDup (weight_refs ls) /\
    counts ls = counts acc ++ map Z.to_nat sizes /\
    self s' = self s /\ files s' = files s.
Proof.
  induction sizes as [|c sizes IH]; intros i prev acc s Pos Len Hprev Hobjs Hok Hact Hnd.
  - exists acc, s. cbn. rewrite app_nil_r. split_and!; trivial.
  - inversion Pos as [|? ? Hc Pos']; subst. cbn [build_layers].
    assert (Step : exists layer s1,
      Layer_init c prev
        (match prev with
         | None => ActivationFunction_default
         | Some _ => default ObjNone (objs !! (length acc - 1))
         end) s = (Ok layer, s1) /\
      layer_ok s1 (counts (acc ++ [layer])) (length acc) layer = true /\
      neuron_count layer = Z.to_nat c /\
      (forall p, length acc = S p -> objs !! p = Some (activation_func layer)) /\
      (exists mv, vecs s1 = vecs s ++ mv) /\ (exists mm, mats s1 = mats s ++ mm) /\
      NoDup (weight_refs (acc ++ [layer])) /\
      self s1 = self s /\ files s1 = files s).
    { destruct (length acc) as [|p] eqn:La.
      - subst prev. destruct (Layer_init_first c ActivationFunction_default s)
          as (l & s1 & Run & Hn & Hp & Ha & Hw & Hb & Hz & Hact' & V & Mm & Sf); [lia|].
        exists l, s1. split_and!; trivial.
        + unfold layer_ok, owns_params, linked, buffers_ok.
          rewrite Hw, Hb, Hp, Ha, Hn, Hz, Hact'. reflexivity.
        + intros p Hp'. discriminate.
        + exists []. now rewrite app_nil_r.
        + destruct acc; [|discriminate]. unfold weight_refs. cbn. rewrite Hw. constructor.
        + revert Run. unfold Layer_init. destruct (c <? 0)%Z; [discriminate|].
          intros [= <- <-]. reflexivity.
      - destruct Hprev as (lp & Hlp & ->).
        destruct (Hobjs p) as [a Ha]; [lia | cbn; lia |].
        replace (S p - 1) with p by lia. rewrite Ha. cbn [default].
        destruct (Layer_init_next c p lp a s Hc)
          as (l & s1 & W & b & Run & Hn & Hp & Hal & Hw & Hb & Mm & SW & Hbv & Hz & Hact' & V & Sf).
        exists l, s1. split_and!; trivial.
        + unfold layer_ok, owns_params, linked, buffers_ok.
          assert (counts (acc ++ [l]) !! p = Some (neuron_count lp)) as ->.
          { unfold counts. rewrite map_app, lookup_app_l by (rewrite length_map; lia).
            now rewrite list_lookup_fmap, Hlp. }
          rewrite Hw, Hb, Hp, Hal, Hn, Hz, Hact', Hbv, Nat.eqb_refl.
          unfold has_mat. rewrite Mm, lookup_app_r by lia. rewrite Nat.sub_diag. cbn.
          now rewrite SW.
        + intros p' [= <-]. now rewrite Hal.
        + eauto.
        + unfold weight_refs. rewrite omap_app. cbn. rewrite Hw. cbn.
          apply NoDup_app. split_and!; trivial.
          * intros x Hx Hin. apply list_elem_of_singleton in Hin. subst x.
            apply (weight_ref_bound s (counts acc)) in Hx; [lia | trivial].
          * apply NoDup_singleton.
        + revert Run. unfold Layer_init. destruct (c <? 0)%Z; [discriminate|].
          unfold mbind, M_bind, bind, gets, lift, modify, alloc_mat, alloc_vec. cbn.
          destruct (init_weights a (Z.to_nat c) (neuron_count lp) (np_random s)) as [[? ?]|];
            [|discriminate].
          cbn. intros [= <- <-]. reflexivity. }
    destruct Step as (layer & s1 & Run & Hlayer & Hn & Hnew & V & Mm & Hnd' & Sf & Ff).
    erewrite bind_ok by exact Run.
    destruct (IH (S (length acc)) (Some (length acc, layer)) (acc ++ [layer]) s1 Pos')
      as (ls & s' & Run2 & Hok' & Hact' & Hnd'' & Hc' & Sf' & Ff').
    + rewrite length_app. cbn. lia.
    + exists layer. split; [|reflexivity]. rewrite lookup_app_r by lia.
      rewrite Nat.sub_diag. reflexivity.
    + intros j H1 H2. apply Hobjs; [lia | cbn; lia].
    + intros j l Hj. destruct (decide (j < length acc)) as [Lt|Ge].
      * rewrite lookup_app_l in Hj by trivial.
        apply (layer_ok_store s s1 (counts acc)); eauto.
        intros p Hp. unfold counts. rewrite map_app, lookup_app_l; [trivial|].
        rewrite length_map. lia.
      * assert (j = length acc) as ->.
        { apply lookup_lt_Some in Hj. rewrite length_app in Hj. cbn in Hj. lia. }
        rewrite lookup_app_r in Hj by lia. rewrite Nat.sub_diag in Hj.
        injection Hj as <-. exact Hlayer.
    + intros j l Hj. destruct (decide (S j < length acc)) as [Lt|Ge].
      * rewrite lookup_app_l in Hj by trivial. now apply Hact.
      * assert (S j = length acc) as E.
        { apply lookup_lt_Some in Hj. rewrite length_app in Hj. cbn in Hj. lia. }
        rewrite lookup_app_r in Hj by lia. rewrite E, Nat.sub_diag in Hj.
        injection Hj as <-. apply Hnew. congruence.
    + exact Hnd'.
    + exists ls, s'. split_and!; trivial; try congruence.
      rewrite Hc'. unfold counts. rewrite map_app, <- app_assoc. cbn. now rewrite Hn.
Qed.

(** On positive neuron counts and one activation object per layer after the
    first, the constructor returns a well-formed network. *)
Lemma NeuralNetwork_init_run (cs : list nat) (objs : list pyobj) (lf : pyobj) (s : state) :
  Forall (fun c => 0 < c) cs -> 2 <= length cs -> length objs = length cs - 1 ->
  Forall (fun o => exists a, o = ObjActivation a) objs ->
  exists n s',
    NeuralNetwork_init (map Z.of_nat cs) (ActivationList objs) lf s = (Ok n, s') /\
    loss_func n = lf /\ wf (with_self n s') = true /\
    counts (layers n) = cs /\ map activation_func (drop 1 (layers n)) = objs /\
    NoDup (weight_refs (layers n)) /\ files s' = files s.
Proof.
  intros Pos Len Lobjs Hobjs. unfold NeuralNetwork_init. rewrite length_map.
  destruct (length cs <? 2) eqn:E; [apply Nat.ltb_lt in E; lia|].
  rewrite Lobjs, Nat.eqb_refl. cbn [negb].
  destruct (build_layers_run objs (map Z.of_nat cs) 0 None [] s)
    as (ls & s' & Run & Hok & Hact & Hnd & Hc & Sf & Ff); trivial.
  - apply Forall_fmap. eapply Forall_impl; [exact Pos|]. intros c Hc. unfold compose. cbv beta in Hc. lia.
  - intros j _ Hj. rewrite length_map in Hj.
    assert (exists o, objs !! j = Some o) as [o Ho] by (apply lookup_lt_is_Some; lia).
    rewrite Forall_lookup in Hobjs. destruct (Hobjs j o Ho) as [a ->]. eauto.
  - intros j l Hj. discriminate.
  - intros j l Hj. discriminate.
  - constructor.
  - erewrite bind_ok by exact Run.
    assert (Hcs : counts ls = cs).
    { rewrite Hc. cbn. rewrite map_map. rewrite <- (map_id cs) at 2.
      apply map_ext. intros c. apply Nat2Z.id. }
    exists (mkNetwork lf ls (flit (-1) 0)), s'. split_and!; trivial.
    + unfold wf. cbn [self with_self layers]. rewrite andb_true_iff. split.
      * apply Nat.leb_le. rewrite <- Hcs in Len. unfold counts in Len.
        now rewrite length_map in Len.
      * apply all_layers_lookup. intros j l Hj. exact (Hok j l Hj).
    + cbn. apply list_eq. intros j. rewrite list_lookup_fmap, lookup_drop. cbn.
      destruct (ls !! S j) as [l|] eqn:Hl; cbn.
      * symmetry. now apply Hact.
      * symmetry. apply lookup_ge_None. apply lookup_ge_None in Hl.
        rewrite <- Hcs in Lobjs. unfold counts in Lobjs. rewrite length_map in Lobjs. lia.
Qed.

(** ** [load]: the blocks *)

Lemma assign_row_middle (done old : list vec) o r c :
  length r = c ->
  assign_row (mkMatrix (done ++ o :: old) c) (length done) r
  = Ok (mkMatrix (done ++ r :: old) c).
Proof.
  intros L. unfold assign_row, nrows. cbn [mrows mcols].
  assert ((length (done ++ o :: old) <=? length done) = false) as ->.
  { apply Nat.leb_gt. rewrite length_app. cbn. lia. }
  assert ((length r =? c) = true) as -> by now apply Nat.eqb_eq.
  rewrite insert_app_r_alt by lia. now rewrite Nat.sub_diag.
Qed.

Lemma with_mats_same (s : state) : with_mats (mats s) s = s.
Proof. now destruct s. Qed.

(** The weight rows of a block are assigned one after the other. *)
Lemma load_rows (net : NeuralNetwork F) idx layer w c :
  layers net !! idx = Some layer -> weights layer = Some w ->
  forall (rows done old : list vec) (s : state),
    mats s !! w = Some (mkMatrix (done ++ old) c) ->
    length old = length rows ->
    Forall (fun r => r <> [] /\ Forall faithful r /\ length r = c) rows ->
    load_lines (map line_of rows) (S (length done)) idx net s
    = (Ok net, with_mats (<[w := mkMatrix (done ++ rows) c]> (mats s)) s).
Proof.
  intros Hl Hw. induction rows as [|r rows IH]; intros done old s HW Lo Hr.
  - destruct old; [|discriminate]. cbn [map load_lines].
    rewrite list_insert_id by exact HW. now rewrite with_mats_same.
  - destruct old as [|o old]; [discriminate|]. cbn [map load_lines].
    inversion Hr as [|? ? (Nr & Fr & Lr) Hr']; subst.
    destruct (parse_line_of r Nr Fr) as [_ P]. rewrite P.
    erewrite bind_ok by reflexivity. rewrite Hl. cbn [Nat.eqb].
    erewrite bind_ok.
    2:{ rewrite Hw. erewrite bind_ok by reflexivity.
        erewrite bind_ok.
        2:{ unfold inplace_mat. erewrite bind_ok by (apply run_read_mat; exact HW).
            replace (S (length done) - 1) with (length done) by lia.
            rewrite assign_row_middle by reflexivity.
            erewrite bind_ok by reflexivity. reflexivity. }
        reflexivity. }
    replace (S (S (length done))) with (S (length (done ++ [r])))
      by (rewrite length_app; cbn; lia).
    rewrite (IH (done ++ [r]) old).
    + cbn. rewrite list_insert_insert_eq, <- app_assoc. reflexivity.
    + cbn. rewrite <- app_assoc. apply list_lookup_insert_eq. eapply lookup_lt_Some; eauto.
    + cbn in Lo. lia.
    + exact Hr'.
Qed.

(** One block: the biases are a new array, the weight rows are assigned
    into the array the constructor made. *)
Lemma load_block (net : NeuralNetwork F) idx layer w (W0 W : matrix) (b : vec) (a0 : pyobj)
    (s : state) :
  layers net !! idx = Some layer -> weights layer = Some w ->
  mats s !! w = Some W0 -> nrows W0 = nrows W -> mcols W0 = mcols W ->
  b <> [] -> Forall faithful b ->
  Forall (fun r => r <> [] /\ Forall faithful r /\ length r = mcols W) (mrows W) ->
  load_lines (split_char newline_char (block_of (W, b, a0))) 0 idx net s
  = (Ok (with_layers (<[idx := set_biases (Some (length (vecs s))) layer]> (layers net)) net),
     with_mats (<[w := W]> (mats s)) (with_vecs (vecs s ++ [b]) s)).
Proof.
  intros Hl Hw HW0 R C Nb Fb Hrows. unfold block_of. cbn [fst snd].
  destruct (parse_line_of b Nb Fb) as [Lb Pb].
  rewrite split_lines.
  2:{ discriminate. }
  2:{ constructor; [exact Lb|]. apply Forall_fmap. eapply Forall_impl; [exact Hrows|].
      intros r (Nr & Fr & _). cbn. now destruct (parse_line_of r Nr Fr). }
  cbn [load_lines]. rewrite Pb. erewrite bind_ok by reflexivity. rewrite Hl. cbn [Nat.eqb].
  erewrite bind_ok.
  2:{ erewrite bind_ok by reflexivity. reflexivity. }
  destruct W0 as [rows0 c0], W as [rows c]. unfold nrows in R. cbn in R, C, Hrows. subst c0.
  rewrite (load_rows _ idx (set_biases (Some (length (vecs s))) layer) w c) with (done := []) (old := rows0).
  - reflexivity.
  - cbn. apply list_lookup_insert_eq. eapply lookup_lt_Some; eauto.
  - exact Hw.
  - exact HW0.
  - exact R.
  - exact Hrows.
Qed.

Lemma NoDup_omap_lookup {A B} (f : A -> option B) (l : list A) : forall i j x y z,
  NoDup (omap f l) -> l !! i = Some x -> l !! j = Some y ->
  f x = Some z -> f y = Some z -> i = j.
Proof.
  induction l as [|a l IH]; intros i j x y z N Hi Hj Hx Hy; [discriminate|].
  assert (Tail : NoDup (omap f l)).
  { cbn in N. destruct (f a); [now apply NoDup_cons in N|trivial]. }
  destruct i as [|i], j as [|j]; cbn in Hi, Hj.
  - reflexivity.
  - exfalso. injection Hi as ->. cbn in N. rewrite Hx in N. apply NoDup_cons in N as [N _].
    apply N. apply list_elem_of_omap. exists y. split; [|trivial].
    apply list_elem_of_lookup. eauto.
  - exfalso. injection Hj as ->. cbn in N. rewrite Hy in N. apply NoDup_cons in N as [N _].
    apply N. apply list_elem_of_omap. exists x. split; [|trivial].
    apply list_elem_of_lookup. eauto.
  - f_equal. eapply IH; eauto.
Qed.

Lemma omap_map_eq {A B} (f : A -> option B) (l1 : list A) : forall l2,
  map f l1 = map f l2 -> omap f l1 = omap f l2.
Proof.
  induction l1 as [|a l1 IH]; intros [|b l2] H; try discriminate; [reflexivity|].
  cbn in H. injection H as H1 H2. cbn. rewrite H1, (IH l2 H2). reflexivity.
Qed.

Lemma map_insert_same {A B} (f : A -> B) (l : list A) i x y :
  l !! i = Some x -> f y = f x -> map f (<[i := y]> l) = map f l.
Proof.
  intros H E. rewrite list_fmap_insert, E. apply list_insert_id.
  now rewrite list_lookup_fmap, H.
Qed.

(** What one block leaves: a well-formed network again, where the layer of
    the block has the parameters of the block and the other layers theirs. *)
Lemma load_block_keeps (net : NeuralNetwork F) (s : state) q layer w (W : matrix) (b : vec) np :
  wf (with_self net s) = true -> NoDup (weight_refs (layers net)) ->
  layers net !! S q = Some layer -> weights layer = Some w ->
  counts (layers net) !! q = Some np ->
  has_shape W (neuron_count layer) np = true -> length b = neuron_count layer ->
  let layer' := set_biases (Some (length (vecs s))) layer in
  let net1 := with_layers (<[S q := layer']> (layers net)) net in
  let s1 := with_mats (<[w := W]> (mats s)) (with_vecs (vecs s ++ [b]) s) in
  wf (with_self net1 s1) = true /\ NoDup (weight_refs (layers net1)) /\
  counts (layers net1) = counts (layers net) /\
  map activation_func (layers net1) = map activation_func (layers net) /\
  loss_func net1 = loss_func net /\
  layers net1 !! S q = Some layer' /\
  layer_parameters (with_self net1 s1) layer' = (W, b, activation_func layer) /\
  (forall j l, j <> S q -> layers net !! j = Some l ->
     layers net1 !! j = Some l /\
     layer_parameters (with_self net1 s1) l = layer_parameters (with_self net s) l).
Proof.
  intros Wf Nd Hl Hw Hnp SW Lb layer' net1 s1.
  assert (Hmats : mats (with_self net1 s1) = <[w := W]> (mats s)) by reflexivity.
  assert (Hvecs : vecs (with_self net1 s1) = vecs (with_self net s) ++ [b]) by reflexivity.
  assert (Hlayers : layers net1 = <[S q := layer']> (layers net)) by reflexivity.
  assert (Hself : self (with_self net1 s1) = net1) by reflexivity.
  pose proof (wf_lookup (with_self net s) (S q) layer Wf Hl) as Okl.
  pose proof Okl as Okl'.
  apply layer_ok_hidden in Okl'
    as (np0 & a & w0 & b0 & W0 & bv0 & Hnp0 & Hp & Ha & Hw0 & Hb0 & HW0 & SW0 & Hbv0 & Lbv0).
  cbn in Hnp0, HW0, Hbv0. assert (w0 = w) as -> by congruence.
  assert (Hw_lt : w < length (mats s)) by (eapply lookup_lt_Some; eauto).
  assert (Ecounts : counts (layers net1) = counts (layers net)).
  { rewrite Hlayers. unfold counts. now apply (map_insert_same neuron_count _ _ layer). }
  assert (Other : forall j l, j <> S q -> layers net !! j = Some l ->
            layer_ok (with_self net s) (counts (layers net)) j l = true ->
            layer_ok (with_self net1 s1) (counts (layers net)) j l = true /\
            layer_parameters (with_self net1 s1) l = layer_parameters (with_self net s) l).
  { intros j l Nj Hj Okj. destruct j as [|p].
    - pose proof Okj as Okj'. apply layer_ok_input in Okj' as (Hp0 & Hw0' & Hb0' & Ha0).
      split.
      + revert Okj. unfold layer_ok, owns_params, linked, buffers_ok.
        rewrite Hw0', Hb0', Hp0, Ha0. cbn [andb]. rewrite !andb_true_iff. intros [H1 H2].
        split; apply (has_vec_app (with_self net s) (with_self net1 s1) _ _ [b] Hvecs); trivial.
      + unfold layer_parameters. now rewrite Hw0', Hb0'.
    - pose proof Okj as Okj'.
      apply layer_ok_hidden in Okj'
        as (np' & a' & w' & b' & W' & bv' & Hnp' & Hp' & Ha' & Hw' & Hb' & HW' & SW' & Hbv' & Lbv').
      assert (Nw : w' <> w).
      { intros ->. apply Nj. eapply (NoDup_omap_lookup weights (layers net)); eauto. }
      assert (Em : mats (with_self net1 s1) !! w' = Some W').
      { rewrite Hmats. rewrite list_lookup_insert_ne by congruence. exact HW'. }
      assert (Ev : vecs (with_self net1 s1) !! b' = Some bv').
      { rewrite Hvecs. now apply lookup_app_l_Some. }
      split.
      + revert Okj. unfold layer_ok, owns_params, linked, buffers_ok.
        rewrite Hnp', Hw', Hb'. rewrite !andb_true_iff. intros [[[H1 H2] H3] [H4 H5]].
        split_and!; trivial.
        * unfold has_mat. rewrite Em. exact SW'.
        * unfold has_vec. rewrite Ev. now apply Nat.eqb_eq.
        * apply (has_vec_app (with_self net s) (with_self net1 s1) _ _ [b] Hvecs); trivial.
        * apply (has_vec_app (with_self net s) (with_self net1 s1) _ _ [b] Hvecs); trivial.
      + unfold layer_parameters. rewrite Hw', Hb'. cbn [mbind option_bind].
        now rewrite Em, Ev, HW', Hbv'. }
  assert (Hl1 : layers net1 !! S q = Some layer').
  { rewrite Hlayers. apply list_lookup_insert_eq. eapply lookup_lt_Some; eauto. }
  assert (Em : mats (with_self net1 s1) !! w = Some W).
  { rewrite Hmats. now apply list_lookup_insert_eq. }
  assert (Ev : vecs (with_self net1 s1) !! length (vecs s) = Some b).
  { rewrite Hvecs. cbn [vecs with_self]. rewrite lookup_app_r by lia. now rewrite Nat.sub_diag. }
  split_and!; trivial.
  - unfold wf. rewrite Hself, andb_true_iff. split.
    + rewrite Hlayers, length_insert. apply Nat.leb_le. exact (wf_length _ Wf).
    + apply all_layers_lookup. intros j l Hj. rewrite Ecounts. cbn [Nat.add].
      destruct (decide (j = S q)) as [->|Nj].
      * rewrite Hl1 in Hj. injection Hj as <-.
        revert Okl. unfold layer_ok, owns_params, linked, buffers_ok.
        rewrite Hnp.
        change (weights layer') with (weights layer).
        change (biases layer') with (Some (length (vecs s))).
        change (previous_layer layer') with (previous_layer layer).
        change (activation_func layer') with (activation_func layer).
        change (neuron_count layer') with (neuron_count layer).
        change (z layer') with (z layer).
        change (activations layer') with (activations layer).
        rewrite Hw, Hb0. rewrite !andb_true_iff. intros [[_ H3] [H4 H5]].
        split_and!; trivial.
        -- unfold has_mat. rewrite Em. exact SW.
        -- unfold has_vec. rewrite Ev. now apply Nat.eqb_eq.
        -- apply (has_vec_app (with_self net s) (with_self net1 s1) _ _ [b] Hvecs); trivial.
        -- apply (has_vec_app (with_self net s) (with_self net1 s1) _ _ [b] Hvecs); trivial.
      * assert (Hj' : layers net !! j = Some l).
        { rewrite Hlayers in Hj. now rewrite list_lookup_insert_ne in Hj by congruence. }
        apply (Other j l Nj Hj'). exact (wf_lookup (with_self net s) j l Wf Hj').
  - unfold weight_refs. rewrite Hlayers.
    rewrite (omap_map_eq weights _ (layers net)); [exact Nd|].
    now apply (map_insert_same weights _ _ layer).
  - rewrite Hlayers. now apply (map_insert_same activation_func _ _ layer).
  - unfold layer_parameters.
    change (weights layer') with (weights layer).
    change (biases layer') with (Some (length (vecs s))).
    rewrite Hw. cbn [mbind option_bind]. now rewrite Em, Ev.
  - intros j l Nj Hj. split.
    + rewrite Hlayers. now rewrite list_lookup_insert_ne by congruence.
    + apply (Other j l Nj Hj). exact (wf_lookup (with_self net s) j l Wf Hj).
Qed.

Lemma fits_rows cs acts q (W : matrix) (b : vec) a0 :
  fits cs acts q (W, b, a0) ->
  b <> [] /\ Forall faithful b /\
  Forall (fun r => r <> [] /\ Forall faithful r /\ length r = mcols W) (mrows W).
Proof.
  intros (n & np & Hn & Hnp & Pn & Pnp & SW & Lb & _ & Fb & FW). cbn [fst snd] in *.
  apply has_shape_spec in SW as (R & C & Rect).
  split_and!; trivial.
  - intros ->. cbn in Lb. lia.
  - apply Forall_lookup. intros i r Hr.
    rewrite Forall_lookup in Rect, FW. specialize (Rect i r Hr). specialize (FW i r Hr).
    split_and!; trivial; [|congruence]. intros ->. cbn in Rect. lia.
Qed.

Lemma tight_block cs acts q p : fits cs acts q p -> tight (block_of p) = true.
Proof.
  destruct p as [[W b] a0]. intros H. apply fits_rows in H as (Nb & Fb & Hrows).
  unfold block_of. cbn [fst snd]. apply tight_join; [discriminate|].
  constructor.
  - now destruct (parse_line_of b Nb Fb).
  - apply Forall_fmap. eapply Forall_impl; [exact Hrows|].
    intros r (Nr & Fr & _). cbn. now destruct (parse_line_of r Nr Fr).
Qed.

(** The blocks of a file are loaded into the network the header made. *)
Lemma load_blocks_run (cs : list nat) (acts : list pyobj) :
  forall ps q (net : NeuralNetwork F) (s : state),
  wf (with_self net s) = true -> NoDup (weight_refs (layers net)) ->
  counts (layers net) = cs -> map activation_func (layers net) = acts ->
  (forall k p, ps !! k = Some p -> fits cs acts (q + k) p) ->
  exists net' s',
    load_blocks (map block_of ps) false (S q) (Some net) s = (Ok (Some net'), s') /\
    wf (with_self net' s') = true /\ counts (layers net') = cs /\
    map activation_func (layers net') = acts /\
    loss_func net' = loss_func net /\
    (forall j l, j <= q -> layers net !! j = Some l ->
       exists l', layers net' !! j = Some l' /\
                  layer_parameters (with_self net' s') l' = layer_parameters (with_self net s) l) /\
    (forall k p, ps !! k = Some p ->
       exists l', layers net' !! (S q + k) = Some l' /\
                  layer_parameters (with_self net' s') l' = p).
Proof.
  induction ps as [|p ps IH]; intros q net s Wf Nd Hcs Hacts Hfits.
  - exists net, s. split_and!; trivial; [eauto | intros k p Hk; discriminate].
  - pose proof (Hfits 0 p eq_refl) as Hp. rewrite Nat.add_0_r in Hp.
    pose proof Hp as (n & np & Hn & Hnp & Pn & Pnp & SW & Lb & Ha & Fb & FW).
    destruct p as [[W b] a0]. cbn [fst snd] in *.
    assert (exists layer, layers net !! S q = Some layer /\ neuron_count layer = n
                          /\ activation_func layer = a0) as (layer & Hl & Hcount & Hact).
    { rewrite <- Hcs in Hn. rewrite <- Hacts in Ha. unfold counts in Hn.
      rewrite list_lookup_fmap in Hn. rewrite list_lookup_fmap in Ha.
      destruct (layers net !! S q) as [layer|]; [|discriminate].
      cbn in Hn, Ha. exists layer. split_and!; congruence. }
    pose proof (wf_lookup (with_self net s) (S q) layer Wf Hl) as Okl.
    apply layer_ok_hidden in Okl
      as (np0 & a & w & b0 & W0 & bv0 & Hnp0 & _ & _ & Hw & _ & HW0 & SW0 & _ & _).
    cbn in Hnp0, HW0. rewrite Hcs in Hnp0. assert (np0 = np) as -> by congruence.
    destruct (fits_rows _ _ _ _ _ _ Hp) as (Nb & _ & Hrows).
    pose proof SW as SW'. apply has_shape_spec in SW' as (R & C & _).
    apply has_shape_spec in SW0 as (R0 & C0 & _).
    cbn [map load_blocks].
    erewrite bind_ok.
    2:{ apply (load_block net (S q) layer w W0 W b a0 s); trivial; congruence. }
    destruct (load_block_keeps net s q layer w W b np Wf Nd Hl Hw)
      as (Wf1 & Nd1 & Hcs1 & Hacts1 & Hloss1 & Hl1 & Hlp1 & Hother);
      [congruence | congruence | congruence |].
    destruct (IH (S q) _ _ Wf1 Nd1) as (net' & s' & Run & Wf' & Hcs' & Hacts' & Hloss' & Hpre & Hblk).
    + congruence.
    + congruence.
    + intros k p' Hk. replace (S q + k) with (q + S k) by lia. now apply Hfits.
    + exists net', s'.
      split; [exact Run|]. split; [exact Wf'|]. split; [exact Hcs'|].
      split; [exact Hacts'|]. split; [congruence|]. split.
      * intros j l Hj Hjl. destruct (Hother j l) as [Hj1 Hlp]; [lia | trivial |].
        destruct (Hpre j l) as (l' & Hl' & Hlp'); [lia | trivial |].
        exists l'. split; [trivial | congruence].
      * intros [|k] p' Hk; cbn in Hk.
        -- injection Hk as <-. rewrite Nat.add_0_r.
           destruct (Hpre (S q) _ (le_n _) Hl1) as (l' & Hl' & Hlp').
           exists l'. split; [trivial|]. rewrite Hlp', Hlp1. now rewrite Hact.
        -- replace (S q + S k) with (S (S q) + k) by lia. now apply Hblk.
Qed.

(** ** [save] then [load] *)

Lemma fits_of_state (s : state) :
  wf s = true ->
  Forall (fun c => 0 < c) (counts (layers (self s))) ->
  Forall faithful (stored s) ->
  forall k p, parameters s !! k = Some p ->
    fits (counts (layers (self s))) (map activation_func (layers (self s))) (0 + k) p.
Proof.
  intros Wf Pos Fst k p Hp. cbn [Nat.add].
  unfold stored in Fst. rewrite Forall_concat, Forall_fmap, Forall_lookup in Fst.
  specialize (Fst k p Hp). cbn in Fst. apply Forall_app in Fst as [Fb FW].
  rewrite Forall_concat in FW.
  unfold parameters in Hp. rewrite list_lookup_fmap, lookup_drop in Hp. cbn [Nat.add] in Hp.
  destruct (layers (self s) !! S k) as [l|] eqn:Hl; [|discriminate]. cbn in Hp.
  injection Hp as <-.
  pose proof (wf_lookup s (S k) l Wf Hl) as Okl.
  apply layer_ok_hidden in Okl
    as (np & a & w & b & W & bv & Hnp & _ & Ha & Hw & Hb & HW & SW & Hbv & Lbv).
  unfold layer_parameters in *. rewrite Hw, Hb in *. cbn [mbind option_bind] in *.
  rewrite HW, Hbv in *. cbn [default fst snd] in *.
  rewrite Forall_lookup in Pos.
  exists (neuron_count l), np. split_and!; trivial.
  - now apply counts_lookup.
  - apply (Pos (S k)). now apply counts_lookup.
  - now apply (Pos k).
  - now rewrite list_lookup_fmap, Hl.
Qed.

Lemma header_lines (n : NeuralNetwork F) :
  2 <= length (layers n) ->
  tight (header_of n) = true /\
  split_char newline_char (header_of n)
  = [join comma (map (fun l => str_of_nat (neuron_count l)) (layers n));
     join comma (drop 1 (map (fun l => class_name (activation_func l)) (layers n)));
     class_name (loss_func n)].
Proof.
  intros Len. unfold header_of.
  assert (H : Forall (fun l => is_line l = true)
    [join comma (map (fun l => str_of_nat (neuron_count l)) (layers n));
     join comma (drop 1 (map (fun l => class_name (activation_func l)) (layers n)));
     class_name (loss_func n)]).
  { repeat constructor.
    - apply is_line_join_fields.
      + destruct (layers n); [cbn in Len; lia | discriminate].
      + apply Forall_fmap, Forall_forall. intros l _. apply is_field_str_of_nat.
    - apply is_line_join_fields.
      + destruct (layers n) as [|? [|? ?]]; [cbn in Len; lia | cbn in Len; lia | discriminate].
      + apply Forall_drop, Forall_fmap, Forall_forall. intros l _. apply is_field_class_name.
    - pose proof (is_field_class_name (loss_func n)) as H. unfold is_field in H.
      now apply andb_true_iff in H. }
  split; [apply tight_join | apply split_lines]; trivial; discriminate.
Qed.

Lemma activations_known (s : state) :
  wf s = true ->
  Forall (fun o => exists a, o = ObjActivation a) (map activation_func (drop 1 (layers (self s)))).
Proof.
  intros Wf. apply Forall_fmap, Forall_lookup. intros k l Hk. rewrite lookup_drop in Hk.
  apply (wf_lookup s _ l Wf) in Hk.
  apply layer_ok_hidden in Hk as (?&a&?&?&?&?&?&?&Ha&?). cbn. eauto.
Qed.

Lemma activations_eq (s t : state) :
  wf s = true -> wf t = true ->
  map activation_func (drop 1 (layers (self t))) = map activation_func (drop 1 (layers (self s))) ->
  map activation_func (layers (self t)) = map activation_func (layers (self s)).
Proof.
  intros Ws Wt E. pose proof (wf_length s Ws) as Ls. pose proof (wf_length t Wt) as Lt.
  destruct (layers (self s)) as [|l0 ls] eqn:Es; [cbn in Ls; lia|].
  destruct (layers (self t)) as [|m0 ms] eqn:Et; [cbn in Lt; lia|].
  assert (H0 : layers (self s) !! 0 = Some l0) by now rewrite Es.
  assert (M0 : layers (self t) !! 0 = Some m0) by now rewrite Et.
  apply (wf_lookup s 0 l0 Ws), layer_ok_input in H0 as (_ & _ & _ & H0).
  apply (wf_lookup t 0 m0 Wt), layer_ok_input in M0 as (_ & _ & _ & M0).
  change (drop 1 (m0 :: ms)) with ms in E. change (drop 1 (l0 :: ls)) with ls in E.
  cbn [map]. now rewrite H0, M0, E.
Qed.

(** C2.  For a well-formed network with positive neuron counts whose
    weights and biases survive the text of the file ([faithful]: [float] of
    [str] of the number is the number, which is what "up to serialization
    precision" asks of the codec), and a path that can be opened for
    writing, [save] returns normally, and [load] from that path, in
    whatever world holds at that path the file that [save] left there (any
    network, any arrays, any state of the random generators), returns a
    network with the same neuron counts, the same activation and loss
    objects (so the same class names), and weight and bias arrays equal to
    the original ones; [predict] on any input of the right length then
    returns the same output on both networks. *)
Theorem C2_save_load_round_trip (s : state) (filepath : string) :
  wf s = true ->
  Forall (fun c => 0 < c) (counts (layers (self s))) ->
  Forall faithful (stored s) ->
  open_w_error filepath = None ->
  exists s1,
    save filepath s = (Ok tt, s1) /\
    forall t : state,
      files t !! filepath = files s1 !! filepath ->
      exists net t',
        load filepath t = (Ok (Some net), t') /\
        counts (layers net) = counts (layers (self s)) /\
        map activation_func (layers net) = map activation_func (layers (self s)) /\
        map (fun l => class_name (activation_func l)) (layers net)
          = map (fun l => class_name (activation_func l)) (layers (self s)) /\
        loss_func net = loss_func (self s) /\
        parameters (with_self net t') = parameters s /\
        forall inputs, length inputs = input_count s ->
          exists r1 t1 r2 t2 out,
            predict inputs s = (Ok r1, t1) /\
            predict inputs (with_self net t') = (Ok r2, t2) /\
            vecs t1 !! r1 = Some out /\ vecs t2 !! r2 = Some out.
Proof.
  intros Wf Pos Fst Open. pose proof (wf_length s Wf) as Len.
  exists (wfile filepath (text_of s) s). split; [now apply save_run|].
  intros t Ht. unfold wfile in Ht. cbn [files with_files] in Ht.
  rewrite lookup_insert_eq in Ht.
  pose proof (fits_of_state s Wf Pos Fst) as Hfits.
  destruct (header_lines (self s) Len) as [Th Hh].
  set (objs := map activation_func (drop 1 (layers (self s)))).
  destruct (NeuralNetwork_init_run (counts (layers (self s))) objs (loss_func (self s)) t Pos)
    as (n0 & s2 & Run0 & Hloss0 & Wf0 & Hcs0 & Hacts0 & Nd0 & _).
  { unfold counts. now rewrite length_map. }
  { unfold objs, counts. rewrite !length_map, length_drop. reflexivity. }
  { now apply activations_known. }
  assert (Eacts : map activation_func (layers n0) = map activation_func (layers (self s))).
  { apply (activations_eq s (with_self n0 s2) Wf Wf0). exact Hacts0. }
  destruct (load_blocks_run (counts (layers (self s))) (map activation_func (layers (self s)))
              (parameters s) 0 n0 s2 Wf0 Nd0 Hcs0 Eacts Hfits)
    as (net & s3 & Run & Wf3 & Hcs3 & Hacts3 & Hloss3 & _ & Hblk).
  assert (Hparams : parameters (with_self net s3) = parameters s).
  { apply list_eq. intros k. unfold parameters at 1. cbn [self with_self].
    rewrite list_lookup_fmap, lookup_drop.
    destruct (parameters s !! k) as [p|] eqn:Hp.
    - destruct (Hblk k p Hp) as (l' & Hl' & Hlp). rewrite Hl'. cbn. now rewrite Hlp.
    - apply lookup_ge_None in Hp. unfold parameters in Hp.
      rewrite length_map, length_drop in Hp.
      assert (Hnone : layers net !! (1 + k) = None).
      { apply lookup_ge_None. apply (f_equal length) in Hcs3. unfold counts in Hcs3.
        rewrite !length_map in Hcs3. lia. }
      now rewrite Hnone. }
  exists net, s3. split_and!.
  - unfold load. erewrite bind_ok by reflexivity. rewrite Ht.
    unfold text_of. rewrite split_blank_join.
    2:{ discriminate. }
    2:{ constructor; [exact Th|]. apply Forall_fmap, Forall_lookup. intros k p Hp.
        exact (tight_block _ _ _ _ (Hfits k p Hp)). }
    cbn [load_blocks]. rewrite Hh.
    rewrite (split_fields (map (fun l => str_of_nat (neuron_count l)) (layers (self s)))).
    2:{ destruct (layers (self s)); [cbn in Len; lia | discriminate]. }
    2:{ apply Forall_fmap, Forall_forall. intros l _. apply is_field_str_of_nat. }
    rewrite (map_result_map parse_int (fun l => str_of_nat (neuron_count l))
               (fun l => Z.of_nat (neuron_count l)))
      by (apply Forall_forall; intros l _; apply parse_int_str_of_nat).
    erewrite bind_ok by reflexivity.
    assert (Enames : drop 1 (map (fun l => class_name (activation_func l)) (layers (self s)))
                     = map class_name objs).
    { unfold objs. rewrite map_map. symmetry. apply fmap_drop. }
    rewrite Enames. rewrite (split_fields (map class_name objs)).
    2:{ unfold objs. destruct (layers (self s)) as [|? [|? ?]];
          [cbn in Len; lia | cbn in Len; lia | discriminate]. }
    2:{ apply Forall_fmap, Forall_forall. intros o _. apply is_field_class_name. }
    rewrite (map_result_map get_class_by_name class_name id)
      by (apply Forall_forall; intros o _; apply get_class_by_name_class_name).
    rewrite map_id. erewrite bind_ok by reflexivity.
    rewrite get_class_by_name_class_name. erewrite bind_ok by reflexivity.
    assert (Ecounts : map (fun l => Z.of_nat (neuron_count l)) (layers (self s))
                      = map Z.of_nat (counts (layers (self s)))).
    { unfold counts. now rewrite map_map. }
    rewrite Ecounts. erewrite bind_ok by exact Run0. exact Run.
  - exact Hcs3.
  - exact Hacts3.
  - rewrite <- !(map_map activation_func class_name). now rewrite Hacts3.
  - congruence.
  - exact Hparams.
  - intros inputs Lin.
    destruct (predict_depends_on_parameters s (with_self net s3) inputs Wf Wf3 Hparams Lin)
      as (r1 & t1 & r2 & t2 & out & R1 & R2 & O1 & O2 & _).
    + rewrite Lin. unfold input_count. cbn [self with_self].
      assert (E : map neuron_count (layers net) = map neuron_count (layers (self s)))
        by exact Hcs3.
      destruct (layers net), (layers (self s)); try discriminate; trivial.
      cbn in E |- *. congruence.
    + exists r1, t1, r2, t2, out. auto.
Qed.

(** * Further properties of the code *)

(** ** The constructor *)

(** X1.  [NeuralNetwork(...)] refuses, with a [ValueError] and before any
    layer is built (the state, generators included, is untouched), a list of
    fewer than two layer sizes, and a list of activation objects whose length
    is not the number of layers minus one. *)
Theorem X1_constructor_rejects_bad_arguments (sizes : list Z) (loss : pyobj) (s : state) :
  (forall activation, length sizes < 2 ->
     exists msg, NeuralNetwork_init sizes activation loss s = (Raise (ValueError msg), s)) /\
  (forall objs, length objs <> length sizes - 1 ->
     exists msg,
       NeuralNetwork_init sizes (ActivationList objs) loss s = (Raise (ValueError msg), s)).
Proof.
  split.
  - intros activation H. unfold NeuralNetwork_init.
    apply Nat.ltb_lt in H. rewrite H. eexists. reflexivity.
  - intros objs H. unfold NeuralNetwork_init.
    destruct (length sizes <? 2); [eexists; reflexivity|].
    apply Nat.eqb_neq in H. rewrite H. eexists. reflexivity.
Qed.

(** X2.  On at least two positive layer sizes, [NeuralNetwork(sizes, a,
    loss)] with a single activation function [a] returns a well-formed
    network: the layers have the given sizes, every layer after the first
    uses [a] and the first one the default [Sigmoid], the loss is the one
    given and the cost is [-1]; the arrays that existed before are still
    there, unchanged. *)
Theorem X2_constructor_builds (cs : list nat) (a : ActivationFunction) (loss : pyobj)
    (s : state) :
  Forall (fun c => 0 < c) cs -> 2 <= length cs ->
  exists n s',
    NeuralNetwork_init (map Z.of_nat cs) (OneActivation a) loss s = (Ok n, s') /\
    wf (with_self n s') = true /\
    counts (layers n) = cs /\
    map activation_func (layers n)
      = ObjActivation Sigmoid :: replicate (length cs - 1) (ObjActivation a) /\
    loss_func n = loss /\ cost n = flit (-1) 0 /\
    (exists more, vecs s' = vecs s ++ more) /\ (exists more, mats s' = mats s ++ more) /\
    self s' = self s /\ files s' = files s.
Proof.
  intros Pos Len.
  destruct (NeuralNetwork_init_run cs (replicate (length cs - 1) (ObjActivation a)) loss s Pos Len)
    as (n & s' & Run & Hloss & Wf & Hcs & Hacts & _ & Ff).
  { apply length_replicate. }
  { apply Forall_replicate. eauto. }
  assert (Run' : NeuralNetwork_init (map Z.of_nat cs) (OneActivation a) loss s = (Ok n, s')).
  { revert Run. unfold NeuralNetwork_init. now rewrite length_map. }
  exists n, s'. split; [exact Run'|].
  pose proof (wf_length _ Wf) as Ln. cbn in Ln.
  assert (H0 : exists l0, layers n !! 0 = Some l0) by (apply lookup_lt_is_Some; lia).
  destruct H0 as [l0 H0].
  pose proof (wf_lookup (with_self n s') 0 l0 Wf H0) as Ok0.
  apply layer_ok_input in Ok0 as (_ & _ & _ & Ha0).
  revert Run. unfold NeuralNetwork_init. rewrite length_map.
  destruct (length cs <? 2); [discriminate|].
  rewrite length_replicate, Nat.eqb_refl. cbn [negb]. intros Run.
  apply bind_inv_ok in Run as (ls & s1 & Run1 & Run2). injection Run2 as <- <-.
  assert (St : (forall j l, ([] : list Layer) !! j = Some l -> owns_params s (counts []) j l = true))
    by (intros j l Hj; discriminate).
  destruct (build_layers_spec _ _ _ _ _ _ _ _ Run1 eq_refl eq_refl St) as [_ Sf].
  split_and!; trivial.
  - cbn in *. destruct ls as [|l ls]; [discriminate|]. cbn in *.
    injection H0 as ->. rewrite drop_0 in Hacts. now rewrite Ha0, Hacts.
  - clear - Run1. revert Run1. generalize (@nil Layer) at 1. generalize 0 at 1.
    generalize (@None (nat * Layer)).
    generalize (replicate (length cs - 1) (ObjActivation a)).
    generalize (map Z.of_nat cs). intros sizes. revert s.
    induction sizes as [|c sizes IH]; intros s objs prev i acc; cbn [build_layers].
    + intros [= _ <-]. exists []. now rewrite app_nil_r.
    + intros Run. apply bind_inv_ok in Run as (layer & s2 & R1 & R2).
      destruct (Layer_init_spec _ _ _ _ _ _ R1) as ((mv & mm & V & Mm) & _).
      destruct (IH _ _ _ _ _ R2) as [more E]. exists (mv ++ more).
      now rewrite E, V, app_assoc.
  - clear - Run1. revert Run1. generalize (@nil Layer) at 1. generalize 0 at 1.
    generalize (@None (nat * Layer)).
    generalize (replicate (length cs - 1) (ObjActivation a)).
    generalize (map Z.of_nat cs). intros sizes. revert s.
    induction sizes as [|c sizes IH]; intros s objs prev i acc; cbn [build_layers].
    + intros [= _ <-]. exists []. now rewrite app_nil_r.
    + intros Run. apply bind_inv_ok in Run as (layer & s2 & R1 & R2).
      destruct (Layer_init_spec _ _ _ _ _ _ R1) as ((mv & mm & V & Mm) & _).
      destruct (IH _ _ _ _ _ R2) as [more E]. exists (mm ++ more).
      now rewrite E, Mm, app_assoc.
Qed.

(** ** [predict] and [current_cost] *)

(** X3.  On a well-formed network and an input of the input layer's length,
    [predict] returns the output layer's activation array, which has as many
    entries as the output layer has neurons; the network is well-formed
    again, and every array that existed before the call is still there with
    the same contents: each forward pass makes new arrays, so a result
    returned by an earlier call is not overwritten. *)
Theorem X3_predict_output (s : state) (inputs : vec) :
  wf s = true -> length inputs = input_count s ->
  exists r s' out lo,
    predict inputs s = (Ok r, s') /\
    last (layers (self s')) = Some lo /\ activations lo = r /\
    vecs s' !! r = Some out /\ length out = output_count s /\
    wf s' = true /\
    (forall r0 v, vecs s !! r0 = Some v -> vecs s' !! r0 = Some v) /\
    (forall r0 W, mats s !! r0 = Some W -> mats s' !! r0 = Some W).
Proof.
  intros W Lin.
  destruct (predict_run s inputs W Lin) as (r & s' & out & lo & Run & W' & E & Hlo & Hr & Hout & _).
  exists r, s', out, lo. split_and!; trivial.
  - destruct (wf_last s' W') as (lo' & pv & Hlo' & Hpv & Lpv & Out').
    assert (lo' = lo) as -> by congruence. rewrite Hr in Hpv.
    assert (pv = out) as -> by congruence.
    destruct (wf_last s W) as (lo0 & _ & Hlo0 & _ & _ & Out).
    rewrite Out, Lpv. pose proof (ext_static _ _ E) as St.
    rewrite !last_lookup in *.
    assert (Len : length (layers (self s')) = length (layers (self s))).
    { rewrite <- (length_map static), St. apply length_map. }
    rewrite Len in Hlo.
    destruct (static_lookup _ _ _ _ St Hlo) as (l & Hl & El).
    assert (l = lo0) as -> by congruence. unfold static in El. congruence.
  - intros r0 v H. destruct (ext_vecs _ _ E) as [more ->]. now apply lookup_app_l_Some.
  - intros r0 M0 H. destruct (ext_mats _ _ E) as [more ->]. now apply lookup_app_l_Some.
Qed.

(** X4.  [current_cost] only reads: whatever the targets and whatever the
    network, and whether it returns a cost or raises, the state after the
    call is the state before it. *)
Theorem X4_current_cost_reads_only (s : state) (targets : vec) :
  snd (current_cost targets s) = s.
Proof.
  unfold current_cost, last_layer, read_vec, gets, raise, ret, mbind, M_bind, bind.
  destruct (last (layers (self s))) as [lo|]; cbn; [|reflexivity].
  destruct (length (default [] (vecs s !! activations lo)) =? length targets); cbn;
    [|reflexivity].
  unfold loss_cost_obj, lift, none_attr, raise.
  destruct (loss_func (self s)); reflexivity.
Qed.

Lemma map_zip_with {A B C D} (f : C -> D) (g : A -> B -> C) (a : list A) (b : list B) :
  map f (zip_with g a b) = zip_with (fun x y => f (g x y)) a b.
Proof.
  revert b. induction a as [|x a IH]; intros [|y b]; cbn; trivial. now rewrite IH.
Qed.

Lemma pairwise_sum_short depth (a : vec) :
  length a < 8 -> pairwise_sum depth a = fold_left fadd a fzero.
Proof.
  intros H. apply Nat.ltb_lt in H. destruct depth; cbn [pairwise_sum]; now rewrite H.
Qed.

Lemma loss_call_elements lf (pv targets : vec) :
  lf <> CategoricalCrossEntropy -> length pv = length targets ->
  loss_call lf pv targets
  = Ok (Arr1 (zip_with
                (fun p t =>
                   match lf with
                   | MeanSquareError => fpow (fsub p t) 2
                   | MeanAbsoluteError => fabs (fsub p t)
                   | _ =>
                       let q := if fltb p (flit 1 (-15)) then flit 1 (-15)
                                else if fltb (fsub fone (flit 1 (-15))) p
                                     then fsub fone (flit 1 (-15))
                                     else p in
                       fneg (fadd (fmul t (flog q)) (fmul (fsub fone t) (flog (fsub fone q))))
                   end) pv targets)).
Proof.
  intros N L. destruct lf; try congruence; cbn [loss_call].
  - rewrite vbroadcast2_same by trivial. cbn. now rewrite map_zip_with.
  - rewrite vbroadcast2_same by trivial. cbn. now rewrite map_zip_with.
  - assert (L1 : length targets = length (map flog (clip_eps pv)))
      by (rewrite length_map, length_clip_eps; congruence).
    assert (L2 : length (map (fsub fone) targets) =
                 length (map (fun p => flog (fsub fone p)) (clip_eps pv)))
      by (rewrite !length_map, length_clip_eps; congruence).
    rewrite (vbroadcast2_same _ _ _ L1). cbn.
    rewrite (vbroadcast2_same _ _ _ L2). cbn.
    rewrite vbroadcast2_same
      by (rewrite (length_zip_with_same _ _ _ L1), (length_zip_with_same _ _ _ L2), length_map;
          reflexivity).
    cbn. do 2 f_equal. clear. unfold clip_eps, np_clip, clip_scalar.
    revert targets. induction pv as [|p pv IH]; intros [|t targets]; cbn; trivial.
    now rewrite IH.
Qed.

(** X5.  On a well-formed network whose loss is mean square error, mean
    absolute error or binary cross-entropy, and on targets of the output
    layer's length, [current_cost] returns the sum of the errors of the
    output neurons divided by their number, and changes nothing.  The error
    of a neuron with activation [p] and target [t] is [(p - t) ** 2],
    [|p - t|], or [-(t * log(q) + (1 - t) * log(1 - q))] for [p] clipped to
    [q] in [[1e-15, 1 - 1e-15]].  The sum is numpy's: below eight terms,
    they are added to [0.0] one after the other. *)
Theorem X5_current_cost_is_mean_loss (s : state) (targets : vec) lf :
  wf s = true -> loss_func (self s) = ObjLoss lf -> lf <> CategoricalCrossEntropy ->
  length targets = output_count s ->
  exists lo predictions,
    last (layers (self s)) = Some lo /\ vecs s !! activations lo = Some predictions /\
    length predictions = length targets /\
    let error (p t : F) : F :=
      match lf with
      | MeanSquareError => fpow (fsub p t) 2
      | MeanAbsoluteError => fabs (fsub p t)
      | _ =>
          let q := if fltb p (flit 1 (-15)) then flit 1 (-15)
                   else if fltb (fsub fone (flit 1 (-15))) p then fsub fone (flit 1 (-15))
                   else p in
          fneg (fadd (fmul t (flog q)) (fmul (fsub fone t) (flog (fsub fone q))))
      end in
    let e := zip_with error predictions targets in
    current_cost targets s = (Ok (fdiv (fsum e) (f_of_nat (length targets))), s) /\
    (length targets < 8 -> fsum e = fadd fzero (fold_left fadd e fzero)).
Proof.
  intros W Hlf N L. destruct (wf_last s W) as (lo & pv & Hlo & Hpv & Lpv & Out).
  assert (Lp : length pv = length targets) by congruence.
  exists lo, pv. split_and!; trivial. cbv zeta.
  set (e := zip_with _ pv targets).
  assert (Le : length e = length targets).
  { unfold e. rewrite length_zip_with. lia. }
  split.
  - unfold current_cost. erewrite bind_ok by (apply run_last_layer; exact Hlo). cbn beta iota.
    erewrite bind_ok by (apply run_read_vec; exact Hpv).
    replace (length pv =? length targets) with true by (symmetry; apply Nat.eqb_eq; congruence).
    cbn [negb]. erewrite bind_ok by reflexivity. cbn beta. rewrite Hlf. cbn [loss_cost_obj].
    unfold lift, loss_cost. rewrite (loss_call_elements lf pv targets N Lp).
    cbn [rbind nd_mean]. fold e. unfold np_mean. now rewrite Le.
  - intros L8. unfold fsum. f_equal. apply pairwise_sum_short. lia.
Qed.

(** ** [backprop] *)

Lemma has_shape_np_outer (a b : vec) : has_shape (np_outer a b) (length a) (length b) = true.
Proof.
  apply has_shape_spec. unfold np_outer, nrows. cbn. rewrite length_map. split_and!; trivial.
  apply Forall_forall. intros r Hr. apply list_elem_of_fmap in Hr as (x & -> & _).
  apply length_map.
Qed.

Lemma gradient_matches_map (s : state) cs (ls : list Layer) : forall i,
  (forall k l, ls !! k = Some l ->
     exists wg bg np, w_grad l = Some wg /\ z_grad l = Some bg /\ cs !! (i + k) = Some np /\
       has_mat s wg (neuron_count l) np = true /\ has_vec s bg (neuron_count l) = true) ->
  gradient_matches s cs i ls (map (fun l => (w_grad l, z_grad l)) ls) = true.
Proof.
  induction ls as [|l ls IH]; intros i H; [reflexivity|].
  destruct (H 0 l eq_refl) as (wg & bg & np & Hw & Hz & Hnp & Hm & Hv).
  rewrite Nat.add_0_r in Hnp. cbn. rewrite Hw, Hz, Hnp, Hm, Hv. cbn.
  apply IH. intros k l' Hk. destruct (H (S k) l' Hk) as (wg' & bg' & np' & ? & ? & Hnp' & ? & ?).
  exists wg', bg', np'. rewrite Nat.add_succ_r in Hnp'. auto.
Qed.

(** The arrays that [backward] leaves on the layers have the shapes of the
    layers' parameters. *)
Lemma backward_equations_shapes (s : state) :
  wf s = true ->
  (forall p l lp, layers (self s) !! S p = Some l -> layers (self s) !! p = Some lp ->
                  backward_equations s l lp) ->
  gradient_matches s (counts (layers (self s))) 0 (drop 1 (layers (self s)))
    (map (fun l => (w_grad l, z_grad l)) (drop 1 (layers (self s)))) = true.
Proof.
  intros W Heq. apply gradient_matches_map. intros k l Hk. rewrite lookup_drop in Hk.
  cbn [Nat.add] in Hk |- *.
  assert (exists lp, layers (self s) !! k = Some lp) as [lp Hlp].
  { apply lookup_lt_is_Some. apply lookup_lt_Some in Hk. lia. }
  destruct (Heq k l lp Hk Hlp) as (a & Wm & zv & agv & apv & Ha & HW & Hz & Hag & Hap & Hzg & Hwg
                                    & pav & Hpav & _).
  pose proof (wf_lookup s (S k) l W Hk) as Okl.
  apply layer_ok_hidden in Okl
    as (np & a' & w & b & W' & bv & Hnp & _ & _ & Hw & _ & HW' & SW & _ & _).
  rewrite Hw in HW. cbn in HW. assert (Wm = W') as -> by congruence.
  apply has_shape_spec in SW as (R & C & _).
  destruct (layer_ok_buffers _ _ _ _ (wf_lookup s k lp W Hlp)) as (_ & apv' & _ & _ & Hap' & Lap).
  assert (apv' = apv) as -> by congruence.
  rewrite (counts_lookup _ _ _ Hlp) in Hnp. injection Hnp as <-.
  set (zgv := zip_with fmul (act_derivative a zv) agv) in *.
  assert (Lz : length zgv = neuron_count l).
  { unfold mat_vec in Hpav. destruct (mcols (transpose W') =? length zgv) eqn:E; [|discriminate].
    apply Nat.eqb_eq in E. rewrite (proj2 (transpose_shape W')) in E. congruence. }
  destruct (w_grad l) as [wg|]; [|discriminate]. destruct (z_grad l) as [zg|]; [|discriminate].
  cbn in Hzg, Hwg. exists wg, zg, (neuron_count lp). split_and!; trivial.
  - now apply counts_lookup.
  - apply has_mat_spec. eexists. split; [exact Hwg|]. rewrite <- Lz, <- Lap.
    apply has_shape_np_outer.
  - apply has_vec_spec. eauto.
Qed.

(** X6.  On a well-formed network with a loss function, after a forward
    pass, and on targets of the output layer's length, [backprop] returns
    one pair of arrays per layer after the first, of the shapes of that
    layer's weights and biases.  It only computes: the weights, the biases
    and every array that existed before the call are unchanged, and the
    network is well-formed again. *)
Theorem X6_backprop_only_computes (s : state) (targets : vec) lf :
  wf s = true -> loss_func (self s) = ObjLoss lf -> length targets = output_count s ->
  exists g s',
    backprop targets s = (Ok g, s') /\
    length g = length (layers (self s)) - 1 /\
    gradient_matches s' (counts (layers (self s'))) 0 (drop 1 (layers (self s'))) g = true /\
    parameters s' = parameters s /\
    counts (layers (self s')) = counts (layers (self s)) /\
    wf s' = true /\
    (forall r0 v, vecs s !! r0 = Some v -> vecs s' !! r0 = Some v) /\
    (forall r0 W, mats s !! r0 = Some W -> mats s' !! r0 = Some W).
Proof.
  intros W Hlf L. destruct (wf_last s W) as (lo & pv & Hlo & Hpv & Lpv & Out).
  destruct (loss_derivative_same lf pv targets) as (dv & Hd & Ld); [congruence|].
  destruct (backprop_run s targets lf lo pv dv W Hlf Hlo Hpv Hd)
    as (g & s' & lo' & Run & W' & E & Hg & Heq & _); [congruence|].
  pose proof (ext_static _ _ E) as St.
  exists g, s'. split_and!; trivial.
  - rewrite Hg, length_map, length_drop. f_equal.
    rewrite <- (length_map static), St. apply length_map.
  - rewrite Hg. now apply backward_equations_shapes.
  - now apply parameters_extends.
  - now apply static_counts.
  - intros r0 v H. destruct (ext_vecs _ _ E) as [more ->]. now apply lookup_app_l_Some.
  - intros r0 M0 H. destruct (ext_mats _ _ E) as [more ->]. now apply lookup_app_l_Some.
Qed.

(** ** [backprop], then [update_weights] *)

Lemma omap_fmap_pair {A} (f g : A -> option nat) (ls : list A) :
  omap fst (map (fun l => (f l, g l)) ls) = omap f ls /\
  omap snd (map (fun l => (f l, g l)) ls) = omap g ls.
Proof.
  induction ls as [|l ls [IH1 IH2]]; [split; reflexivity|]. cbn. rewrite IH1, IH2.
  split; reflexivity.
Qed.

Lemma omap_formula {A} (f : A -> option nat) (Fm : nat -> nat) (ls : list A) :
  (forall i l, 1 <= i -> ls !! i = Some l -> f l = Some (Fm i)) ->
  omap f (drop 1 ls) = map (fun k => Fm (S k)) (seq 0 (length ls - 1)).
Proof.
  intros H. apply list_eq. intros k.
  rewrite omap_lookup_total.
  - rewrite lookup_drop, list_lookup_fmap. cbn [Nat.add].
    destruct (ls !! S k) as [l|] eqn:Hl; cbn.
    + rewrite (H (S k) l) by (trivial; lia). apply lookup_lt_Some in Hl.
      rewrite lookup_seq_lt by lia. reflexivity.
    + apply lookup_ge_None in Hl. rewrite lookup_seq_ge by lia. reflexivity.
  - apply Forall_lookup. intros j l Hj. rewrite lookup_drop in Hj.
    rewrite (H (1 + j) l) by (trivial; lia). eauto.
Qed.

Lemma NoDup_formula (Fm : nat -> nat) n :
  (forall i j, i < n -> j < n -> Fm (S i) = Fm (S j) -> i = j) ->
  NoDup (map (fun k => Fm (S k)) (seq 0 n)).
Proof.
  intros H. apply NoDup_fmap_2_strong; [|apply NoDup_seq].
  intros x y Hx Hy E. apply elem_of_seq in Hx, Hy. apply H; trivial; lia.
Qed.

(** [update_weights] on a gradient list that matches the network and shares
    no array with it. *)
Lemma update_weights_run (s : state) (g : gradient) (learning_rate : F) :
  wf s = true ->
  gradient_matches s (counts (layers (self s))) 0 (drop 1 (layers (self s))) g = true ->
  separate (layers (self s)) g ->
  exists s',
    update_weights g learning_rate s = (Ok tt, s') /\ self s' = self s /\
    (forall k l, layers (self s) !! S k = Some l ->
       exists w wg b bg,
         entry (layers (self s)) g k l w wg b bg /\ ready s w wg b bg /\
         updated s s' learning_rate w wg b bg).
Proof.
  intros W Hg Sep.
  pose proof (wf_length s W) as Len.
  destruct (update_loop_run g learning_rate (length (layers (self s)) - 1) 0 s)
    as (s' & Run & Eself & Upd & _).
  { lia. }
  { intros j l _ Hl. now apply entries_ready. }
  { exact Sep. }
  assert (exists l0, layers (self s) !! 0 = Some l0) as [l0 H0]
    by (apply lookup_lt_is_Some; lia).
  pose proof (wf_lookup s 0 l0 W H0) as Ok0. apply layer_ok_input in Ok0 as (Hp0 & _).
  exists s'. split_and!; trivial.
  - unfold update_weights. erewrite bind_ok by reflexivity.
    replace (length (layers (self s))) with (S (length (layers (self s)) - 1)) at 1 by lia.
    cbn [seq update_loop]. erewrite bind_ok by (apply run_get_layer; exact H0).
    rewrite Hp0. exact Run.
  - intros k l Hl. destruct (entries_ready s g W Hg k l Hl) as (p & w & wg & b & bg & _ & He & Hr).
    exists w, wg, b, bg. split_and!; trivial. apply (Upd k l); [lia | trivial].
Qed.

Lemma bias_ref_bound (s : state) cs acc x :
  (forall j l, acc !! j = Some l -> layer_ok s cs j l = true) ->
  x ∈ bias_refs acc -> x < length (vecs s).
Proof.
  intros H Hx. unfold bias_refs in Hx. apply list_elem_of_omap in Hx as (l & Hl & Hw).
  apply list_elem_of_lookup in Hl as [j Hj]. specialize (H j l Hj).
  destruct j as [|p].
  - apply layer_ok_input in H as (_ & _ & Hb0 & _). congruence.
  - apply layer_ok_hidden in H as (?&?&?&b&?&bv&?&?&?&?&Hb'&?&?&Hbv&?).
    assert (b = x) as -> by congruence. eapply lookup_lt_Some; eauto.
Qed.

(** X7.  One step of gradient descent composes: on a well-formed network
    with a loss function, whose layers share no weight or bias array, and on
    targets of the output layer's length, the gradient list that [backprop]
    returns is one that [update_weights] accepts.  [update_weights] then
    returns normally on it and, for every layer after the first, clips the
    arrays [backprop] made and decrements the layer's weights and biases by
    the learning rate times the clipped gradient.  Clipping ([clip1]) turns
    an entry below -1 into -1 and an entry above 1 into 1, and leaves every
    other entry as it is. *)
Theorem X7_backprop_feeds_update_weights (s : state) (targets : vec) lf (learning_rate : F) :
  wf s = true -> loss_func (self s) = ObjLoss lf -> length targets = output_count s ->
  distinct (weight_refs (layers (self s))) = true ->
  distinct (bias_refs (layers (self s))) = true ->
  exists g s1 s2,
    backprop targets s = (Ok g, s1) /\
    update_weights g learning_rate s1 = (Ok tt, s2) /\
    self s2 = self s1 /\
    (forall k l, layers (self s1) !! S k = Some l ->
       exists w wg b bg,
         entry (layers (self s1)) g k l w wg b bg /\ ready s1 w wg b bg /\
         updated s1 s2 learning_rate w wg b bg) /\
    (forall x, clip1 x = if fltb x (flit (-1) 0) then flit (-1) 0
                         else if fltb (flit 1 0) x then flit 1 0 else x).
Proof.
  intros W Hlf L Dw Db. destruct (wf_last s W) as (lo & pv & Hlo & Hpv & Lpv & Out).
  destruct (loss_derivative_same lf pv targets) as (dv & Hd & Ld); [congruence|].
  destruct (backprop_run_fresh s targets lf lo pv dv W Hlf Hlo Hpv Hd)
    as (g & s1 & lo' & Run & W1 & E & Hg & Heq & _ & _ & _ & _ & Fresh); [congruence|].
  pose proof (ext_static _ _ E) as St.
  assert (Len : length (layers (self s1)) = length (layers (self s))).
  { rewrite <- (length_map static), St. apply length_map. }
  assert (Hgm : gradient_matches s1 (counts (layers (self s1))) 0 (drop 1 (layers (self s1))) g
                = true) by (rewrite Hg; now apply backward_equations_shapes).
  set (n := length (layers (self s))) in *. set (m := length (mats s)) in *.
  set (v := length (vecs s)) in *.
  assert (Gw : gradient_wrefs g
               = map (fun k => m + (n - 1 - S k)) (seq 0 (length (layers (self s1)) - 1))).
  { unfold gradient_wrefs. rewrite Hg, (proj1 (omap_fmap_pair w_grad z_grad _)).
    apply (omap_formula w_grad (fun i => m + (n - 1 - i))).
    intros i l Hi Hl. now apply (Fresh i l). }
  assert (Gb : gradient_brefs g
               = map (fun k => S v + 2 * (n - 1 - S k)) (seq 0 (length (layers (self s1)) - 1))).
  { unfold gradient_brefs. rewrite Hg, (proj2 (omap_fmap_pair w_grad z_grad _)).
    apply (omap_formula z_grad (fun i => S v + 2 * (n - 1 - i))).
    intros i l Hi Hl. now apply (Fresh i l). }
  rewrite Len in Gw, Gb.
  assert (Ew : weight_refs (layers (self s1)) = weight_refs (layers (self s))).
  { apply omap_map_eq. apply (f_equal (map (fun x => snd (fst x)))) in St.
    now rewrite !map_map in St. }
  assert (Eb : bias_refs (layers (self s1)) = bias_refs (layers (self s))).
  { apply omap_map_eq. apply (f_equal (map snd)) in St. now rewrite !map_map in St. }
  assert (Sep : separate (layers (self s1)) g).
  { apply (entries_separate s1 g W1 Hgm).
    - apply bool_decide_eq_true. apply bool_decide_eq_true in Dw.
      rewrite Ew, Gw. apply NoDup_app. split_and!; trivial.
      + intros x Hx Hin. apply (weight_ref_bound s (counts (layers (self s)))) in Hx.
        * apply list_elem_of_fmap in Hin as (k & -> & _). fold m in Hx. lia.
        * intros j l Hj. now apply wf_lookup.
      + apply (NoDup_formula (fun i => m + (n - 1 - i))). intros i j Hi Hj. lia.
    - apply bool_decide_eq_true. apply bool_decide_eq_true in Db.
      rewrite Eb, Gb. apply NoDup_app. split_and!; trivial.
      + intros x Hx Hin. apply (bias_ref_bound s (counts (layers (self s)))) in Hx.
        * apply list_elem_of_fmap in Hin as (k & -> & _). fold v in Hx. lia.
        * intros j l Hj. now apply wf_lookup.
      + apply (NoDup_formula (fun i => S v + 2 * (n - 1 - i))). intros i j Hi Hj. lia. }
  destruct (update_weights_run s1 g learning_rate W1 Hgm Sep) as (s2 & Run2 & Eself & Upd).
  exists g, s1, s2. split_and!; auto.
Qed.

(** ** [update_weights] on a short gradient list *)

(** X8.  [update_weights] indexes the gradient list once per layer after the
    first and does not check its length: on a well-formed network, an empty
    gradient list makes it raise [IndexError], and nothing has changed. *)
Theorem X8_update_weights_empty_gradient (s : state) (learning_rate : F) :
  wf s = true ->
  update_weights [] learning_rate s = (Raise (IndexError "list index out of range"), s).
Proof.
  intros W. pose proof (wf_length s W) as Len.
  assert (exists l0, layers (self s) !! 0 = Some l0) as [l0 H0]
    by (apply lookup_lt_is_Some; lia).
  assert (exists l1, layers (self s) !! 1 = Some l1) as [l1 H1]
    by (apply lookup_lt_is_Some; lia).
  pose proof (wf_lookup s 0 l0 W H0) as Ok0. apply layer_ok_input in Ok0 as (Hp0 & _).
  pose proof (wf_lookup s 1 l1 W H1) as Ok1.
  apply layer_ok_hidden in Ok1 as (?&?&?&?&?&?&?&Hp1&_).
  unfold update_weights. erewrite bind_ok by reflexivity.
  destruct (length (layers (self s))) as [|[|n]]; [lia | lia |].
  cbn [seq update_loop]. erewrite bind_ok by (apply run_get_layer; exact H0).
  rewrite Hp0. erewrite bind_ok by (apply run_get_layer; exact H1).
  rewrite Hp1. reflexivity.
Qed.

(** ** [train] *)

Lemma init_moments_run (ls : list Layer) (s : state) :
  exists ms, init_moments ls s = (Ok ms, s).
Proof.
  induction ls as [|l ls [ms IH]]; [eexists; reflexivity|]. cbn [init_moments].
  destruct (previous_layer l); [|eauto].
  assert (exists mw, zeros_like_mat (weights l) s = (Ok mw, s)) as [mw Hw]
    by (unfold zeros_like_mat; destruct (weights l); eexists; reflexivity).
  assert (exists mb, zeros_like_vec (biases l) s = (Ok mb, s)) as [mb Hb]
    by (unfold zeros_like_vec; destruct (biases l); eexists; reflexivity).
  erewrite bind_ok by exact Hw. erewrite bind_ok by exact Hb.
  erewrite bind_ok by exact IH. eexists. reflexivity.
Qed.

Lemma random_shuffle_run {A} (l : list A) (s : state) :
  random_shuffle l s
  = (Ok (fst (shuffle_from (length l - 1) l (py_random s))),
     with_py_random (snd (shuffle_from (length l - 1) l (py_random s))) s).
Proof.
  unfold random_shuffle. erewrite bind_ok by reflexivity. cbn beta.
  destruct (shuffle_from (length l - 1) l (py_random s)) as [l' g']. reflexivity.
Qed.

Lemma with_py_random_twice g g' (s : state) :
  with_py_random g' (with_py_random g s) = with_py_random g' s.
Proof. reflexivity. Qed.

(** X9.  [train] validates its arguments before any work: an empty list or
    tuple as data set, and (with any data set that is not refused as empty)
    a validation split for which [0 <= validation_split < 1] does not hold,
    make it raise [ValueError]; the state, the weights, the cost and both
    random generators included, is the one before the call. *)
Theorem X9_train_validates_first (s : state) epochs batch_size (learning_rate : F) :
  (forall validation_split,
     train (PySequence []) epochs batch_size learning_rate validation_split s
     = (Raise (ValueError "Training dataset is empty."), s)) /\
  (forall dataset validation_split,
     fleb fzero validation_split && fltb validation_split fone = false ->
     exists msg,
       train dataset epochs batch_size learning_rate validation_split s
       = (Raise (ValueError msg), s)).
Proof.
  split.
  - intros validation_split. apply train_rejects_empty_sequence.
  - intros dataset validation_split H. now apply train_rejects_validation_split.
Qed.

(** X10.  With no epoch to run ([epochs <= 0]) and arguments that pass the
    validation, [train] returns normally having only listed, shuffled and
    split the data set: apart from the generator of [random.shuffle], the
    state (weights, biases, cost, every array) is the one before the call. *)
Theorem X10_train_without_epochs (s : state) (dataset : iterable example) epochs batch_size
    (learning_rate validation_split : F) :
  truthy dataset = true ->
  fleb fzero validation_split && fltb validation_split fone = true ->
  (epochs <= 0)%Z ->
  (feqb validation_split fzero = true \/
   exists k, ftrunc (fmul (fsub fone validation_split) (f_of_nat (length (to_list dataset))))
             = Ok k) ->
  exists g,
    train dataset epochs batch_size learning_rate validation_split s
    = (Ok tt, with_py_random g s).
Proof.
  intros T V E K. unfold train. rewrite T, V. cbn [negb].
  erewrite bind_ok by reflexivity. cbn beta.
  destruct (init_moments_run (layers (self s)) s) as [m_t Hm].
  erewrite bind_ok by exact Hm. erewrite bind_ok by exact Hm.
  erewrite bind_ok by apply random_shuffle_run.
  set (sh := shuffle_from (length (to_list dataset) - 1) (to_list dataset) (py_random s)).
  replace (Z.to_nat epochs) with 0 by lia.
  assert (Lsh : forall {A} n (l : list A) g, length (fst (shuffle_from n l g)) = length l).
  { intros A n. induction n as [|n IH]; intros l g; [reflexivity|]. cbn [shuffle_from].
    destruct (randbelow g (S (S n))) as [j g']. rewrite IH. unfold swap.
    destruct (l !! S n), (l !! j); trivial. now rewrite !length_insert. }
  exists (snd sh). destruct K as [K|[k K]].
  - rewrite K. erewrite bind_ok by reflexivity. reflexivity.
  - destruct (feqb validation_split fzero).
    + erewrite bind_ok by reflexivity. reflexivity.
    + unfold sh. rewrite Lsh, K. erewrite bind_ok by reflexivity. reflexivity.
Qed.

Lemma with_py_random_same (s : state) : with_py_random (py_random s) s = s.
Proof. now destruct s. Qed.

(** X11.  When the split leaves no training example (the split index
    [int((1 - validation_split) * len(dataset))] is [0], as with a single
    example and any non-zero validation split) and there is an epoch to
    run, [train] fails in its first epoch: with [batch_size <= 0] the batch
    size becomes [0] and [range(0, 0, 0)] raises [ValueError]; with a
    positive batch size there is no batch and the mean cost divides by zero.
    Apart from the generator of [random.shuffle], the state is the one
    before the call. *)
Theorem X11_train_without_training_examples (s : state) (dataset : iterable example)
    epochs batch_size (learning_rate validation_split : F) :
  truthy dataset = true ->
  fleb fzero validation_split && fltb validation_split fone = true ->
  (0 < epochs)%Z ->
  feqb validation_split fzero = false ->
  ftrunc (fmul (fsub fone validation_split) (f_of_nat (length (to_list dataset)))) = Ok 0%Z ->
  exists g,
    train dataset epochs batch_size learning_rate validation_split s
    = (Raise (if (batch_size <=? 0)%Z
              then ValueError "range() arg 3 must not be zero"
              else ZeroDivisionError "division by zero"),
       with_py_random g s).
Proof.
  intros T V E Z0 K. unfold train. rewrite T, V. cbn [negb].
  erewrite bind_ok by reflexivity. cbn beta.
  destruct (init_moments_run (layers (self s)) s) as [m_t Hm].
  erewrite bind_ok by exact Hm. erewrite bind_ok by exact Hm.
  erewrite bind_ok by apply random_shuffle_run.
  set (sh := shuffle_from (length (to_list dataset) - 1) (to_list dataset) (py_random s)).
  assert (Lsh : forall {A} n (l : list A) g, length (fst (shuffle_from n l g)) = length l).
  { intros A n. induction n as [|n IH]; intros l g; [reflexivity|]. cbn [shuffle_from].
    destruct (randbelow g (S (S n))) as [j g']. rewrite IH. unfold swap.
    destruct (l !! S n), (l !! j); trivial. now rewrite !length_insert. }
  exists (snd sh). rewrite Z0. unfold sh. rewrite Lsh, K. fold sh.
  erewrite bind_ok by reflexivity.
  assert (Etrain : slice_to (fst sh) 0 = []) by reflexivity.
  rewrite Etrain. cbn [length].
  destruct (Z.to_nat epochs) as [|e] eqn:Ee; [lia|]. cbn [epochs_loop].
  erewrite bind_ok by apply random_shuffle_run. cbn [length Nat.sub shuffle_from fst snd].
  rewrite with_py_random_same.
  destruct (batch_size <=? 0)%Z eqn:Eb.
  - reflexivity.
  - apply Z.leb_gt in Eb.
    assert (Hb : (Z.to_nat batch_size =? 0) = false) by (apply Nat.eqb_neq; lia).
    rewrite Hb.
    assert (Hr : range_step 0 (Z.to_nat batch_size) = []).
    { unfold range_step. rewrite Nat.div_small by lia. reflexivity. }
    rewrite Hr. cbn [batches_loop]. erewrite bind_ok by reflexivity. reflexivity.
Qed.

(** ** [save] and [load], edge behaviour *)

(** X12.  [save] opens the file for writing first.  When that raises (a
    directory, a missing parent directory, an empty path), [save] raises
    the same exception and nothing has changed.  When the file opens, then on
    a well-formed network [save] returns normally and the file holds the
    text of the network, whatever it held before ([text_of]: the header,
    then one block per layer after the first); the network, the arrays and
    the random generators are unchanged, and saving again to the same path
    changes nothing. *)
Theorem X12_save_replaces_the_file (s : state) (filepath : string) :
  wf s = true ->
  (forall e, open_w_error filepath = Some e -> save filepath s = (Raise e, s)) /\
  (open_w_error filepath = None ->
   exists s',
     save filepath s = (Ok tt, s') /\
     files s' !! filepath = Some (text_of s) /\
     self s' = self s /\ vecs s' = vecs s /\ mats s' = mats s /\
     np_random s' = np_random s /\ py_random s' = py_random s /\
     save filepath s' = (Ok tt, s')).
Proof.
  intros W. split.
  - intros e He. unfold save. erewrite bind_ok by reflexivity.
    erewrite bind_raise by (apply file_open_w_raise; exact He). reflexivity.
  - intros Open. exists (wfile filepath (text_of s) s). split_and!; try reflexivity.
    + now apply save_run.
    + unfold wfile. cbn. apply lookup_insert_eq.
    + rewrite save_run by trivial.
      unfold wfile, text_of, with_files. cbn. now rewrite insert_insert_eq.
Qed.

(** X13.  [load] unpacks the lines of the first block of the file into
    exactly three names (sizes, activation names, loss name): when the first
    block has another number of lines, as in an empty file, [load] raises
    [ValueError] and nothing has changed (no network is built, no random
    number is drawn). *)
Theorem X13_load_wants_three_header_lines (s : state) (filepath text header : string)
    (rest : list string) :
  files s !! filepath = Some text ->
  split_blank text = header :: rest ->
  length (split_char newline_char header) <> 3 ->
  exists msg, load filepath s = (Raise (ValueError msg), s).
Proof.
  intros Hf Hb Hl. unfold load. erewrite bind_ok by reflexivity. cbn beta.
  rewrite Hf, Hb. cbn [load_blocks].
  destruct (split_char newline_char header) as [|a [|b [|c [|d l]]]];
    try (eexists; reflexivity).
  cbn in Hl. lia.
Qed.

(** ** Neurons *)

Lemma wf_same_layers (s s' : state) :
  wf s = true -> self s' = self s -> shape_le s s' -> wf s' = true.
Proof.
  intros W Es Sh. unfold wf in *. rewrite Es. apply andb_true_iff in W as [W1 W2].
  rewrite andb_true_iff. split; [trivial|]. rewrite all_layers_lookup in *.
  intros j l Hl. specialize (W2 j l Hl). unfold layer_ok, buffers_ok in *.
  rewrite !andb_true_iff in *. destruct W2 as [[O Lk] [Bz Ba]]. split_and!; trivial.
  - eapply owns_params_shape_le; eauto.
  - apply has_vec_spec in Bz as (v & Hv & L). apply has_vec_spec.
    destruct (sl_vecs _ _ Sh _ _ Hv) as (v' & Hv' & L'). exists v'. split; [trivial|congruence].
  - apply has_vec_spec in Ba as (v & Hv & L). apply has_vec_spec.
    destruct (sl_vecs _ _ Sh _ _ Hv) as (v' & Hv' & L'). exists v'. split; [trivial|congruence].
Qed.

Lemma shape_le_insert_vec (s : state) r (v v' : vec) :
  vecs s !! r = Some v -> length v' = length v ->
  shape_le s (with_vecs (<[r := v']> (vecs s)) s).
Proof.
  intros Hv L. split; cbn; eauto. intros q x H. destruct (decide (r = q)) as [->|Ne].
  - exists v'. split; [apply list_lookup_insert_eq; eapply lookup_lt_Some; eauto|congruence].
  - exists x. split; [now rewrite list_lookup_insert_ne|trivial].
Qed.

Lemma shape_le_insert_mat (s : state) r (W W' : matrix) :
  mats s !! r = Some W -> nrows W' = nrows W -> mcols W' = mcols W ->
  (rectangular W = true -> rectangular W' = true) ->
  shape_le s (with_mats (<[r := W']> (mats s)) s).
Proof.
  intros HW R C Re. split; cbn; eauto. intros q x H. destruct (decide (r = q)) as [->|Ne].
  - exists W'. split; [apply list_lookup_insert_eq; eapply lookup_lt_Some; eauto|].
    assert (x = W) as -> by congruence. auto.
  - exists x. split_and!; [now rewrite list_lookup_insert_ne|trivial..].
Qed.

(** X14.  Setting the bias of a neuron of a layer after the first and
    reading it back: on a well-formed network the setter returns, the getter
    then returns the value set, the biases of the other neurons of the layer
    read as before, the weights are untouched and the network is
    well-formed again. *)
Theorem X14_neuron_bias_round_trip (s : state) p l k (value : F) :
  wf s = true -> layers (self s) !! S p = Some l -> k < neuron_count l ->
  exists s',
    Neuron_set_bias (mkNeuron (S p) k) value s = (Returns tt, s') /\
    Neuron_bias (mkNeuron (S p) k) s' = (Ok (Some value), s') /\
    (forall k', k' <> k ->
       fst (Neuron_bias (mkNeuron (S p) k') s') = fst (Neuron_bias (mkNeuron (S p) k') s)) /\
    wf s' = true /\ self s' = self s /\ mats s' = mats s.
Proof.
  intros W Hl Hk. pose proof (wf_lookup s (S p) l W Hl) as Okl.
  apply layer_ok_hidden in Okl
    as (np & a & w & b & Wm & bv & Hnp & Hp & Ha & Hw & Hb & HW & SW & Hbv & Lbv).
  set (s' := with_vecs (<[b := <[k := value]> bv]> (vecs s)) s).
  assert (Hbv' : vecs s' !! b = Some (<[k := value]> bv)).
  { cbn. apply list_lookup_insert_eq. eapply lookup_lt_Some; eauto. }
  assert (Get : forall k', Neuron_bias (mkNeuron (S p) k') s'
                           = (match <[k := value]> bv !! k' with
                              | Some x => Ok (Some x)
                              | None => Raise out_of_bounds
                              end, s')).
  { intros k'. unfold Neuron_bias. cbn [neuron_layer neuron_index].
    erewrite bind_ok by (apply run_get_layer; exact Hl). rewrite Hp, Hb.
    erewrite bind_ok by (apply run_read_vec; exact Hbv').
    unfold subscript. destruct (<[k := value]> bv !! k'); reflexivity. }
  assert (Get0 : forall k', Neuron_bias (mkNeuron (S p) k') s
                            = (match bv !! k' with
                               | Some x => Ok (Some x)
                               | None => Raise out_of_bounds
                               end, s)).
  { intros k'. unfold Neuron_bias. cbn [neuron_layer neuron_index].
    erewrite bind_ok by (apply run_get_layer; exact Hl). rewrite Hp, Hb.
    erewrite bind_ok by (apply run_read_vec; exact Hbv).
    unfold subscript. destruct (bv !! k'); reflexivity. }
  exists s'. split_and!; trivial.
  - unfold Neuron_set_bias. cbn [neuron_layer neuron_index].
    rewrite (run_get_layer s (S p) l Hl), Hp, Hb. unfold run_builtin, inplace_vec.
    erewrite bind_ok by (apply run_read_vec; exact Hbv).
    unfold assign_item. assert ((k <? length bv) = true) as -> by (apply Nat.ltb_lt; lia).
    erewrite bind_ok by reflexivity. reflexivity.
  - rewrite Get, list_lookup_insert_eq by lia. reflexivity.
  - intros k' Nk. rewrite Get, Get0, list_lookup_insert_ne by congruence. reflexivity.
  - apply (wf_same_layers s s' W eq_refl).
    apply (shape_le_insert_vec s b bv); [trivial | apply length_insert].
Qed.

Lemma rectangular_insert (W : matrix) k (row : vec) :
  rectangular W = true -> length row = mcols W ->
  rectangular (mkMatrix (<[k := row]> (mrows W)) (mcols W)) = true.
Proof.
  unfold rectangular. cbn. rewrite !forallb_forall. intros R L x Hx.
  apply list_elem_of_In, list_elem_of_lookup in Hx as [i Hi].
  destruct (decide (i = k)) as [->|Ne].
  - assert (Lt : k < length (mrows W)).
    { apply lookup_lt_Some in Hi. now rewrite length_insert in Hi. }
    rewrite list_lookup_insert_eq in Hi by trivial. injection Hi as <-. now apply Nat.eqb_eq.
  - rewrite list_lookup_insert_ne in Hi by congruence.
    apply R, list_elem_of_In, list_elem_of_lookup. eauto.
Qed.

(** X15.  The setter of a neuron's weights, on a layer after the first of a
    well-formed network.  A value whose length is not the previous layer's
    neuron count is refused with [ValueError] and nothing changes.  A value
    of that length replaces the neuron's row: the getter then returns it,
    the rows of the other neurons read as before, the biases are untouched
    and the network is well-formed again. *)
Theorem X15_neuron_weights_setter (s : state) p l lp k (value : vec) :
  wf s = true -> layers (self s) !! S p = Some l -> layers (self s) !! p = Some lp ->
  k < neuron_count l ->
  (length value <> neuron_count lp ->
     Neuron_set_weights (mkNeuron (S p) k) value s
     = (Raises (Builtin (ValueError "Cannot set weights, array lengths do not match.")), s)) /\
  (length value = neuron_count lp ->
     exists s',
       Neuron_set_weights (mkNeuron (S p) k) value s = (Returns tt, s') /\
       Neuron_weights (mkNeuron (S p) k) s' = (Ok (Some value), s') /\
       (forall k', k' <> k ->
          fst (Neuron_weights (mkNeuron (S p) k') s')
          = fst (Neuron_weights (mkNeuron (S p) k') s)) /\
       wf s' = true /\ self s' = self s /\ vecs s' = vecs s).
Proof.
  intros W Hl Hlp Hk. pose proof (wf_lookup s (S p) l W Hl) as Okl.
  apply layer_ok_hidden in Okl
    as (np & a & w & b & Wm & bv & Hnp & Hp & Ha & Hw & Hb & HW & SW & Hbv & Lbv).
  rewrite (counts_lookup _ _ _ Hlp) in Hnp. injection Hnp as <-.
  pose proof SW as SW'. apply has_shape_spec in SW' as (R & C & Rect).
  assert (exists row, mrows Wm !! k = Some row) as [row Hrow]
    by (apply lookup_lt_is_Some; fold (nrows Wm); lia).
  assert (Lrow : length row = neuron_count lp).
  { rewrite Forall_lookup in Rect. exact (Rect k row Hrow). }
  assert (Get0 : forall k', Neuron_weights (mkNeuron (S p) k') s
                            = (match mrows Wm !! k' with
                               | Some x => Ok (Some x)
                               | None => Raise out_of_bounds
                               end, s)).
  { intros k'. unfold Neuron_weights. cbn [neuron_layer neuron_index].
    erewrite bind_ok by (apply run_get_layer; exact Hl). rewrite Hp, Hw.
    erewrite bind_ok by (apply run_read_mat; exact HW).
    unfold subscript_row. destruct (mrows Wm !! k'); reflexivity. }
  split.
  - intros Lv. unfold Neuron_set_weights. cbn [neuron_layer neuron_index].
    rewrite (run_get_layer s (S p) l Hl), Hp, Hw. unfold run_builtin.
    erewrite bind_ok by (apply run_read_mat; exact HW).
    unfold subscript_row. rewrite Hrow. erewrite bind_ok by reflexivity.
    assert ((length row =? length value) = false) as -> by (apply Nat.eqb_neq; congruence).
    reflexivity.
  - intros Lv.
    set (W' := mkMatrix (<[k := value]> (mrows Wm)) (mcols Wm)).
    set (s' := with_mats (<[w := W']> (mats s)) s).
    assert (HW' : mats s' !! w = Some W').
    { cbn. apply list_lookup_insert_eq. eapply lookup_lt_Some; eauto. }
    assert (Get : forall k', Neuron_weights (mkNeuron (S p) k') s'
                             = (match <[k := value]> (mrows Wm) !! k' with
                                | Some x => Ok (Some x)
                                | None => Raise out_of_bounds
                                end, s')).
    { intros k'. unfold Neuron_weights. cbn [neuron_layer neuron_index].
      erewrite bind_ok by (apply run_get_layer; exact Hl). rewrite Hp, Hw.
      erewrite bind_ok by (apply run_read_mat; exact HW').
      unfold subscript_row. cbn [mrows W']. destruct (<[k := value]> (mrows Wm) !! k'); reflexivity. }
    exists s'. split_and!; trivial.
    + unfold Neuron_set_weights. cbn [neuron_layer neuron_index].
      rewrite (run_get_layer s (S p) l Hl), Hp, Hw. unfold run_builtin.
      erewrite bind_ok by (apply run_read_mat; exact HW).
      unfold subscript_row. rewrite Hrow. erewrite bind_ok by reflexivity.
      assert ((length row =? length value) = true) as -> by (apply Nat.eqb_eq; congruence).
      cbn [negb]. unfold inplace_mat.
      erewrite bind_ok by (apply run_read_mat; exact HW).
      unfold assign_row.
      assert ((nrows Wm <=? k) = false) as -> by (apply Nat.leb_gt; lia).
      assert ((length value =? mcols Wm) = true) as -> by (apply Nat.eqb_eq; congruence).
      erewrite bind_ok by reflexivity. reflexivity.
    + rewrite Get, list_lookup_insert_eq by (fold (nrows Wm); lia). reflexivity.
    + intros k' Nk. rewrite Get, Get0, list_lookup_insert_ne by congruence. reflexivity.
    + apply (wf_same_layers s s' W eq_refl).
      apply (shape_le_insert_mat s w Wm W'); trivial.
      * unfold W', nrows. cbn. apply length_insert.
      * intros Re. apply rectangular_insert; [trivial | congruence].
Qed.

(** X16.  The neurons of the first layer have neither weights nor bias: on
    a well-formed network the getters return [None] and the three setters
    (weights, bias, activation) raise [Exception]; nothing changes. *)
Theorem X16_input_neurons_are_read_only (s : state) k (row : vec) (x : F) :
  wf s = true ->
  Neuron_weights (mkNeuron 0 k) s = (Ok None, s) /\
  Neuron_bias (mkNeuron 0 k) s = (Ok None, s) /\
  (exists msg, Neuron_set_weights (mkNeuron 0 k) row s = (Raises (PlainException msg), s)) /\
  (exists msg, Neuron_set_bias (mkNeuron 0 k) x s = (Raises (PlainException msg), s)) /\
  (exists msg, Neuron_set_activation (mkNeuron 0 k) x s = (Raises (PlainException msg), s)).
Proof.
  intros W. pose proof (wf_length s W) as Len.
  assert (exists l0, layers (self s) !! 0 = Some l0) as [l0 H0]
    by (apply lookup_lt_is_Some; lia).
  pose proof (wf_lookup s 0 l0 W H0) as Ok0. apply layer_ok_input in Ok0 as (Hp0 & _).
  unfold Neuron_weights, Neuron_bias, Neuron_set_weights, Neuron_set_bias,
    Neuron_set_activation. cbn [neuron_layer neuron_index].
  rewrite !(run_get_layer s 0 l0 H0), Hp0.
  split_and!; try (eexists; reflexivity).
  - erewrite bind_ok by (apply run_get_layer; exact H0). now rewrite Hp0.
  - erewrite bind_ok by (apply run_get_layer; exact H0). now rewrite Hp0.
Qed.

(** X17.  The setter of a neuron's activation, on a layer after the first
    of a well-formed network, writes into the layer's activation array
    itself: that array (the one [predict] returned, for the output layer)
    then holds the value at the neuron's index and its other entries as
    before; the getter returns the value, the weights are unchanged and the
    network is well-formed again. *)
Theorem X17_neuron_activation_setter (s : state) p l k (value : F) av :
  wf s = true -> layers (self s) !! S p = Some l -> k < neuron_count l ->
  vecs s !! activations l = Some av ->
  exists s',
    Neuron_set_activation (mkNeuron (S p) k) value s = (Returns tt, s') /\
    vecs s' !! activations l = Some (<[k := value]> av) /\
    Neuron_activation (mkNeuron (S p) k) s' = (Ok value, s') /\
    self s' = self s /\ mats s' = mats s /\ wf s' = true.
Proof.
  intros W Hl Hk Hav. pose proof (wf_lookup s (S p) l W Hl) as Okl.
  destruct (layer_ok_buffers _ _ _ _ Okl) as (_ & av' & _ & _ & Hav' & Lav).
  assert (av' = av) as -> by congruence.
  apply layer_ok_hidden in Okl
    as (np & a & w & b & Wm & bv & Hnp & Hp & Ha & Hw & Hb & HW & SW & Hbv & Lbv).
  set (s' := with_vecs (<[activations l := <[k := value]> av]> (vecs s)) s).
  assert (Hav1 : vecs s' !! activations l = Some (<[k := value]> av)).
  { cbn. apply list_lookup_insert_eq. eapply lookup_lt_Some; eauto. }
  assert (Sh : shape_le s s').
  { apply (shape_le_insert_vec s (activations l) av); [trivial | apply length_insert]. }
  assert (W' : wf s' = true) by exact (wf_same_layers s s' W eq_refl Sh).
  exists s'. split_and!; trivial.
  - unfold Neuron_set_activation. cbn [neuron_layer neuron_index].
    rewrite (run_get_layer s (S p) l Hl), Hp. unfold run_builtin, inplace_vec.
    erewrite bind_ok by (apply run_read_vec; exact Hav).
    unfold assign_item. assert ((k <? length av) = true) as -> by (apply Nat.ltb_lt; lia).
    erewrite bind_ok by reflexivity. reflexivity.
  - unfold Neuron_activation. cbn [neuron_layer neuron_index].
    erewrite bind_ok by (apply run_get_layer; exact Hl).
    erewrite bind_ok by (apply run_read_vec; exact Hav1).
    unfold subscript. now rewrite list_lookup_insert_eq by lia.
Qed.

(** ** [lunch-ai.py] *)

Section LunchProofs.
Context {char : Type} {char_eq : EqDecision char}.

Lemma letters_fold (ls : list char) m (c : char) j :
  NoDup ls -> m <= length ls ->
  fold_left (fun d i => match ls !! i with
                        | Some c => dict_set d c i
                        | None => d
                        end) (seq 0 m) (fun _ => None) c = Some j
  <-> j < m /\ ls !! j = Some c.
Proof.
  intros N. induction m as [|m IH]; intros Hm.
  - cbn. split; [discriminate | intros [H _]; lia].
  - rewrite seq_S, fold_left_app. cbn [fold_left Nat.add].
    assert (exists cm, ls !! m = Some cm) as [cm Hcm] by (apply lookup_lt_is_Some; lia).
    rewrite Hcm. unfold dict_set at 1. destruct (decide (c = cm)) as [->|Ne].
    + split.
      * intros [= <-]. split; [lia | trivial].
      * intros [_ H]. f_equal. eapply NoDup_lookup; eauto.
    + rewrite IH by lia. split.
      * intros [H1 H2]. split; [lia | trivial].
      * intros [H1 H2]. split; [|trivial].
        destruct (decide (j = m)) as [->|]; [congruence | lia].
Qed.

(** The dictionary maps each character of [_letters] to its position. *)
Lemma letters_spec (ls : list char) (c : char) j :
  NoDup ls -> letters ls c = Some j <-> ls !! j = Some c.
Proof.
  intros N. unfold letters, letters_count. rewrite letters_fold by trivial. split.
  - now intros [_ H].
  - intros H. split; [eapply lookup_lt_Some; eauto | trivial].
Qed.

Lemma one_hot_loop_run (ls : list char) : forall (name : list char) i (P : vec) rest_len,
  NoDup ls ->
  Forall (fun c => c ∈ ls) name ->
  length P = i * letters_count ls ->
  rest_len = length name + (rest_len - length name) ->
  one_hot_loop ls name i (P ++ replicate (rest_len * letters_count ls) fzero)
  = Fine (P ++ concat (map (fun c => one_hot (letters_count ls) (default 0 (letters ls c))) name)
            ++ replicate ((rest_len - length name) * letters_count ls) fzero).
Proof.
  induction name as [|c name IH]; intros i P rest_len N Hin LP Hlen.
  - cbn. now rewrite Nat.sub_0_r.
  - inversion Hin as [|? ? Hc Hin']; subst. cbn [one_hot_loop map concat length].
    apply list_elem_of_lookup in Hc as [j Hj].
    pose proof (lookup_lt_Some _ _ _ Hj) as Lj. fold (letters_count ls) in Lj.
    rewrite (proj2 (letters_spec ls c j N) Hj). cbn [default].
    destruct rest_len as [|r]; [cbn in Hlen; lia|].
    assert (Er : replicate (S r * letters_count ls) (fzero : F)
                 = replicate (letters_count ls) fzero ++ replicate (r * letters_count ls) fzero).
    { cbn [Nat.mul]. apply replicate_add. }
    rewrite Er.
    assert ((i * letters_count ls + j <?
             length (P ++ replicate (letters_count ls) fzero
                       ++ replicate (r * letters_count ls) fzero)) = true) as ->.
    { apply Nat.ltb_lt. rewrite !length_app, !length_replicate. lia. }
    rewrite insert_app_r_alt by lia.
    replace (i * letters_count ls + j - length P) with j by lia.
    rewrite insert_app_l by (rewrite length_replicate; lia).
    fold (one_hot (letters_count ls) j).
    rewrite (app_assoc P).
    rewrite (IH (S i) (P ++ one_hot (letters_count ls) j) r N Hin').
    + rewrite <- !app_assoc. cbn [length Nat.sub]. reflexivity.
    + rewrite length_app. unfold one_hot. rewrite length_insert, length_replicate. lia.
    + cbn in Hlen. lia.
Qed.

(** X18.  [one_hot_encode] on a name that is not longer than
    [longest_lunch_len] and whose characters all occur in [_letters] (a
    tuple of distinct characters): the result has
    [longest_lunch_len * letters_count] entries and is the concatenation of
    one block per character, which is [1] at the character's position in
    [_letters] and [0] elsewhere, followed by zeros. *)
Theorem X18_one_hot_encode_blocks (ls : list char) (longest : Z) (name : list char) :
  NoDup ls -> Forall (fun c => c ∈ ls) name -> (Z.of_nat (length name) <= longest)%Z ->
  one_hot_encode ls longest name = Fine (encoding (F := F) ls longest name) /\
  length (encoding (F := F) ls longest name) = Z.to_nat longest * letters_count ls /\
  (forall c j, letters ls c = Some j <-> ls !! j = Some c).
Proof.
  intros N Hin Hlen. split_and!.
  - unfold one_hot_encode, encoding.
    assert ((longest * Z.of_nat (letters_count ls) <? 0)%Z = false) as ->
      by (apply Z.ltb_ge, Z.mul_nonneg_nonneg; lia).
    rewrite Z2Nat.inj_mul, Nat2Z.id by lia.
    apply (one_hot_loop_run ls name 0 [] (Z.to_nat longest) N Hin); [reflexivity | lia].
  - unfold encoding. rewrite length_app, length_replicate.
    assert (L : forall (l : list char),
              length (concat (map (fun c => one_hot (F := F) (letters_count ls)
                                              (default 0 (letters ls c))) l))
              = length l * letters_count ls).
    { induction l as [|c l IH]; [reflexivity|]. cbn [map concat length].
      rewrite length_app, IH. unfold one_hot. rewrite length_insert, length_replicate.
      reflexivity. }
    rewrite L. nia.
  - intros c j. now apply letters_spec.
Qed.

End LunchProofs.

Section LunchErrors.
Context {char : Type} {char_eq : EqDecision char}.

Lemma one_hot_loop_app (ls : list char) (post : list char) :
  forall (pre : list char) i (P : vec) rest_len,
  NoDup ls ->
  Forall (fun c => c ∈ ls) pre ->
  length P = i * letters_count ls ->
  length pre <= rest_len ->
  one_hot_loop ls (pre ++ post) i (P ++ replicate (rest_len * letters_count ls) fzero)
  = one_hot_loop ls post (i + length pre)
      ((P ++ concat (map (fun c => one_hot (letters_count ls) (default 0 (letters ls c))) pre))
       ++ replicate ((rest_len - length pre) * letters_count ls) fzero).
Proof.
  induction pre as [|c pre IH]; intros i P rest_len N Hin LP Hlen.
  - cbn. now rewrite Nat.sub_0_r, Nat.add_0_r, app_nil_r.
  - inversion Hin as [|? ? Hc Hin']; subst. cbn [app one_hot_loop map concat length].
    apply list_elem_of_lookup in Hc as [j Hj].
    pose proof (lookup_lt_Some _ _ _ Hj) as Lj. fold (letters_count ls) in Lj.
    rewrite (proj2 (letters_spec ls c j N) Hj). cbn [default].
    destruct rest_len as [|r]; [cbn in Hlen; lia|].
    assert (Er : replicate (S r * letters_count ls) (fzero : F)
                 = replicate (letters_count ls) fzero ++ replicate (r * letters_count ls) fzero).
    { cbn [Nat.mul]. apply replicate_add. }
    rewrite Er.
    assert ((i * letters_count ls + j <?
             length (P ++ replicate (letters_count ls) fzero
                       ++ replicate (r * letters_count ls) fzero)) = true) as ->.
    { apply Nat.ltb_lt. rewrite !length_app, !length_replicate. lia. }
    rewrite insert_app_r_alt by lia.
    replace (i * letters_count ls + j - length P) with j by lia.
    rewrite insert_app_l by (rewrite length_replicate; lia).
    fold (one_hot (letters_count ls) j).
    rewrite (app_assoc P).
    rewrite (IH (S i) (P ++ one_hot (letters_count ls) j) r N Hin').
    + rewrite <- !app_assoc. cbn [length Nat.sub].
      replace (S i + length pre) with (i + S (length pre)) by lia. reflexivity.
    + rewrite length_app. unfold one_hot. rewrite length_insert, length_replicate. lia.
    + cbn in Hlen. lia.
Qed.

(** X19.  The two ways [one_hot_encode] fails on a name, for a tuple
    [_letters] of distinct characters and a non-negative
    [longest_lunch_len].  At the first character that is not in [_letters],
    when it stands within the first [longest_lunch_len + 1] characters, the
    dictionary raises [KeyError] with that character.  On a name longer than
    [longest_lunch_len] whose first [longest_lunch_len + 1] characters are
    all known, the assignment indexes past the array and raises
    [IndexError]: longer names are not truncated. *)
Theorem X19_one_hot_encode_failures (ls : list char) (longest : Z) (pre post : list char)
    (c : char) :
  NoDup ls -> Forall (fun c => c ∈ ls) pre -> (0 <= longest)%Z ->
  (c ∉ ls -> (Z.of_nat (length pre) <= longest)%Z ->
     one_hot_encode (F := F) ls longest (pre ++ c :: post) = Failed (KeyError c)) /\
  (c ∈ ls -> Z.of_nat (length pre) = longest ->
     one_hot_encode (F := F) ls longest (pre ++ c :: post)
     = Failed (Library (IndexError "index is out of bounds for axis 0"))).
Proof.
  intros N Hin Hl.
  assert (Run : (Z.of_nat (length pre) <= longest)%Z ->
    one_hot_encode (F := F) ls longest (pre ++ c :: post)
    = one_hot_loop ls (c :: post) (length pre)
        (concat (map (fun c => one_hot (letters_count ls) (default 0 (letters ls c))) pre)
         ++ replicate ((Z.to_nat longest - length pre) * letters_count ls) fzero)).
  { intros Hlen. unfold one_hot_encode.
    assert ((longest * Z.of_nat (letters_count ls) <? 0)%Z = false) as ->
      by (apply Z.ltb_ge, Z.mul_nonneg_nonneg; lia).
    rewrite Z2Nat.inj_mul, Nat2Z.id by lia.
    apply (one_hot_loop_app ls (c :: post) pre 0 [] (Z.to_nat longest) N Hin);
      [reflexivity | lia]. }
  split.
  - intros Hc Hlen. rewrite Run by trivial. cbn [one_hot_loop].
    destruct (letters ls c) as [j|] eqn:E; [|reflexivity].
    exfalso. apply Hc. apply (letters_spec ls c j N) in E.
    apply list_elem_of_lookup. eauto.
  - intros Hc Hlen. rewrite Run by lia. cbn [one_hot_loop].
    apply list_elem_of_lookup in Hc as [j Hj].
    rewrite (proj2 (letters_spec ls c j N) Hj).
    replace (Z.to_nat longest - length pre) with 0 by lia. cbn [Nat.mul replicate].
    rewrite app_nil_r.
    assert (L : forall (l : list char),
              length (concat (map (fun c => one_hot (F := F) (letters_count ls)
                                              (default 0 (letters ls c))) l))
              = length l * letters_count ls).
    { induction l as [|c' l IH]; [reflexivity|]. cbn [map concat length].
      rewrite length_app, IH. unfold one_hot. rewrite length_insert, length_replicate.
      reflexivity. }
    rewrite L.
    assert ((length pre * letters_count ls + j <? length pre * letters_count ls) = false) as ->
      by (apply Nat.ltb_ge; lia).
    reflexivity.
Qed.

End LunchErrors.

Section LunchTaste.
Context {char : Type} {char_eq : EqDecision char}.

Lemma one_hot_encode_run (ls : list char) (longest : Z) (name : list char) :
  NoDup ls -> Forall (fun c => c ∈ ls) name -> (Z.of_nat (length name) <= longest)%Z ->
  one_hot_encode ls longest name = Fine (encoding (F := F) ls longest name) /\
  length (encoding (F := F) ls longest name) = Z.to_nat longest * letters_count ls.
Proof.
  intros N Hin Hlen. split.
  - unfold one_hot_encode, encoding.
    assert ((longest * Z.of_nat (letters_count ls) <? 0)%Z = false) as ->
      by (apply Z.ltb_ge, Z.mul_nonneg_nonneg; lia).
    rewrite Z2Nat.inj_mul, Nat2Z.id by lia.
    apply (one_hot_loop_run ls name 0 [] (Z.to_nat longest) N Hin); [reflexivity | lia].
  - unfold encoding. rewrite length_app, length_replicate.
    assert (L : forall (l : list char),
              length (concat (map (fun c => one_hot (F := F) (letters_count ls)
                                              (default 0 (letters ls c))) l))
              = length l * letters_count ls).
    { induction l as [|c l IH]; [reflexivity|]. cbn [map concat length].
      rewrite length_app, IH. unfold one_hot. rewrite length_insert, length_replicate.
      reflexivity. }
    rewrite L. nia.
Qed.

Lemma clamp_percent_range (n : Z) : (0 <= clamp_percent n <= 100)%Z.
Proof. unfold clamp_percent. lia. Qed.

Lemma lunch_taste_run (ls : list char) (longest : Z) (name : list char) (s : state) (t : Z) :
  wf s = true -> NoDup ls ->
  input_count s = Z.to_nat longest * letters_count ls ->
  Forall (fun c => c ∈ ls) name -> (Z.of_nat (length name) <= longest)%Z ->
  taste_of ls longest (parameters s) name = Some t ->
  exists s', lunch_taste ls longest name s = (Fine t, s') /\
             (0 <= t <= 100)%Z /\
             parameters s' = parameters s /\ wf s' = true /\
             input_count s' = input_count s /\ extends s s'.
Proof.
  intros W N In Hin Hlen T.
  destruct (one_hot_encode_run ls longest name N Hin Hlen) as [Enc Len].
  rewrite <- In in Len.
  destruct (predict_run s _ W Len) as (r & s' & out & lo & Run & W' & E & _ & _ & Hout & FF).
  unfold taste_of in T. rewrite FF in T.
  destruct out as [|x out']; [discriminate|].
  destruct (fround x) as [n|e] eqn:R; [|discriminate]. injection T as <-.
  exists s'. unfold lunch_taste. rewrite Enc, Run, Hout. cbn. rewrite R.
  split_and!; trivial.
  - apply clamp_percent_range.
  - apply clamp_percent_range.
  - now apply parameters_extends.
  - now apply input_count_extends.
Qed.

(** X20.  [lunch_taste] on a network whose input layer has
    [longest_lunch_len * letters_count] neurons, for a name that
    [one_hot_encode] accepts: the result is the first output of the forward
    pass on the encoding, rounded and clamped to [0, 100]; the call leaves
    the weights and biases as they were and the network well formed.  And
    whatever the network and the name, a returned taste lies in [0, 100]. *)
Theorem X20_lunch_taste_is_a_percentage (ls : list char) (longest : Z) (name : list char)
    (s : state) (t : Z) :
  wf s = true -> NoDup ls ->
  input_count s = Z.to_nat longest * letters_count ls ->
  Forall (fun c => c ∈ ls) name -> (Z.of_nat (length name) <= longest)%Z ->
  taste_of ls longest (parameters s) name = Some t ->
  (exists s', lunch_taste ls longest name s = (Fine t, s') /\
              parameters s' = parameters s /\ wf s' = true) /\
  (forall name0 (s0 s1 : state) t0,
     lunch_taste ls longest name0 s0 = (Fine t0, s1) -> (0 <= t0 <= 100)%Z).
Proof.
  intros W N In Hin Hlen T. split.
  - destruct (lunch_taste_run ls longest name s t W N In Hin Hlen T)
      as (s' & Run & _ & P & W' & _).
    exists s'. auto.
  - intros name0 s0 s1 t0 Run. unfold lunch_taste in Run.
    destruct (one_hot_encode ls longest name0) as [inputs|e]; [|discriminate].
    destruct (predict inputs s0) as [[r|e] s2]; [|discriminate].
    destruct (default [] (vecs s2 !! r) !! 0) as [x|]; [|discriminate].
    destruct (fround x) as [n|e]; [|discriminate].
    injection Run as <- _. apply clamp_percent_range.
Qed.

Lemma best_lunch_loop_run {Lunch : Type} (ls : list char) (longest : Z)
    (main_dish : Lunch -> list char) (ps : list (matrix * vec * pyobj)) :
  forall (menu : list Lunch) (best_taste : Z) (best : option Lunch) (s : state),
  wf s = true -> NoDup ls ->
  input_count s = Z.to_nat longest * letters_count ls ->
  parameters s = ps ->
  Forall (fun l => Forall (fun c => c ∈ ls) (main_dish l) /\
                   (Z.of_nat (length (main_dish l)) <= longest)%Z /\
                   is_Some (taste_of ls longest ps (main_dish l))) menu ->
  exists r s',
    best_lunch_loop ls longest main_dish menu best_taste best s = (Fine r, s') /\
    parameters s' = ps /\ wf s' = true /\
    ((r = best /\
      forall l t, l ∈ menu -> taste_of ls longest ps (main_dish l) = Some t ->
                  (t <= best_taste)%Z) \/
     (exists pre l post t,
        menu = pre ++ l :: post /\ r = Some l /\
        taste_of ls longest ps (main_dish l) = Some t /\ (best_taste < t)%Z /\
        (forall l' t', l' ∈ pre -> taste_of ls longest ps (main_dish l') = Some t' ->
                       (t' < t)%Z) /\
        (forall l' t', l' ∈ post -> taste_of ls longest ps (main_dish l') = Some t' ->
                       (t' <= t)%Z))).
Proof.
  induction menu as [|l menu IH]; intros bt b s W N In P All.
  - exists b, s. cbn. split_and!; trivial. left. split; trivial.
    intros l t Hl. inversion Hl.
  - inversion All as [|? ? (Hin & Hlen & [t0 T0]) All']; subst.
    destruct (lunch_taste_run ls longest (main_dish l) s t0 W N In Hin Hlen T0)
      as (s1 & Run & _ & P1 & W1 & In1 & _).
    rewrite In in In1. cbn [best_lunch_loop]. rewrite Run.
    destruct (t0 >? bt)%Z eqn:C.
    + apply Z.gtb_lt in C.
      destruct (IH t0 (Some l) s1 W1 N In1 P1 All') as (r & s' & Run' & P' & W' & D).
      exists r, s'. split_and!; trivial. right.
      destruct D as [[-> Le]|(pre & l2 & post & t2 & -> & -> & T2 & Lt & Hpre & Hpost)].
      * exists [], l, menu, t0. split_and!; trivial.
        intros l' t' Hl'. inversion Hl'.
      * exists (l :: pre), l2, post, t2. split_and!; trivial; [lia|].
        intros l' t' Hl' T'. apply elem_of_cons in Hl' as [->|Hl'].
        -- rewrite T0 in T'. injection T' as <-. lia.
        -- eauto.
    + assert (C' : (t0 <= bt)%Z).
      { destruct (Z.gtb_spec t0 bt); [discriminate | lia]. }
      destruct (IH bt b s1 W1 N In1 P1 All') as (r & s' & Run' & P' & W' & D).
      exists r, s'. split_and!; trivial.
      destruct D as [[-> Le]|(pre & l2 & post & t2 & -> & -> & T2 & Lt & Hpre & Hpost)].
      * left. split; trivial. intros l' t' Hl' T'. apply elem_of_cons in Hl' as [->|Hl'].
        -- rewrite T0 in T'. injection T' as <-. lia.
        -- eauto.
      * right. exists (l :: pre), l2, post, t2. split_and!; trivial.
        intros l' t' Hl' T'. apply elem_of_cons in Hl' as [->|Hl'].
        -- rewrite T0 in T'. injection T' as <-. lia.
        -- eauto.
Qed.

Lemma taste_of_range (ls : list char) (longest : Z) ps (name : list char) (t : Z) :
  taste_of (F := F) ls longest ps name = Some t -> (0 <= t <= 100)%Z.
Proof.
  unfold taste_of. destruct (feed_forward _ _) as [[|x out]|e]; try discriminate.
  destruct (fround x) as [n|e]; [|discriminate].
  intros [= <-]. apply clamp_percent_range.
Qed.

(** X21.  [best_lunch] over a menu whose dishes [lunch_taste] can all
    rate: it returns [None] exactly for the empty menu, and otherwise the
    first lunch of the greatest taste: every lunch before it tastes
    strictly worse, none after it tastes better.  The weights and biases of
    the network are the same afterwards. *)
Theorem X21_best_lunch_is_first_maximum {Lunch : Type} (ls : list char) (longest : Z)
    (main_dish : Lunch -> list char) (menu : list Lunch) (s : state) :
  wf s = true -> NoDup ls ->
  input_count s = Z.to_nat longest * letters_count ls ->
  Forall (fun l => Forall (fun c => c ∈ ls) (main_dish l) /\
                   (Z.of_nat (length (main_dish l)) <= longest)%Z /\
                   is_Some (taste_of ls longest (parameters s) (main_dish l))) menu ->
  exists r s',
    best_lunch ls longest main_dish menu s = (Fine r, s') /\
    parameters s' = parameters s /\ wf s' = true /\
    match r with
    | None => menu = []
    | Some l =>
        exists pre post t,
          menu = pre ++ l :: post /\
          taste_of ls longest (parameters s) (main_dish l) = Some t /\
          (forall l' t', l' ∈ pre ->
             taste_of ls longest (parameters s) (main_dish l') = Some t' -> (t' < t)%Z) /\
          (forall l' t', l' ∈ post ->
             taste_of ls longest (parameters s) (main_dish l') = Some t' -> (t' <= t)%Z)
    end.
Proof.
  intros W N In All.
  destruct (best_lunch_loop_run ls longest main_dish (parameters s) menu (-1) None s
              W N In eq_refl All) as (r & s' & Run & P & W' & D).
  exists r, s'. split_and!; trivial.
  destruct D as [[-> Le]|(pre & l & post & t & -> & -> & T & _ & Hpre & Hpost)].
  - destruct menu as [|l menu]; [reflexivity|]. exfalso.
    inversion All as [|? ? (_ & _ & [t T]) _]; subst.
    pose proof (taste_of_range _ _ _ _ _ T).
    specialize (Le l t (list_elem_of_here _ _) T). lia.
  - exists pre, post, t. auto.
Qed.

End LunchTaste.

End Proofs.

(** * Concrete evaluations on binary64 *)

Lemma C10_witness :
  predict [1%float; 2%float] Demo.built = (Raise shape_error_inputs, Demo.built).
Proof.
  apply C10_predict_shape_error_is_atomic; [vm_compute; reflexivity | vm_compute; lia].
Defined.

Lemma C9_witness :
  exists r1 s1 r2 s2 out,
    predict [2%float] Demo.built = (Ok r1, s1) /\ predict [2%float] s1 = (Ok r2, s2) /\
    vecs s1 !! r1 = Some out /\ vecs s2 !! r2 = Some out /\
    parameters s1 = parameters Demo.built /\
    feed_forward (parameters Demo.built) [2%float] = Ok out.
Proof.
  apply C9_predict_is_deterministic; vm_compute; reflexivity.
Defined.

Lemma C4_witness :
  loss_cost CategoricalCrossEntropy [0.5%float; 0.5%float] [1%float; 0%float] =
  Raise (AxisError "axis 1 is out of bounds for array of dimension 1").
Proof.
  apply C4_categorical_cross_entropy_cost. reflexivity.
Defined.

(** A target of one value against an output layer of two neurons:
    [backprop] returns the gradient list. *)
Lemma C3_counterexample :
  output_count Demo.predicted = 2 /\
  length [1%float] = 1 /\
  fst (backprop [1%float] Demo.predicted) = Ok [(Some 1, Some 9)].
Proof. vm_compute. auto. Qed.

Lemma C3_witness :
  current_cost [1%float; 2%float; 3%float] Demo.predicted =
    (Raise shape_error_targets, Demo.predicted) /\
  (forall lf, loss_func (self Demo.predicted) = ObjLoss lf ->
     (length [1%float; 2%float; 3%float] <> 1 ->
        exists msg s', backprop [1%float; 2%float; 3%float] Demo.predicted
                       = (Raise (ValueError msg), s')) /\
     (length [1%float; 2%float; 3%float] = 1 ->
        exists g s', backprop [1%float; 2%float; 3%float] Demo.predicted = (Ok g, s'))).
Proof.
  apply C3_mismatched_targets; [vm_compute; reflexivity | vm_compute; lia].
Defined.


(** C7, as the code has it, on an empty iterator.  [train] tests [not dataset]
    before it turns the data set into a list, and an iterator is true even
    when it yields nothing: with one epoch
    and batches of one, the epoch runs over no batch and the mean cost
    divides by zero; with no epoch, [train] returns normally.  (The state is
    unchanged in both cases: an empty list is shuffled without a draw.) *)
Theorem C7_train_accepts_empty_iterator :
  train (PyIterator []) 1 1 0.001%float 0.15%float Demo.built =
    (Raise (ZeroDivisionError "division by zero"), Demo.built) /\
  train (PyIterator []) 0 (-1) 0.001%float 0.15%float Demo.built = (Ok tt, Demo.built).
Proof. split; vm_compute; reflexivity. Qed.

(** A file naming the activation [Tanh]: [load] raises. *)
Lemma C5_counterexample :
  files Demo.with_unknown_activation_file !! "model.ai"%string
    = Some Demo.unknown_activation_file /\
  fst (load "model.ai" Demo.with_unknown_activation_file)
    = Raise (AttributeError "'NoneType' object has no attribute 'init_weights'").
Proof. split; vm_compute; reflexivity. Qed.

Lemma C5_witness :
  (exists e s', load "model.ai" Demo.with_unknown_activation_file = (Raise e, s')) /\
  (forall absent, files Demo.with_unknown_activation_file !! absent = None ->
                  load absent Demo.with_unknown_activation_file
                  = (Ok None, Demo.with_unknown_activation_file)).
Proof.
  eapply (C5_load_unknown_activation Demo.with_unknown_activation_file "model.ai"
            Demo.unknown_activation_file);
    vm_compute; reflexivity.
Defined.

Lemma C6_witness :
  (forall inputs, params_ok (snd (predict inputs Demo.built)) = true) /\
  (forall targets, params_ok (snd (backprop targets Demo.built)) = true) /\
  (forall g learning_rate,
     params_ok (snd (update_weights g learning_rate Demo.built)) = true) /\
  (forall dataset epochs batch_size learning_rate validation_split,
     params_ok (snd (train dataset epochs batch_size learning_rate validation_split
                       Demo.built)) = true) /\
  (forall sizes activation loss n s',
     NeuralNetwork_init sizes activation loss Demo.built = (Ok n, s') ->
     params_ok (with_self n s') = true).
Proof.
  apply (C6_parameter_shapes_invariant Demo.built). vm_compute; reflexivity.
Defined.

Lemma C8_witness :
  exists s',
    update_weights [(Some 1, Some 5)] 0.5%float Demo.steep = (Ok tt, s') /\
    self s' = self Demo.steep /\
    (forall k l, layers (self Demo.steep) !! S k = Some l ->
       exists w wg b bg,
         entry (layers (self Demo.steep)) [(Some 1, Some 5)] k l w wg b bg /\
         ready Demo.steep w wg b bg /\
         updated Demo.steep s' 0.5%float w wg b bg) /\
    (forall x : float,
       clip1 x = if fltb x (flit (-1) 0) then flit (-1) 0
                 else if fltb (flit 1 0) x then flit 1 0 else x) /\
    (forall x, fltb x (flit (-1) 0) = false -> fltb (flit 1 0) x = true ->
       fmul (clip1 x) 0.5%float = fmul (flit 1 0) 0.5%float).
Proof.
  apply (C8_update_weights_clips_then_descends Demo.steep [(Some 1, Some 5)] 0.5%float);
    vm_compute; reflexivity.
Defined.

(** The same call, evaluated: the weight gradient [[5.0], [-0.5]] is
    clipped to [[1.0], [-0.5]] and the weights [[0.5], [0.25]] become
    [[0.0], [0.5]] at learning rate 0.5; the bias gradient [5.0, -3.0] is
    clipped to [1.0, -1.0] and the biases [0.0, 0.0] become [-0.5, 0.5]. *)
Example update_weights_steep_gradient :
  let s' := snd (update_weights [(Some 1, Some 5)] 0.5%float Demo.steep) in
  mats Demo.steep !! 0 = Some (mkMatrix [[0.5%float]; [0.25%float]] 1) /\
  mats Demo.steep !! 1 = Some (mkMatrix [[5%float]; [(-0.5)%float]] 1) /\
  mats s' !! 1 = Some (mkMatrix [[1%float]; [(-0.5)%float]] 1) /\
  mats s' !! 0 = Some (mkMatrix [[0%float]; [0.5%float]] 1) /\
  vecs s' !! 5 = Some [1%float; (-1)%float] /\
  vecs s' !! 2 = Some [(-0.5)%float; 0.5%float].
Proof. vm_compute. auto 10. Qed.

Lemma C2_witness :
  exists s1,
    save "model.ai" Demo.lunch_model = (Ok tt, s1) /\
    forall t : state float,
      files t !! "model.ai"%string = files s1 !! "model.ai"%string ->
      exists net t',
        load "model.ai" t = (Ok (Some net), t') /\
        counts (layers net) = counts (layers (self Demo.lunch_model)) /\
        map activation_func (layers net)
          = map activation_func (layers (self Demo.lunch_model)) /\
        map (fun l => class_name (activation_func l)) (layers net)
          = map (fun l => class_name (activation_func l)) (layers (self Demo.lunch_model)) /\
        loss_func net = loss_func (self Demo.lunch_model) /\
        parameters (with_self net t') = parameters Demo.lunch_model /\
        forall inputs, length inputs = input_count Demo.lunch_model ->
          exists r1 t1 r2 t2 out,
            predict inputs Demo.lunch_model = (Ok r1, t1) /\
            predict inputs (with_self net t') = (Ok r2, t2) /\
            vecs t1 !! r1 = Some out /\ vecs t2 !! r2 = Some out.
Proof.
  apply (C2_save_load_round_trip Demo.lunch_model "model.ai").
  - vm_compute; reflexivity.
  - assert (E : counts (layers (self Demo.lunch_model)) = [6; 2; 1])
      by (vm_compute; reflexivity).
    rewrite E. repeat constructor.
  - assert (E : stored Demo.lunch_model
                = [0; 0; 0.5; 0.25; 0.75; 1; 0.5; 0.25; 0.75; 1; 0.5; 0.25; 0.75; 1;
                   0; 0.7071067811865476; 0.35355339059327379]%float)
      by (vm_compute; reflexivity).
    rewrite E. repeat (constructor; [split; vm_compute; reflexivity|]). constructor.
  - reflexivity.
Defined.

(** The files that [save] writes for [Demo.built] (biases 0.0 and 0.0,
    weights 0.5 and 0.25) and for [Demo.lunch_model]. *)
Example save_built_text :
  files (snd (save "model.ai" Demo.built)) !! "model.ai"%string
  = Some ("1,2" ++ newline ++ "ReLU" ++ newline ++ "MeanSquareError" ++ newline ++ newline
          ++ "0.0,0.0" ++ newline ++ "0.5" ++ newline ++ "0.25")%string.
Proof. vm_compute; reflexivity. Qed.

Example save_lunch_model_text :
  files (snd (save "model.ai" Demo.lunch_model)) !! "model.ai"%string
  = Some ("6,2,1" ++ newline ++ "ReLU,ReLU" ++ newline ++ "MeanAbsoluteError"
          ++ newline ++ newline
          ++ "0.0,0.0" ++ newline
          ++ "0.5,0.25,0.75,1.0,0.5,0.25" ++ newline
          ++ "0.75,1.0,0.5,0.25,0.75,1.0"
          ++ newline ++ newline
          ++ "0.0" ++ newline
          ++ "0.7071067811865476,0.3535533905932738")%string.
Proof. vm_compute; reflexivity. Qed.

(** That file, read in a world that holds nothing else: [load] builds the
    network from the text alone. *)
Example load_lunch_model_text :
  exists net t',
    load "model.ai" Demo.with_lunch_model_file = (Ok (Some net), t') /\
    self Demo.with_lunch_model_file = self Demo.blank /\
    parameters (with_self net t') = parameters Demo.lunch_model.
Proof. eexists. eexists. split_and!; vm_compute; reflexivity. Qed.

(** [save] to a path that names a directory raises and writes nothing. *)
Example save_to_a_directory :
  save "models/" Demo.built = (Raise (OSError "[Errno 21] Is a directory"), Demo.built).
Proof. vm_compute; reflexivity. Qed.

(** [str] and [float] on binary64: the shortest numeral that reads back,
    laid out as Python does, and the double nearest to a numeral. *)
Example str_of_some_floats :
  map Float64.str
    [0.1; 0.30000000000000004; 1e22; 1e23; 5e-324; 1.7976931348623157e308; 1e16; 1e15;
     0.0001; 0.00001; 9007199254740992; 20000000000000008; -2.5e-7]%float
  = ["0.1"; "0.30000000000000004"; "1e+22"; "1e+23"; "5e-324"; "1.7976931348623157e+308";
     "1e+16"; "1000000000000000.0"; "0.0001"; "1e-05"; "9007199254740992.0";
     "2.000000000000001e+16"; "-2.5e-07"]%string.
Proof. vm_compute; reflexivity. Qed.

Example float_of_some_texts :
  map Float64.parse
    ["0.1"; "1e-05"; "  1_000.5e1 "; "Infinity"; ".5"; "5."; "+1.5E+2"; "1e400";
     "2.4703282292062327e-324"; "2.4703282292062328e-324"; "1e"; "1__0"; "0x10"; ""]%string
  = [Some 0.1; Some 1e-5; Some 10005; Some infinity; Some 0.5; Some 5; Some 150;
     Some infinity; Some 0; Some 5e-324; None; None; None; None]%float.
Proof. vm_compute; reflexivity. Qed.


(** * The further properties, evaluated *)

Lemma X2_witness :
  exists n s',
    NeuralNetwork_init (map Z.of_nat [1; 2]) (OneActivation ReLU) (ObjLoss MeanSquareError)
      Demo.blank = (Ok n, s') /\
    wf (with_self n s') = true /\
    counts (layers n) = [1; 2] /\
    map activation_func (layers n)
      = ObjActivation Sigmoid :: replicate (length [1; 2] - 1) (ObjActivation ReLU) /\
    loss_func n = ObjLoss MeanSquareError /\ cost n = flit (-1) 0 /\
    (exists more, vecs s' = vecs Demo.blank ++ more) /\
    (exists more, mats s' = mats Demo.blank ++ more) /\
    self s' = self Demo.blank /\ files s' = files Demo.blank.
Proof.
  apply (X2_constructor_builds [1; 2] ReLU (ObjLoss MeanSquareError) Demo.blank).
  - repeat constructor.
  - simpl. lia.
Defined.

Lemma X3_witness :
  exists r s' out lo,
    predict [2%float] Demo.built = (Ok r, s') /\
    last (layers (self s')) = Some lo /\ activations lo = r /\
    vecs s' !! r = Some out /\ length out = output_count Demo.built /\
    wf s' = true /\
    (forall r0 v, vecs Demo.built !! r0 = Some v -> vecs s' !! r0 = Some v) /\
    (forall r0 W, mats Demo.built !! r0 = Some W -> mats s' !! r0 = Some W).
Proof.
  apply (X3_predict_output Demo.built [2%float]); vm_compute; reflexivity.
Defined.

Lemma X5_witness :
  exists lo predictions,
    last (layers (self Demo.predicted)) = Some lo /\
    vecs Demo.predicted !! activations lo = Some predictions /\
    length predictions = length [1%float; 1%float] /\
    let error (p t : float) : float := fpow (fsub p t) 2 in
    let e := zip_with error predictions [1%float; 1%float] in
    current_cost [1%float; 1%float] Demo.predicted
    = (Ok (fdiv (fsum e) (f_of_nat (length [1%float; 1%float]))), Demo.predicted) /\
    (length [1%float; 1%float] < 8 -> fsum e = fadd fzero (fold_left fadd e fzero)).
Proof.
  apply (X5_current_cost_is_mean_loss Demo.predicted [1%float; 1%float] MeanSquareError);
    [vm_compute; reflexivity | vm_compute; reflexivity | discriminate | vm_compute; reflexivity].
Defined.

(** The same call, evaluated: the outputs are 1.0 and 0.5, the errors 0.0
    and 0.25, their mean 0.125.  And numpy's sum of ten terms, which is not
    the sum from left to right. *)
Example current_cost_predicted :
  fst (current_cost [1%float; 1%float] Demo.predicted) = Ok 0.125%float.
Proof. vm_compute; reflexivity. Qed.

Example fsum_of_ten :
  let v := [1e16; 1; 1; 1; 1; 1; 1; 1; 1; 1]%float in
  fsum v = 10000000000000008%float /\
  fold_left fadd v fzero = 1e16%float.
Proof. vm_compute. split; reflexivity. Qed.

Lemma X6_witness :
  exists g s',
    backprop [1%float; 1%float] Demo.predicted = (Ok g, s') /\
    length g = length (layers (self Demo.predicted)) - 1 /\
    gradient_matches s' (counts (layers (self s'))) 0 (drop 1 (layers (self s'))) g = true /\
    parameters s' = parameters Demo.predicted /\
    counts (layers (self s')) = counts (layers (self Demo.predicted)) /\
    wf s' = true /\
    (forall r0 v, vecs Demo.predicted !! r0 = Some v -> vecs s' !! r0 = Some v) /\
    (forall r0 W, mats Demo.predicted !! r0 = Some W -> mats s' !! r0 = Some W).
Proof.
  apply (X6_backprop_only_computes Demo.predicted [1%float; 1%float] MeanSquareError);
    vm_compute; reflexivity.
Defined.

Lemma X7_witness :
  exists g s1 s2,
    backprop [1%float; 1%float] Demo.predicted = (Ok g, s1) /\
    update_weights g 0.5%float s1 = (Ok tt, s2) /\
    self s2 = self s1 /\
    (forall k l, layers (self s1) !! S k = Some l ->
       exists w wg b bg,
         entry (layers (self s1)) g k l w wg b bg /\ ready s1 w wg b bg /\
         updated s1 s2 0.5%float w wg b bg) /\
    (forall x : float,
       clip1 x = if fltb x (flit (-1) 0) then flit (-1) 0
                 else if fltb (flit 1 0) x then flit 1 0 else x).
Proof.
  apply (X7_backprop_feeds_update_weights Demo.predicted [1%float; 1%float] MeanSquareError
           0.5%float);
    vm_compute; reflexivity.
Defined.

Lemma X8_witness :
  update_weights [] 0.5%float Demo.built
  = (Raise (IndexError "list index out of range"), Demo.built).
Proof.
  apply (X8_update_weights_empty_gradient Demo.built 0.5%float). vm_compute; reflexivity.
Defined.

Lemma X10_witness :
  exists g,
    train (PySequence [([2%float], [1%float; 1%float])]) 0 1 0.5%float 0.15%float Demo.built
    = (Ok tt, with_py_random g Demo.built).
Proof.
  apply (X10_train_without_epochs Demo.built (PySequence [([2%float], [1%float; 1%float])])
           0 1 0.5%float 0.15%float).
  - reflexivity.
  - vm_compute; reflexivity.
  - lia.
  - right. eexists. vm_compute; reflexivity.
Defined.

Lemma X11_witness :
  exists g,
    train (PySequence [([2%float], [1%float; 1%float])]) 1 1 0.5%float 0.15%float Demo.built
    = (Raise (if (1 <=? 0)%Z
              then ValueError "range() arg 3 must not be zero"
              else ZeroDivisionError "division by zero"),
       with_py_random g Demo.built).
Proof.
  apply (X11_train_without_training_examples Demo.built
           (PySequence [([2%float], [1%float; 1%float])]) 1 1 0.5%float 0.15%float).
  - reflexivity.
  - vm_compute; reflexivity.
  - lia.
  - vm_compute; reflexivity.
  - vm_compute; reflexivity.
Defined.

Lemma X12_witness :
  (forall e, open_w_error "model.ai" = Some e ->
             save "model.ai" Demo.built = (Raise e, Demo.built)) /\
  (open_w_error "model.ai" = None ->
   exists s',
     save "model.ai" Demo.built = (Ok tt, s') /\
     files s' !! "model.ai"%string = Some (text_of Demo.built) /\
     self s' = self Demo.built /\ vecs s' = vecs Demo.built /\ mats s' = mats Demo.built /\
     np_random s' = np_random Demo.built /\ py_random s' = py_random Demo.built /\
     save "model.ai" s' = (Ok tt, s')).
Proof.
  apply (X12_save_replaces_the_file Demo.built "model.ai"). vm_compute; reflexivity.
Defined.

Lemma X13_witness :
  exists msg, load "model.ai" Demo.with_empty_file
              = (Raise (ValueError msg), Demo.with_empty_file).
Proof.
  apply (X13_load_wants_three_header_lines Demo.with_empty_file "model.ai" "" "" []).
  - vm_compute; reflexivity.
  - vm_compute; reflexivity.
  - vm_compute. lia.
Defined.

Lemma X14_witness :
  exists s',
    Neuron_set_bias (mkNeuron 1 1) 3%float Demo.built = (Returns tt, s') /\
    Neuron_bias (mkNeuron 1 1) s' = (Ok (Some 3%float), s') /\
    (forall k', k' <> 1 ->
       fst (Neuron_bias (mkNeuron 1 k') s') = fst (Neuron_bias (mkNeuron 1 k') Demo.built)) /\
    wf s' = true /\ self s' = self Demo.built /\ mats s' = mats Demo.built.
Proof.
  eapply (X14_neuron_bias_round_trip Demo.built 0 _ 1 3%float).
  - vm_compute; reflexivity.
  - vm_compute; reflexivity.
  - vm_compute. lia.
Defined.

Lemma X15_witness :
  exists lp,
    layers (self Demo.built) !! 0 = Some lp /\
    (length [3%float] <> neuron_count lp ->
       Neuron_set_weights (mkNeuron 1 1) [3%float] Demo.built
       = (Raises (Builtin (ValueError "Cannot set weights, array lengths do not match.")),
          Demo.built)) /\
    (length [3%float] = neuron_count lp ->
       exists s',
         Neuron_set_weights (mkNeuron 1 1) [3%float] Demo.built = (Returns tt, s') /\
         Neuron_weights (mkNeuron 1 1) s' = (Ok (Some [3%float]), s') /\
         (forall k', k' <> 1 ->
            fst (Neuron_weights (mkNeuron 1 k') s')
            = fst (Neuron_weights (mkNeuron 1 k') Demo.built)) /\
         wf s' = true /\ self s' = self Demo.built /\ vecs s' = vecs Demo.built).
Proof.
  eexists. split; [vm_compute; reflexivity|].
  eapply (X15_neuron_weights_setter Demo.built 0 _ _ 1 [3%float]).
  - vm_compute; reflexivity.
  - vm_compute; reflexivity.
  - vm_compute; reflexivity.
  - vm_compute. lia.
Defined.

Lemma X16_witness :
  Neuron_weights (mkNeuron 0 0) Demo.built = (Ok None, Demo.built) /\
  Neuron_bias (mkNeuron 0 0) Demo.built = (Ok None, Demo.built) /\
  (exists msg, Neuron_set_weights (mkNeuron 0 0) [1%float] Demo.built
               = (Raises (PlainException msg), Demo.built)) /\
  (exists msg, Neuron_set_bias (mkNeuron 0 0) 1%float Demo.built
               = (Raises (PlainException msg), Demo.built)) /\
  (exists msg, Neuron_set_activation (mkNeuron 0 0) 1%float Demo.built
               = (Raises (PlainException msg), Demo.built)).
Proof.
  apply (X16_input_neurons_are_read_only Demo.built 0 [1%float] 1%float).
  vm_compute; reflexivity.
Defined.

Lemma X17_witness :
  exists l av,
    layers (self Demo.predicted) !! 1 = Some l /\
    vecs Demo.predicted !! activations l = Some av /\
    exists s',
      Neuron_set_activation (mkNeuron 1 0) 3%float Demo.predicted = (Returns tt, s') /\
      vecs s' !! activations l = Some (<[0 := 3%float]> av) /\
      Neuron_activation (mkNeuron 1 0) s' = (Ok 3%float, s') /\
      self s' = self Demo.predicted /\ mats s' = mats Demo.predicted /\ wf s' = true.
Proof.
  eexists. eexists. split; [vm_compute; reflexivity|]. split; [vm_compute; reflexivity|].
  apply (X17_neuron_activation_setter Demo.predicted 0 _ 0 3%float).
  - vm_compute; reflexivity.
  - vm_compute; reflexivity.
  - vm_compute. lia.
  - vm_compute; reflexivity.
Defined.

Lemma X18_witness :
  one_hot_encode Demo.lunch_letters 2 ["c"; "a"]%char
  = Fine (encoding (F := float) Demo.lunch_letters 2 ["c"; "a"]%char) /\
  length (encoding (F := float) Demo.lunch_letters 2 ["c"; "a"]%char)
  = Z.to_nat 2 * letters_count Demo.lunch_letters /\
  (forall c j, letters Demo.lunch_letters c = Some j <-> Demo.lunch_letters !! j = Some c).
Proof.
  apply (X18_one_hot_encode_blocks Demo.lunch_letters 2 ["c"; "a"]%char).
  - apply (bool_decide_unpack _); vm_compute; exact I.
  - apply (bool_decide_unpack _); vm_compute; exact I.
  - simpl. lia.
Defined.

(** The encoding of the name [ca]: the block of [c], the block of [a]. *)
Example one_hot_encode_ca :
  one_hot_encode Demo.lunch_letters 2 ["c"; "a"]%char
  = Fine [0%float; 0%float; 1%float; 1%float; 0%float; 0%float].
Proof. vm_compute; reflexivity. Qed.

Lemma X19_witness :
  ("z"%char ∉ Demo.lunch_letters -> (Z.of_nat (length ["a"%char]) <= 2)%Z ->
     one_hot_encode (F := float) Demo.lunch_letters 2 (["a"%char] ++ "z"%char :: ["b"%char])
     = Failed (KeyError "z"%char)) /\
  ("z"%char ∈ Demo.lunch_letters -> Z.of_nat (length ["a"%char]) = 2%Z ->
     one_hot_encode (F := float) Demo.lunch_letters 2 (["a"%char] ++ "z"%char :: ["b"%char])
     = Failed (Library (IndexError "index is out of bounds for axis 0"))).
Proof.
  apply (X19_one_hot_encode_failures Demo.lunch_letters 2 ["a"%char] ["b"%char] "z"%char).
  - apply (bool_decide_unpack _); vm_compute; exact I.
  - apply (bool_decide_unpack _); vm_compute; exact I.
  - lia.
Defined.

(** A name of three known letters against [longest_lunch_len = 2]. *)
Example one_hot_encode_long_name :
  one_hot_encode (F := float) Demo.lunch_letters 2 ["a"; "b"; "c"]%char
  = Failed (Library (IndexError "index is out of bounds for axis 0")) /\
  one_hot_encode (F := float) Demo.lunch_letters 2 ["a"; "z"; "b"]%char
  = Failed (KeyError "z"%char).
Proof. split; vm_compute; reflexivity. Qed.

Lemma X20_witness :
  (exists s', lunch_taste Demo.lunch_letters 2 ["b"; "a"]%char Demo.lunch_model
              = (Fine 1%Z, s') /\
              parameters s' = parameters Demo.lunch_model /\ wf s' = true) /\
  (forall name0 (s0 s1 : state float) t0,
     lunch_taste Demo.lunch_letters 2 name0 s0 = (Fine t0, s1) -> (0 <= t0 <= 100)%Z).
Proof.
  apply (X20_lunch_taste_is_a_percentage Demo.lunch_letters 2 ["b"; "a"]%char
           Demo.lunch_model 1%Z).
  - vm_compute; reflexivity.
  - apply (bool_decide_unpack _); vm_compute; exact I.
  - vm_compute; reflexivity.
  - apply (bool_decide_unpack _); vm_compute; exact I.
  - simpl. lia.
  - vm_compute; reflexivity.
Defined.

Lemma X21_witness :
  exists r s',
    best_lunch Demo.lunch_letters 2 (fun l : list ascii => l)
      [[]; ["a"; "b"]; ["b"; "a"]]%char Demo.lunch_model = (Fine r, s') /\
    parameters s' = parameters Demo.lunch_model /\ wf s' = true /\
    match r with
    | None => [[]; ["a"; "b"]; ["b"; "a"]]%char = []
    | Some l =>
        exists pre post t,
          [[]; ["a"; "b"]; ["b"; "a"]]%char = pre ++ l :: post /\
          taste_of Demo.lunch_letters 2 (parameters Demo.lunch_model) l = Some t /\
          (forall l' t', l' ∈ pre ->
             taste_of Demo.lunch_letters 2 (parameters Demo.lunch_model) l' = Some t' ->
             (t' < t)%Z) /\
          (forall l' t', l' ∈ post ->
             taste_of Demo.lunch_letters 2 (parameters Demo.lunch_model) l' = Some t' ->
             (t' <= t)%Z)
    end.
Proof.
  apply (X21_best_lunch_is_first_maximum Demo.lunch_letters 2 (fun l : list ascii => l)
           [[]; ["a"; "b"]; ["b"; "a"]]%char Demo.lunch_model).
  - vm_compute; reflexivity.
  - apply (bool_decide_unpack _); vm_compute; exact I.
  - vm_compute; reflexivity.
  - repeat (apply Forall_cons; split;
            [split_and!;
             [apply (bool_decide_unpack _); vm_compute; exact I
             | simpl; lia
             | eexists; vm_compute; reflexivity]|]).
    apply Forall_nil. exact I.
Defined.

(** The same menu, evaluated: the empty name tastes 0, [ab] and [ba]
    taste 1, and the first of the two is returned. *)
Example best_lunch_of_three :
  fst (best_lunch Demo.lunch_letters 2 (fun l : list ascii => l)
         [[]; ["a"; "b"]; ["b"; "a"]]%char Demo.lunch_model)
  = Fine (Some ["a"; "b"]%char).
Proof. vm_compute; reflexivity. Qed.


(** The exponential and the logarithm on binary64, and the sigmoid that
    uses them. *)
Example exp_and_log :
  map Float64.exp [0; 1; -1; 0.5; 709; 710; -746]%float
  = [1; 2.718281828459045; 0.36787944117144233; 1.6487212707001282;
     8.218407461554972e+307; infinity; 0]%float /\
  map Float64.log [1; 2; 10; 0.5; 1e-15; 0]%float
  = [0; 0.6931471805599453; 2.302585092994046; -0.6931471805599453;
     -34.538776394910684; neg_infinity]%float /\
  Sigmoid_call [0; 1; -1]%float = [0.5; 0.7310585786300049; 0.2689414213699951]%float.
Proof. vm_compute. split_and!; reflexivity. Qed.
